(** * Customer_360: retention and analytics engine

    A shallow embedding of the segmentation engine (class
    SegmentationEngine, in services/backup.js), the real-time sales window
    and revenue analytics (class AnalyticsService, in services/analytics.js),
    the cart model (models/Cart.js) and the cart recovery orchestrator (class
    CartRecoveryService, in services/analytics.js), together with the
    properties the specification states about them.

    Conventions of the embedding:
    - JavaScript numbers that hold money or ratios are exact rationals,
      extended with the two infinities and NaN where the code divides
      (rounding and the sign of zero are not represented);
    - times are integer milliseconds since the epoch;
    - the Redis server, the Mongo collections, the clock, the random
      generator and the pending timers form one explicit [world] threaded
      through a state-and-exception monad;
    - values kept in Redis are stored decoded (a JSON array of labels as a
      list, a decimal counter as an integer);
    - Redis, and the collections other than Order and Message, always
      answer; the Order and Message collections may be failing;
    - saving a cart runs the schema's validators over the whole document
      before anything is written: the minimum of every line's quantity and
      the enum of every logged attempt's type (the references, the price
      and the source are required by the schema and present in every
      document of the embedding);
    - where the code divides or multiplies, the properties state the
      result as the expression the code evaluates. *)

From Stdlib Require Import ZArith QArith Qround String Ascii List Lia.
From stdpp Require Import gmap strings list pretty.

Local Close Scope Q_scope.
Local Open Scope string_scope.
Local Open Scope list_scope.
Local Open Scope Z_scope.

(* ===================================================================== *)
(** ** JavaScript numbers *)
(* ===================================================================== *)

Module JSNum.

Inductive jsnum :=
| Fin (q : Q)
| PosInf
| NegInf
| NaN.

Definition Qsgn (q : Q) : Z := Z.sgn (Qnum q).

(** [a - b] *)
Definition sub (a b : jsnum) : jsnum :=
  match a, b with
  | Fin x, Fin y => Fin (Qminus x y)
  | NaN, _ | _, NaN => NaN
  | PosInf, PosInf | NegInf, NegInf => NaN
  | PosInf, _ => PosInf
  | NegInf, _ => NegInf
  | Fin _, PosInf => NegInf
  | Fin _, NegInf => PosInf
  end.

(** An infinity scaled by the sign of a finite factor. *)
Definition scaleInf (positive : bool) (s : Z) : jsnum :=
  match s with
  | Z0 => NaN
  | Zpos _ => if positive then PosInf else NegInf
  | Zneg _ => if positive then NegInf else PosInf
  end.

(** [a * b] *)
Definition mul (a b : jsnum) : jsnum :=
  match a, b with
  | Fin x, Fin y => Fin (Qmult x y)
  | NaN, _ | _, NaN => NaN
  | PosInf, Fin y | Fin y, PosInf => scaleInf true (Qsgn y)
  | NegInf, Fin y | Fin y, NegInf => scaleInf false (Qsgn y)
  | PosInf, PosInf | NegInf, NegInf => PosInf
  | PosInf, NegInf | NegInf, PosInf => NegInf
  end.

(** [a / b]; a finite number over zero is an infinity, zero over zero is
    NaN. *)
Definition div (a b : jsnum) : jsnum :=
  match a, b with
  | NaN, _ | _, NaN => NaN
  | Fin x, Fin y =>
      if Qeq_bool y 0 then scaleInf true (Qsgn x) else Fin (Qdiv x y)
  | Fin _, (PosInf | NegInf) => Fin 0
  | PosInf, Fin y => if Qeq_bool y 0 then PosInf else scaleInf true (Qsgn y)
  | NegInf, Fin y => if Qeq_bool y 0 then NegInf else scaleInf false (Qsgn y)
  | (PosInf | NegInf), (PosInf | NegInf) => NaN
  end.

(** [a >= b] against a finite bound. *)
Definition geb (a : jsnum) (b : Q) : bool :=
  match a with
  | Fin x => Qle_bool b x
  | PosInf => true
  | NegInf | NaN => false
  end.

Definition ofZ (z : Z) : jsnum := Fin (inject_Z z).

(** Equality of numbers: rationals up to their value. *)
Definition eqv (a b : jsnum) : Prop :=
  match a, b with
  | Fin x, Fin y => Qeq x y
  | PosInf, PosInf | NegInf, NegInf => True
  | _, _ => False
  end.

End JSNum.

Import JSNum.

(** [arr[i]] for a possibly negative index: [undefined] outside the
    array. *)
Definition jsIndex {A} (arr : list A) (i : Z) : option A :=
  if i <? 0 then None else arr !! Z.to_nat i.

(* ===================================================================== *)
(** ** Revenue analytics: growth rates (AnalyticsService) *)
(* ===================================================================== *)

Module Revenue.

(** A row of the [$group] stage of getRevenueAnalytics. *)
Record bucket := Bucket {
  bucketId : string;
  revenue : Q;
  orders : Z;
  averageOrderValue : Q
}.

(** The same row with [growthRate] appended. *)
Record bucketWithGrowth := BucketWithGrowth {
  base : bucket;
  growthRate : jsnum
}.

Definition growthFormula (current previous : bucket) : jsnum :=
  mul (div (sub (Fin (revenue current)) (Fin (revenue previous)))
           (Fin (revenue previous)))
      (Fin 100).

Definition calculateGrowthRates (results : list bucket)
  : list bucketWithGrowth :=
  imap (fun index current =>
          let previous := jsIndex results (Z.of_nat index - 1) in
          let growthRate :=
            match previous with
            | Some previous => growthFormula current previous
            | None => Fin 0
            end in
          BucketWithGrowth current growthRate)
       results.

Definition ofRevenues (rs : list Q) : list bucket :=
  map (fun r => Bucket "" r 1 r) rs.

End Revenue.

(* ===================================================================== *)
(** ** Data model *)
(* ===================================================================== *)

(** A JavaScript [Error]: the caller sees its name and its message. *)
Record jsError := JsError { errName : string; errMessage : string }.

Inductive result (A : Type) :=
| Ok (a : A)
| Throw (e : jsError).
Arguments Ok {A} a.
Arguments Throw {A} e.

Module Model.

Inductive customerType := Individual | Business.
Inductive loyaltyTier := Bronze | Silver | Gold | Platinum.

(** models/Customer.js, the fields the engine reads and writes. *)
Record customer := Customer {
  customerId : string;              (* _id *)
  customerKind : customerType;      (* type *)
  whatsappPreference : bool;        (* contactPreferences.whatsapp *)
  customerSegments : list string;   (* segments *)
  loyalty : option loyaltyTier;     (* loyalty.tier *)
  totalSpent : Q;                   (* metrics.totalSpent *)
  lastPurchaseDate : option Z       (* metrics.lastPurchaseDate *)
}.

(** models/Order.js *)
Record order := Order {
  orderId : string;                 (* _id *)
  orderCustomer : string;           (* customer *)
  orderTotal : Q;                   (* total *)
  orderItems : nat;                 (* items.length *)
  orderCreatedAt : Z                (* createdAt *)
}.

Inductive cartStatus := Active | Abandoned | Converted | Expired.
Inductive attemptResponse := RNone | ROpened | RClicked | RConverted.

Record cartItem := CartItem {
  itemProduct : string;
  itemQuantity : Z;
  itemPrice : Q
}.

(** An element of [recoveryAttempts]. *)
Record recoveryAttempt := RecoveryAttempt {
  attemptId : string;                   (* _id *)
  attemptType : string;                 (* type *)
  attemptTemplate : string;             (* templateId *)
  attemptSentAt : Z;                    (* sentAt *)
  attemptResponseOf : attemptResponse   (* response *)
}.

(** models/Cart.js *)
Record cart := Cart {
  cartId : string;                      (* _id *)
  cartCustomer : string;                (* customer *)
  cartItems : list cartItem;            (* items *)
  cartStatusOf : cartStatus;            (* status *)
  totalValue : Q;
  lastActivity : Z;
  abandonedAt : option Z;
  recoveryAttempts : list recoveryAttempt
}.

(** models/MessageTemplate.js, the fields selectTemplates queries. *)
Record messageTemplate := MessageTemplate {
  templateId : string;
  templateCategory : string;
  templateChannels : list string;
  templateStyle : option string;          (* metadata.style *)
  templateDiscountOffer : option string   (* metadata.discountOffer *)
}.

(** The member of the [sales:realtime] sorted set. *)
Record saleEvent := SaleEvent {
  eventOrderId : string;
  eventAmount : Q;
  eventCustomerId : string;
  eventItems : nat;
  eventTimestamp : Z
}.

Record strategy := Strategy {
  strategyTiming : option string;
  strategyMessageStyle : option string;
  strategyDiscountOffer : option string;
  strategyChannels : list string
}.

Record attempt := Attempt {
  scheduledFor : Z;
  attemptChannels : list string;
  attemptTemplates : gmap string string
}.

Record recoveryPlan := RecoveryPlan {
  planCartId : string;
  planCustomerId : string;
  planStrategy : strategy;
  planAttempts : list attempt
}.

(** What a Redis string key holds, decoded. *)
Inductive rvalue :=
| VStr (s : string)
| VInt (n : Z)
| VLabels (labels : list string)
| VPlan (plan : recoveryPlan).

Record entry := Entry { entryValue : rvalue; expiresAt : option Z }.

(** A pending [setTimeout]. *)
Record timer := Timer {
  timerDue : Z;
  timerCart : string;
  timerAttempt : attempt
}.

Record world := World {
  clock : Z;                                   (* Date.now() *)
  randomDraws : nat -> Q;                      (* Math.random() *)
  randomIndex : nat;
  redisStrings : gmap string entry;
  redisZsets : gmap string (list (Z * saleEvent));
  redisHashes : gmap string (gmap string Z);
  dbCustomers : gmap string customer;
  dbCarts : list cart;
  dbOrders : list order;
  dbMessages : list string;                    (* customer of each Message *)
  dbTemplates : list messageTemplate;
  orderFault : option jsError;                 (* Order collection failing *)
  messageFault : option jsError;               (* Message collection failing *)
  timers : list timer;
  errorLog : list jsError                      (* logger.error *)
}.

Definition withRedisStrings (f : gmap string entry -> gmap string entry)
  (w : world) : world :=
  World (clock w) (randomDraws w) (randomIndex w) (f (redisStrings w))
    (redisZsets w) (redisHashes w) (dbCustomers w) (dbCarts w) (dbOrders w)
    (dbMessages w) (dbTemplates w) (orderFault w) (messageFault w)
    (timers w) (errorLog w).

Definition withRedisZsets
  (f : gmap string (list (Z * saleEvent)) -> gmap string (list (Z * saleEvent)))
  (w : world) : world :=
  World (clock w) (randomDraws w) (randomIndex w) (redisStrings w)
    (f (redisZsets w)) (redisHashes w) (dbCustomers w) (dbCarts w)
    (dbOrders w) (dbMessages w) (dbTemplates w) (orderFault w)
    (messageFault w) (timers w) (errorLog w).

Definition withRedisHashes
  (f : gmap string (gmap string Z) -> gmap string (gmap string Z))
  (w : world) : world :=
  World (clock w) (randomDraws w) (randomIndex w) (redisStrings w)
    (redisZsets w) (f (redisHashes w)) (dbCustomers w) (dbCarts w)
    (dbOrders w) (dbMessages w) (dbTemplates w) (orderFault w)
    (messageFault w) (timers w) (errorLog w).

Definition withCustomers
  (f : gmap string customer -> gmap string customer) (w : world) : world :=
  World (clock w) (randomDraws w) (randomIndex w) (redisStrings w)
    (redisZsets w) (redisHashes w) (f (dbCustomers w)) (dbCarts w)
    (dbOrders w) (dbMessages w) (dbTemplates w) (orderFault w)
    (messageFault w) (timers w) (errorLog w).

Definition withCarts (f : list cart -> list cart) (w : world) : world :=
  World (clock w) (randomDraws w) (randomIndex w) (redisStrings w)
    (redisZsets w) (redisHashes w) (dbCustomers w) (f (dbCarts w))
    (dbOrders w) (dbMessages w) (dbTemplates w) (orderFault w)
    (messageFault w) (timers w) (errorLog w).

Definition withRandomIndex (n : nat) (w : world) : world :=
  World (clock w) (randomDraws w) n (redisStrings w)
    (redisZsets w) (redisHashes w) (dbCustomers w) (dbCarts w)
    (dbOrders w) (dbMessages w) (dbTemplates w) (orderFault w)
    (messageFault w) (timers w) (errorLog w).

Definition withTimers (f : list timer -> list timer) (w : world) : world :=
  World (clock w) (randomDraws w) (randomIndex w) (redisStrings w)
    (redisZsets w) (redisHashes w) (dbCustomers w) (dbCarts w)
    (dbOrders w) (dbMessages w) (dbTemplates w) (orderFault w)
    (messageFault w) (f (timers w)) (errorLog w).

Definition withErrorLog (f : list jsError -> list jsError) (w : world)
  : world :=
  World (clock w) (randomDraws w) (randomIndex w) (redisStrings w)
    (redisZsets w) (redisHashes w) (dbCustomers w) (dbCarts w)
    (dbOrders w) (dbMessages w) (dbTemplates w) (orderFault w)
    (messageFault w) (timers w) (f (errorLog w)).

(** Time passing between two operations: only the clock moves. *)
Definition withClock (t : Z) (w : world) : world :=
  World t (randomDraws w) (randomIndex w) (redisStrings w)
    (redisZsets w) (redisHashes w) (dbCustomers w) (dbCarts w)
    (dbOrders w) (dbMessages w) (dbTemplates w) (orderFault w)
    (messageFault w) (timers w) (errorLog w).

End Model.

Import Model.

(* ===================================================================== *)
(** ** The monad of asynchronous, failing, stateful code *)
(* ===================================================================== *)

Definition M (A : Type) : Type := world -> result A * world.

Definition ret {A} (a : A) : M A := fun w => (Ok a, w).

Definition bind {A B} (m : M A) (k : A -> M B) : M B :=
  fun w =>
    match m w with
    | (Ok a, w') => k a w'
    | (Throw e, w') => (Throw e, w')
    end.

Definition throw {A} (e : jsError) : M A := fun w => (Throw e, w).

(** [try { body } catch (error) { handler }] *)
Definition tryCatch {A} (body : M A) (handler : jsError -> M A) : M A :=
  fun w =>
    match body w with
    | (Ok a, w') => (Ok a, w')
    | (Throw e, w') => handler e w'
    end.

Definition gets {A} (f : world -> A) : M A := fun w => (Ok (f w), w).
Definition modify (f : world -> world) : M unit := fun w => (Ok tt, f w).

Notation "x <~ m ;; k" := (bind m (fun x => k))
  (at level 20, m at level 99, k at level 200, format "x  <~  m  ;;  '/' k").
Notation "m ;;; k" := (bind m (fun _ => k))
  (at level 100, k at level 200, right associativity).

(** [for (const x of xs) { body x }] *)
Fixpoint forEach {A} (xs : list A) (body : A -> M unit) : M unit :=
  match xs with
  | [] => ret tt
  | x :: rest => body x ;;; forEach rest body
  end.

Definition dateNow : M Z := gets clock.

Definition mathRandom : M Q :=
  fun w => (Ok (randomDraws w (randomIndex w)),
            withRandomIndex (S (randomIndex w)) w).

Definition loggerError (e : jsError) : M unit :=
  modify (withErrorLog (fun l => (l ++ [e])%list)).

(* ===================================================================== *)
(** ** Cache adapter (services/redis.js as the services use it) *)
(* ===================================================================== *)

Module Redis.

Definition live (now : Z) (e : entry) : bool :=
  match expiresAt e with
  | None => true
  | Some t => now <? t
  end.

Definition lookupLive (w : world) (key : string) : option rvalue :=
  match redisStrings w !! key with
  | Some e => if live (clock w) e then Some (entryValue e) else None
  | None => None
  end.

Definition get (key : string) : M (option rvalue) :=
  gets (fun w => lookupLive w key).

Definition set (key : string) (v : rvalue) : M unit :=
  modify (withRedisStrings (insert key (Entry v None))).

Definition setex (key : string) (ttlSeconds : Z) (v : rvalue) : M unit :=
  fun w =>
    (Ok tt,
     withRedisStrings
       (insert key (Entry v (Some (clock w + ttlSeconds * 1000)))) w).

Definition del (key : string) : M unit :=
  modify (withRedisStrings (delete key)).

Definition notAnInteger : jsError :=
  JsError "ReplyError" "ERR value is not an integer or out of range".

Definition incrBy (key : string) (delta : Z) : M Z :=
  fun w =>
    match redisStrings w !! key with
    | Some e =>
        if live (clock w) e then
          match entryValue e with
          | VInt n =>
              (Ok (n + delta),
               withRedisStrings
                 (insert key (Entry (VInt (n + delta)) (expiresAt e))) w)
          | _ => (Throw notAnInteger, w)
          end
        else
          (Ok delta,
           withRedisStrings (insert key (Entry (VInt delta) None)) w)
    | None =>
        (Ok delta,
         withRedisStrings (insert key (Entry (VInt delta) None)) w)
    end.

Definition incr (key : string) : M Z := incrBy key 1.

Definition hincrby (key field : string) (delta : Z) : M Z :=
  fun w =>
    let h := default ∅ (redisHashes w !! key) in
    let n := default 0 (h !! field) + delta in
    (Ok n, withRedisHashes (insert key (<[field := n]> h)) w).

(** Two members are the same string when they encode the same event. *)
Definition sameMember (a b : saleEvent) : bool :=
  bool_decide (eventOrderId a = eventOrderId b)
  && Qeq_bool (eventAmount a) (eventAmount b)
  && bool_decide (eventCustomerId a = eventCustomerId b)
  && bool_decide (eventItems a = eventItems b)
  && bool_decide (eventTimestamp a = eventTimestamp b).

Fixpoint insertByScore (score : Z) (member : saleEvent)
  (zs : list (Z * saleEvent)) : list (Z * saleEvent) :=
  match zs with
  | [] => [(score, member)]
  | (s, m) :: rest =>
      if score <? s then (score, member) :: (s, m) :: rest
      else (s, m) :: insertByScore score member rest
  end.

(** ZADD: a member already present only has its score moved. *)
Definition zadd (key : string) (score : Z) (member : saleEvent) : M unit :=
  modify (withRedisZsets (fun zsets =>
    let zs := default [] (zsets !! key) in
    let others := List.filter (fun sm => negb (sameMember (snd sm) member)) zs in
    <[key := insertByScore score member others]> zsets)).

Definition inRange (lo hi : Z) (sm : Z * saleEvent) : bool :=
  (lo <=? fst sm) && (fst sm <=? hi).

Definition zremrangebyscore (key : string) (lo hi : Z) : M unit :=
  modify (withRedisZsets (fun zsets =>
    match zsets !! key with
    | Some zs => <[key := List.filter (fun sm => negb (inRange lo hi sm)) zs]> zsets
    | None => zsets
    end)).

Definition zrangebyscore (key : string) (lo hi : Z) : M (list saleEvent) :=
  gets (fun w =>
    map snd (List.filter (inRange lo hi) (default [] (redisZsets w !! key)))).

End Redis.

(** A key read back with a kind of value none of its writers stores. *)
Definition unexpectedValue : jsError :=
  JsError "TypeError" "unexpected kind of cached value".

(** JavaScript truthiness of what [redis.get] resolved to: [null] and the
    empty string are falsy. *)
Definition truthy (v : option rvalue) : bool :=
  match v with
  | None | Some (VStr "") => false
  | Some _ => true
  end.

(* ===================================================================== *)
(** ** Cart (models/Cart.js) *)
(* ===================================================================== *)

Module CartModel.

Definition setStatus (s : cartStatus) (c : cart) : cart :=
  Cart (cartId c) (cartCustomer c) (cartItems c) s (totalValue c)
    (lastActivity c) (abandonedAt c) (recoveryAttempts c).

Definition setTotalValue (v : Q) (c : cart) : cart :=
  Cart (cartId c) (cartCustomer c) (cartItems c) (cartStatusOf c) v
    (lastActivity c) (abandonedAt c) (recoveryAttempts c).

Definition setLastActivity (t : Z) (c : cart) : cart :=
  Cart (cartId c) (cartCustomer c) (cartItems c) (cartStatusOf c)
    (totalValue c) t (abandonedAt c) (recoveryAttempts c).

Definition setAbandonedAt (t : option Z) (c : cart) : cart :=
  Cart (cartId c) (cartCustomer c) (cartItems c) (cartStatusOf c)
    (totalValue c) (lastActivity c) t (recoveryAttempts c).

Definition setRecoveryAttempts (l : list recoveryAttempt) (c : cart) : cart :=
  Cart (cartId c) (cartCustomer c) (cartItems c) (cartStatusOf c)
    (totalValue c) (lastActivity c) (abandonedAt c) l.

(** [cartSchema.pre('save')] *)
Definition preSave (c : cart) : cart :=
  setTotalValue
    (foldl (fun total item =>
              Qplus total (Qmult (itemPrice item) (inject_Z (itemQuantity item))))
           (0%Q) (cartItems c))
    c.

(** Writing a document to the collection: replace it where its [_id] is,
    insert it when the collection has none. *)
Fixpoint store (c : cart) (carts : list cart) : list cart :=
  match carts with
  | [] => [c]
  | c' :: rest =>
      if String.eqb (cartId c') (cartId c) then c :: rest
      else c' :: store c rest
  end.

Definition findById (id : string) (carts : list cart) : option cart :=
  List.find (fun c => String.eqb (cartId c) id) carts.

(** The schema's enum on [recoveryAttempts.type]. *)
Definition attemptTypes : list string := ["email"; "whatsapp"; "sms"].

(** What the validators say of the item at index [i]: [quantity] has
    [min: 1]. *)
Definition quantityError (i : nat) (item : cartItem) : option string :=
  if 1 <=? itemQuantity item then None
  else Some ("items." +:+ pretty i +:+ ".quantity: Path `quantity` ("
             +:+ pretty (itemQuantity item)
             +:+ ") is less than minimum allowed value (1).").

(** What the validators say of the logged attempt at index [i]: [type] is
    required and has an enum. *)
Definition typeError (i : nat) (a : recoveryAttempt) : option string :=
  if bool_decide (attemptType a ∈ attemptTypes) then None
  else if String.eqb (attemptType a) ""
  then Some ("recoveryAttempts." +:+ pretty i +:+ ".type: Path `type` is required.")
  else Some ("recoveryAttempts." +:+ pretty i +:+ ".type: `" +:+ attemptType a
             +:+ "` is not a valid enum value for path `type`.").

(** The failures validation collects, the items before the attempts, each
    array in index order. *)
Definition validationErrors (c : cart) : list string :=
  omap (fun e => e) (imap quantityError (cartItems c))
  ++ omap (fun e => e) (imap typeError (recoveryAttempts c)).

(** The document passes validation: every line, changed or not, has a
    quantity of at least 1, and every logged attempt a type of the enum. *)
Definition validates (c : cart) : bool :=
  forallb (fun item => 1 <=? itemQuantity item) (cartItems c)
  && forallb (fun a => bool_decide (attemptType a ∈ attemptTypes))
       (recoveryAttempts c).

(** Mongoose's ValidationError for the model Cart. *)
Definition validationError (c : cart) : jsError :=
  JsError "ValidationError"
    ("Cart validation failed: " +:+ String.concat ", " (validationErrors c)).

(** [await this.save()]: the document is validated, and refused without
    anything being written when it fails; otherwise the hook runs, the
    document is written, and the in-memory document carries the recomputed
    total. *)
Definition save (c : cart) : M cart :=
  if validates c then
    let c' := preSave c in
    modify (withCarts (store c')) ;;; ret c'
  else throw (validationError c).

Definition abandon (c : cart) : M cart :=
  match cartStatusOf c with
  | Active =>
      now <~ dateNow ;;
      save (setAbandonedAt (Some now) (setStatus Abandoned c))
  | _ => ret c
  end.

Definition recover (c : cart) : M cart :=
  match cartStatusOf c with
  | Abandoned =>
      now <~ dateNow ;;
      save (setLastActivity now (setAbandonedAt None (setStatus Active c)))
  | _ => ret c
  end.

Definition convert (c : cart) : M cart :=
  save (setStatus Converted c).

Definition expire (c : cart) : M cart :=
  save (setStatus Expired c).

(** The [_id] Mongoose gives the pushed subdocument is an argument. *)
Definition logRecoveryAttempt (newId type templateId : string) (c : cart)
  : M cart :=
  now <~ dateNow ;;
  save (setRecoveryAttempts
          (recoveryAttempts c ++ [RecoveryAttempt newId type templateId now RNone])%list
          c).

Definition setResponse (r : attemptResponse) (a : recoveryAttempt)
  : recoveryAttempt :=
  RecoveryAttempt (attemptId a) (attemptType a) (attemptTemplate a)
    (attemptSentAt a) r.

(** [attempt.response = response] on the first subdocument with that id. *)
Fixpoint respond (id : string) (r : attemptResponse)
  (l : list recoveryAttempt) : list recoveryAttempt :=
  match l with
  | [] => []
  | a :: rest =>
      if String.eqb (attemptId a) id then setResponse r a :: rest
      else a :: respond id r rest
  end.

Definition updateRecoveryResponse (id : string) (response : attemptResponse)
  (c : cart) : M cart :=
  match List.find (fun a => String.eqb (attemptId a) id) (recoveryAttempts c) with
  | Some _ =>
      let c1 := setRecoveryAttempts (respond id response (recoveryAttempts c)) c in
      let c2 := match response with
                | RConverted => setStatus Converted c1
                | _ => c1
                end in
      save c2
  | None => ret c
  end.

(** The operations that may move a cart's status. *)
Inductive operation :=
| OpAbandon
| OpRecover
| OpConvert
| OpExpire
| OpUpdateRecoveryResponse (id : string) (response : attemptResponse).

Definition perform (op : operation) (c : cart) : M cart :=
  match op with
  | OpAbandon => abandon c
  | OpRecover => recover c
  | OpConvert => convert c
  | OpExpire => expire c
  | OpUpdateRecoveryResponse id response => updateRecoveryResponse id response c
  end.

(** The state machine as the specification draws it:
    active -> abandoned -> converted | expired, abandoned -> active,
    and any -> expired. *)
Inductive specTransition : cartStatus -> cartStatus -> Prop :=
| SpecAbandon : specTransition Active Abandoned
| SpecRecover : specTransition Abandoned Active
| SpecConvert : specTransition Abandoned Converted
| SpecExpire s : specTransition s Expired.

(** The state machine the methods implement: conversion, like expiry, is
    open from every status. *)
Inductive codeTransition : cartStatus -> cartStatus -> Prop :=
| CodeAbandon : codeTransition Active Abandoned
| CodeRecover : codeTransition Abandoned Active
| CodeConvert s : codeTransition s Converted
| CodeExpire s : codeTransition s Expired.

End CartModel.

(* ===================================================================== *)
(** ** Segmentation engine (SegmentationEngine) *)
(* ===================================================================== *)

Module Segmentation.

Definition CACHE_TTL : Z := 3600.

Definition rule : Type := customer -> M (list string).

(** [this.segmentationRules], a Map in insertion order. *)
Definition registry : Type := list (string * rule).

(** [Map.prototype.set]: an existing name keeps its place. *)
Fixpoint addRule (name : string) (ruleFn : rule) (rules : registry)
  : registry :=
  match rules with
  | [] => [(name, ruleFn)]
  | (n, f) :: rest =>
      if String.eqb n name then (n, ruleFn) :: rest
      else (n, f) :: addRule name ruleFn rest
  end.

(** [Order.find({ customer })] *)
Definition orderFind (customerId : string) : M (list order) :=
  fun w =>
    match orderFault w with
    | Some e => (Throw e, w)
    | None =>
        (Ok (List.filter
               (fun o => String.eqb (orderCustomer o) customerId)
               (dbOrders w)), w)
    end.

(** [mongoose.model('Message').countDocuments({ customer })] *)
Definition countMessages (customerId : string) : M Z :=
  fun w =>
    match messageFault w with
    | Some e => (Throw e, w)
    | None =>
        (Ok (Z.of_nat (length (List.filter (String.eqb customerId) (dbMessages w)))),
         w)
    end.

Definition msPerDay : Z := 1000 * 60 * 60 * 24.

(** [Math.floor((Date.now() - date) / msPerDay)] *)
Definition daysSince (now date : Z) : Z := (now - date) / msPerDay.

Definition purchaseFrequencyRule : rule := fun customer =>
  orders <~ orderFind (customerId customer) ;;
  match orders with
  | [] => ret ["new_customer"]
  | firstOrder :: _ =>
      now <~ dateNow ;;
      let daysSinceFirstPurchase := daysSince now (orderCreatedAt firstOrder) in
      let purchaseFrequency :=
        div (ofZ (Z.of_nat (length orders))) (ofZ daysSinceFirstPurchase) in
      if geb purchaseFrequency (5 # 10) then ret ["frequent_buyer"]
      else if geb purchaseFrequency (2 # 10) then ret ["regular_customer"]
      else ret ["occasional_buyer"]
  end.

Definition spendingLevelRule : rule := fun customer =>
  let totalSpent := totalSpent customer in
  if Qle_bool 10000 totalSpent then ret ["high_value"]
  else if Qle_bool 5000 totalSpent then ret ["medium_value"]
  else ret ["low_value"].

Definition messageCountKey (customerId : string) : string :=
  "customer:" +:+ customerId +:+ ":messageCount".

Definition getCustomerMessageCount (customerId : string) : M Z :=
  let cacheKey := messageCountKey customerId in
  cachedCount <~ Redis.get cacheKey ;;
  if truthy cachedCount then
    match cachedCount with
    | Some (VInt n) => ret n
    | _ => throw unexpectedValue
    end
  else
    count <~ countMessages customerId ;;
    Redis.setex cacheKey CACHE_TTL (VInt count) ;;;
    ret count.

Definition engagementLevelRule : rule := fun customer =>
  messageCount <~ getCustomerMessageCount (customerId customer) ;;
  let tags :=
    if 50 <? messageCount then ["highly_engaged"]
    else if 20 <? messageCount then ["engaged"]
    else ["low_engagement"] in
  let tags :=
    if whatsappPreference customer then (tags ++ ["whatsapp_enabled"])%list
    else tags in
  ret tags.

Definition purchaseRecencyRule : rule := fun customer =>
  match lastPurchaseDate customer with
  | None => ret ["never_purchased"]
  | Some date =>
      now <~ dateNow ;;
      let daysSinceLastPurchase := daysSince now date in
      if daysSinceLastPurchase <=? 30 then ret ["active"]
      else if daysSinceLastPurchase <=? 90 then ret ["at_risk"]
      else ret ["inactive"]
  end.

(** [initializeDefaultRules] on the empty registry of the constructor. *)
Definition defaultRules : registry :=
  addRule "purchase_recency" purchaseRecencyRule
    (addRule "engagement_level" engagementLevelRule
       (addRule "spending_level" spendingLevelRule
          (addRule "purchase_frequency" purchaseFrequencyRule []))).

(** [Set.prototype.add]: insertion order, first occurrence kept. *)
Definition setAdd (segments : list string) (segment : string) : list string :=
  if bool_decide (segment ∈ segments) then segments
  else (segments ++ [segment])%list.

Definition tierName (t : loyaltyTier) : string :=
  match t with
  | Bronze => "bronze"
  | Silver => "silver"
  | Gold => "gold"
  | Platinum => "platinum"
  end.

Definition segmentsKey (customerId : string) : string :=
  "customer:" +:+ customerId +:+ ":segments".

(** The loop over [this.segmentationRules]. *)
Fixpoint applyRules (rules : registry) (customer : customer)
  (segments : list string) : M (list string) :=
  match rules with
  | [] => ret segments
  | (ruleName, ruleFn) :: rest =>
      ruleSegments <~ ruleFn customer ;;
      applyRules rest customer (foldl setAdd segments ruleSegments)
  end.

Definition segmentCustomer (rules : registry) (customer : customer)
  : M (list string) :=
  tryCatch
    (let cacheKey := segmentsKey (customerId customer) in
     cachedSegments <~ Redis.get cacheKey ;;
     if truthy cachedSegments then
       match cachedSegments with
       | Some (VLabels labels) => ret labels
       | _ => throw unexpectedValue
       end
     else
       segments <~ applyRules rules customer [] ;;
       let segments :=
         match customerKind customer with
         | Business => setAdd segments "business_account"
         | Individual => segments
         end in
       let segments :=
         match loyalty customer with
         | Some tier => setAdd segments ("loyalty_" +:+ tierName tier)
         | None => segments
         end in
       let segmentArray := segments in
       Redis.setex cacheKey CACHE_TTL (VLabels segmentArray) ;;;
       ret segmentArray)
    (fun error => loggerError error ;;; throw error).

Definition setSegments (l : list string) (c : customer) : customer :=
  Customer (customerId c) (customerKind c) (whatsappPreference c) l
    (loyalty c) (totalSpent c) (lastPurchaseDate c).

Definition customerFindById (id : string) : M (option customer) :=
  gets (fun w => dbCustomers w !! id).

Definition customerSave (c : customer) : M unit :=
  modify (withCustomers (insert (customerId c) c)).

Definition updateCustomerSegments (rules : registry) (customerId : string)
  : M (list string) :=
  tryCatch
    (found <~ customerFindById customerId ;;
     match found with
     | None => throw (JsError "Error" "Customer not found")
     | Some customer =>
         segments <~ segmentCustomer rules customer ;;
         let customer := setSegments segments customer in
         customerSave customer ;;;
         Redis.del (segmentsKey customerId) ;;;
         ret segments
     end)
    (fun error => loggerError error ;;; throw error).

End Segmentation.

(* ===================================================================== *)
(** ** Calendar date of a timestamp *)
(* ===================================================================== *)

(** [new Date(ms).toISOString().split('T')[0]] for years 0 to 9999: the
    proleptic Gregorian date, in UTC, of a millisecond timestamp. *)
Module IsoDate.

Definition civilFromDays (days : Z) : Z * Z * Z :=
  let z := days + 719468 in
  let era := z / 146097 in
  let doe := z - era * 146097 in
  let yoe := (doe - doe / 1460 + doe / 36524 - doe / 146096) / 365 in
  let doy := doe - (365 * yoe + yoe / 4 - yoe / 100) in
  let mp := (5 * doy + 2) / 153 in
  let d := doy - (153 * mp + 2) / 5 + 1 in
  let m := if mp <? 10 then mp + 3 else mp - 9 in
  let y := yoe + era * 400 in
  ((if m <=? 2 then y + 1 else y), m, d).

Definition pad2 (n : Z) : string :=
  if n <? 10 then "0" +:+ pretty n else pretty n.

Definition pad4 (n : Z) : string :=
  if n <? 10 then "000" +:+ pretty n
  else if n <? 100 then "00" +:+ pretty n
  else if n <? 1000 then "0" +:+ pretty n
  else pretty n.

Definition isoDate (ms : Z) : string :=
  let '(y, m, d) := civilFromDays (ms / 86400000) in
  pad4 y +:+ "-" +:+ pad2 m +:+ "-" +:+ pad2 d.

End IsoDate.

(* ===================================================================== *)
(** ** Real-time sales window (AnalyticsService) *)
(* ===================================================================== *)

Module Analytics.

Definition REAL_TIME_WINDOW : Z := 300.

Definition realtimeKey : string := "sales:realtime".

(** [order.customer] is a required reference: the guard on it passes
    whenever [order.customer.toString()] did. *)
Definition trackSaleEvent (order : order) : M unit :=
  tryCatch
    (timestamp <~ dateNow ;;
     let eventData :=
       SaleEvent (orderId order) (orderTotal order) (orderCustomer order)
         (orderItems order) timestamp in
     Redis.zadd realtimeKey timestamp eventData ;;;
     Redis.zremrangebyscore realtimeKey 0
       (timestamp - REAL_TIME_WINDOW * 1000) ;;;
     today <~ dateNow ;;
     let dateKey := IsoDate.isoDate today in
     Redis.hincrby ("sales:daily:" +:+ dateKey) "count" 1 ;;;
     Redis.hincrby ("sales:daily:" +:+ dateKey) "revenue"
       (Qfloor (orderTotal order)) ;;;
     customer <~ Segmentation.customerFindById (orderCustomer order) ;;
     match customer with
     | Some customer =>
         forEach (customerSegments customer) (fun segment =>
           Redis.hincrby ("sales:segments:" +:+ dateKey) segment 1 ;;; ret tt)
     | None => ret tt
     end)
    (fun error => loggerError error).

Record stats := Stats {
  totalSales : Z;
  totalRevenue : Q;
  salesPerMinute : Q;
  revenuePerMinute : Q;
  statOrders : list saleEvent
}.

(** The [events.forEach] accumulation. *)
Definition accumulate (events : list saleEvent) : Z * Q * list saleEvent :=
  foldl (fun '(sales, revenue, orders) data =>
           (sales + 1, Qplus revenue (eventAmount data), (orders ++ [data])%list))
        (0, 0%Q, []) events.

Definition getRealTimeSales : M stats :=
  tryCatch
    (endTime <~ dateNow ;;
     let startTime := endTime - REAL_TIME_WINDOW * 1000 in
     events <~ Redis.zrangebyscore realtimeKey startTime endTime ;;
     let '(sales, revenue, orders) := accumulate events in
     ret (Stats sales revenue
            (Qdiv (inject_Z sales) (inject_Z (REAL_TIME_WINDOW / 60)))
            (Qdiv revenue (inject_Z (REAL_TIME_WINDOW / 60)))
            orders))
    (fun error => loggerError error ;;; throw error).

End Analytics.

(* ===================================================================== *)
(** ** Cart recovery orchestrator (CartRecoveryService) *)
(* ===================================================================== *)

Module CartRecovery.

Definition ABANDONMENT_THRESHOLD : Z := 30 * 60 * 1000.

Record interval := Interval { hours : Z; channels : list string }.

Definition RECOVERY_INTERVALS : list interval :=
  [ Interval 1 ["whatsapp"];
    Interval 24 ["email"; "whatsapp"];
    Interval 72 ["email"] ].

Record abTest := ABTest {
  variants : list string;
  distribution : list Q;
  active : bool
}.

(** [this.abTests] after [initializeABTests], in insertion order. *)
Definition abTests : list (string * abTest) :=
  [ ("message_style",
     ABTest ["persuasive"; "informative"; "urgent"]
       [33 # 100; 33 # 100; 34 # 100]%Q true);
    ("discount_offer",
     ABTest ["none"; "10_percent"; "20_percent"]
       [33 # 100; 33 # 100; 34 # 100]%Q true);
    ("timing", ABTest ["immediate"; "delayed"] [5 # 10; 5 # 10]%Q true) ].

Definition abTestsGet (testName : string) : option abTest :=
  snd <$> List.find (fun nt => String.eqb (fst nt) testName) abTests.

(** The loop of selectVariant from index [i] on; a missing weight makes
    the running sum NaN, which no draw is below. *)
Fixpoint selectFrom (random : Q) (cumulativeProbability : jsnum)
  (variants : list string) (distribution : list Q) : option string :=
  match variants with
  | [] => None
  | v :: rest =>
      let cumulativeProbability :=
        match cumulativeProbability, distribution with
        | Fin c, d :: _ => Fin (Qplus c d)
        | _, _ => NaN
        end in
      if (match cumulativeProbability with
          | Fin c => Qle_bool random c
          | _ => false
          end)
      then Some v
      else selectFrom random cumulativeProbability rest (tail distribution)
  end.

(** [undefined] when there is no variant at all. *)
Definition selectVariant (variants : list string) (distribution : list Q)
  : M (option string) :=
  random <~ mathRandom ;;
  match selectFrom random (Fin 0) variants distribution with
  | Some v => ret (Some v)
  | None => ret (last variants)
  end.

Definition assignmentKey (testName customerId : string) : string :=
  "abtest:" +:+ testName +:+ ":" +:+ customerId.

(** [null] when the test is unknown or inactive. *)
Definition assignABTestVariant (testName customerId : string)
  : M (option string) :=
  match abTestsGet testName with
  | None => ret None
  | Some test =>
      if negb (active test) then ret None
      else
        let cacheKey := assignmentKey testName customerId in
        variant <~ Redis.get cacheKey ;;
        if negb (truthy variant) then
          selected <~ selectVariant (variants test) (distribution test) ;;
          match selected with
          | Some v => Redis.set cacheKey (VStr v) ;;; ret (Some v)
          | None => throw (JsError "TypeError" "Invalid argument type")
          end
        else
          match variant with
          | Some (VStr v) => ret (Some v)
          | _ => throw unexpectedValue
          end
  end.

Definition includes (x : string) (l : list string) : bool :=
  bool_decide (x ∈ l).

(** [cart] is the populated document: [customer] is [cart.customer]. *)
Definition determineRecoveryStrategy (cart : cart) (customer : customer)
  (segments : list string) : M strategy :=
  timing <~ assignABTestVariant "timing" (customerId customer) ;;
  messageStyle <~ assignABTestVariant "message_style" (customerId customer) ;;
  discountOffer <~ assignABTestVariant "discount_offer" (customerId customer) ;;
  let channels :=
    if includes "high_value" segments then ["whatsapp"; "email"]
    else if negb (Qle_bool (totalValue cart) 1000) then ["whatsapp"; "email"]
    else ["email"] in
  let channels :=
    if negb (whatsappPreference customer)
    then List.filter (fun c => negb (String.eqb c "whatsapp")) channels
    else channels in
  ret (Strategy timing messageStyle discountOffer channels).

(** [MessageTemplate.findOne] with the four conditions of
    selectTemplates. *)
Definition templateFindOne (channel : string) (style discount : option string)
  : M (option messageTemplate) :=
  gets (fun w =>
    List.find (fun t =>
                 String.eqb (templateCategory t) "cart_recovery"
                 && includes channel (templateChannels t)
                 && bool_decide (templateStyle t = style)
                 && bool_decide (templateDiscountOffer t = discount))
              (dbTemplates w)).

Fixpoint selectTemplatesLoop (strategy : strategy) (channels : list string)
  (templates : gmap string string) : M (gmap string string) :=
  match channels with
  | [] => ret templates
  | channel :: rest =>
      template <~ templateFindOne channel (strategyMessageStyle strategy)
                    (strategyDiscountOffer strategy) ;;
      selectTemplatesLoop strategy rest
        match template with
        | Some t => <[channel := templateId t]> templates
        | None => templates
        end
  end.

Definition selectTemplates (cart : cart) (strategy : strategy)
  (channels : list string) : M (gmap string string) :=
  selectTemplatesLoop strategy channels ∅.

Fixpoint planAttemptsLoop (cart : cart) (strategy : strategy)
  (intervals : list interval) (attempts : list attempt) : M (list attempt) :=
  match intervals with
  | [] => ret attempts
  | interval :: rest =>
      let channels :=
        List.filter (fun c => includes c (strategyChannels strategy))
          (channels interval) in
      if 0 <? Z.of_nat (length channels) then
        now <~ dateNow ;;
        templates <~ selectTemplates cart strategy channels ;;
        planAttemptsLoop cart strategy rest
          (attempts ++
             [Attempt (now + hours interval * 60 * 60 * 1000) channels templates])%list
      else planAttemptsLoop cart strategy rest attempts
  end.

Definition createRecoveryPlan (cart : cart) (customer : customer)
  (strategy : strategy) : M recoveryPlan :=
  attempts <~ planAttemptsLoop cart strategy RECOVERY_INTERVALS [] ;;
  ret (RecoveryPlan (cartId cart) (customerId customer) strategy attempts).

Definition planKey (cartId : string) : string :=
  "cart:" +:+ cartId +:+ ":recovery_plan".

(** [attempt] is [undefined] when the plan has no attempt. *)
Definition scheduleRecoveryAttempt (cart : cart) (attempt : option attempt)
  : M unit :=
  match attempt with
  | None =>
      throw (JsError "TypeError" "Cannot read properties of undefined (reading 'scheduledFor')")
  | Some attempt =>
      now <~ dateNow ;;
      let delay := scheduledFor attempt - now in
      modify (withTimers (fun ts =>
        (ts ++ [Timer (now + Z.max 0 delay) (cartId cart) attempt])%list))
  end.

Definition initializeRecoveryWorkflow (cart : cart) (customer : customer)
  (strategy : strategy) : M unit :=
  tryCatch
    (recoveryPlan <~ createRecoveryPlan cart customer strategy ;;
     Redis.setex (planKey (cartId cart)) (7 * 24 * 60 * 60) (VPlan recoveryPlan) ;;;
     scheduleRecoveryAttempt cart (head (planAttempts recoveryPlan)))
    (fun error => loggerError error).

Definition logAbandonment (cart : cart) : M unit :=
  tryCatch
    (Redis.incr "stats:abandonments:total" ;;;
     Redis.incrBy "stats:abandonments:value" (Qfloor (totalValue cart)) ;;;
     today <~ dateNow ;;
     let key := "stats:abandonments:" +:+ IsoDate.isoDate today in
     Redis.incr key ;;; ret tt)
    (fun error => loggerError error).

Definition nullCustomer : jsError :=
  JsError "TypeError" "Cannot read properties of null (reading '_id')".

(** The cart comes populated; [customer] is [null] when the reference
    resolves to no document, and segmentCustomer then faults on it. *)
Definition processAbandonedCart (rules : Segmentation.registry)
  (populated : cart * option customer) : M unit :=
  let '(cart, customer) := populated in
  tryCatch
    (cart <~ CartModel.abandon cart ;;
     match customer with
     | None => loggerError nullCustomer ;;; throw nullCustomer
     | Some customer =>
         segments <~ Segmentation.segmentCustomer rules customer ;;
         strategy <~ determineRecoveryStrategy cart customer segments ;;
         initializeRecoveryWorkflow cart customer strategy ;;;
         logAbandonment cart
     end)
    (fun error => loggerError error).

(** The filter of the detection query. *)
Definition potentiallyAbandoned (threshold : Z) (c : cart) : bool :=
  match cartStatusOf c with Active => true | _ => false end
  && (lastActivity c <? threshold)
  && negb (match cartItems c with [] => true | _ => false end).

(** [Cart.find(...).populate('customer')] *)
Definition findPotentiallyAbandoned (threshold : Z)
  : M (list (cart * option customer)) :=
  gets (fun w =>
    map (fun c => (c, dbCustomers w !! cartCustomer c))
        (List.filter (potentiallyAbandoned threshold) (dbCarts w))).

Definition detectAbandonedCarts (rules : Segmentation.registry) : M unit :=
  tryCatch
    (now <~ dateNow ;;
     let threshold := now - ABANDONMENT_THRESHOLD in
     potentiallyAbandonedCarts <~ findPotentiallyAbandoned threshold ;;
     forEach potentiallyAbandonedCarts (processAbandonedCart rules))
    (fun error => loggerError error).

(** [Number(x)] of what [redis.get] resolved to. *)
Definition toNumber (v : option rvalue) : jsnum :=
  match v with
  | None | Some (VStr "") => Fin 0
  | Some (VInt n) => ofZ n
  | Some _ => NaN
  end.

Record testResult := TestResult {
  resultVariant : string;
  conversionRate : jsnum
}.

Definition conversionsKey (testName variant : string) : string :=
  "abtest:" +:+ testName +:+ ":" +:+ variant +:+ ":conversions".

Definition impressionsKey (testName variant : string) : string :=
  "abtest:" +:+ testName +:+ ":" +:+ variant +:+ ":impressions".

Fixpoint updateABTestLoop (tests : list (string * abTest)) (customerId : string)
  (testResults : list (string * testResult)) : M (list (string * testResult)) :=
  match tests with
  | [] => ret testResults
  | (testName, test) :: rest =>
      variant <~ assignABTestVariant testName customerId ;;
      match variant with
      | Some (String _ _ as variant) =>
          let resultKey := conversionsKey testName variant in
          Redis.incr resultKey ;;;
          let impressionKey := impressionsKey testName variant in
          conversions <~ Redis.get resultKey ;;
          impressions <~ Redis.get impressionKey ;;
          updateABTestLoop rest customerId
            (if truthy impressions then
               (testResults ++
                  [(testName,
                    TestResult variant
                      (mul (div (toNumber conversions) (toNumber impressions))
                           (Fin 100)))])%list
             else testResults)
      | _ => updateABTestLoop rest customerId testResults
      end
  end.

(** [undefined] when an error was caught. *)
Definition updateABTestResults (cart : cart)
  : M (option (list (string * testResult))) :=
  tryCatch
    (testResults <~ updateABTestLoop abTests (cartCustomer cart) [] ;;
     ret (Some testResults))
    (fun error => loggerError error ;;; ret None).

Definition cartFindById (id : string) : M (option cart) :=
  gets (fun w => CartModel.findById id (dbCarts w)).

Definition trackRecoveryAttemptResponse (cartId attemptId : string)
  (response : attemptResponse) : M unit :=
  tryCatch
    (found <~ cartFindById cartId ;;
     match found with
     | None => ret tt
     | Some cart =>
         cart <~ CartModel.updateRecoveryResponse attemptId response cart ;;
         match response with
         | RConverted => updateABTestResults cart ;;; ret tt
         | _ => ret tt
         end
     end)
    (fun error => loggerError error).

End CartRecovery.

(* ===================================================================== *)
(** ** Vocabulary of the properties *)
(* ===================================================================== *)

(** [m] leaves the observation [obs] of the world as it found it, whether it
    returns or throws. *)
Definition frames {X A} (obs : world -> X) (m : M A) : Prop :=
  forall w r w', m w = (r, w') -> obs w' = obs w.

(** An observation that cannot tell whether the Redis key [key] was
    written or deleted. *)
Definition keyBlind {X} (key : string) (obs : world -> X) : Prop :=
  forall w,
    (forall e, obs (withRedisStrings (insert key e) w) = obs w)
    /\ obs (withRedisStrings (delete key) w) = obs w.

(** Observations used below. *)
Definition cachedAt (key : string) (w : world) : option entry :=
  redisStrings w !! key.

Definition timersOf (cartId : string) (w : world) : list timer :=
  List.filter (fun t => String.eqb (timerCart t) cartId) (timers w).

Definition cartAt (id : string) (w : world) : option cart :=
  CartModel.findById id (dbCarts w).

(** What an operation run at time [t] leaves behind. *)
Definition stateAfter {A} (t : Z) (m : M A) (w : world) : world :=
  snd (m (withClock t w)).

Module Spec.

(** The allowed-channel set in the words of the specification. *)
Definition allowedChannels (segments : list string) (totalValue : Q)
  (whatsappAllowed : bool) : list string :=
  let base :=
    if bool_decide ("high_value" ∈ segments) || negb (Qle_bool totalValue 1000)
    then ["whatsapp"; "email"] else ["email"] in
  if whatsappAllowed then base
  else list_difference base ["whatsapp"].

(** The attempt an interval gives rise to, if any: its due time and the
    intersection of its default channels with the allowed ones. *)
Definition attemptOf (now : Z) (allowed : list string)
  (i : CartRecovery.interval) : option (Z * list string) :=
  match list_intersection (CartRecovery.channels i) allowed with
  | [] => None
  | common => Some (now + CartRecovery.hours i * 3600000, common)
  end.

(** The rules evaluated one after the other, each in the world its
    predecessor left, all of them returning. *)
Inductive rulesReturn (customer : customer)
  : Segmentation.registry -> world -> list (list string) -> world -> Prop :=
| RulesNil w : rulesReturn customer [] w [] w
| RulesCons name ruleFn rest w labels w1 outputs w2 :
    ruleFn customer w = (Ok labels, w1) ->
    rulesReturn customer rest w1 outputs w2 ->
    rulesReturn customer ((name, ruleFn) :: rest) w (labels :: outputs) w2.

(** The label of a loyalty tier, spelled out. *)
Definition loyaltyLabel (tier : loyaltyTier) : string :=
  match tier with
  | Bronze => "loyalty_bronze"
  | Silver => "loyalty_silver"
  | Gold => "loyalty_gold"
  | Platinum => "loyalty_platinum"
  end.

(** The two derived labels. *)
Definition derivedLabels (c : customer) : list string :=
  (match customerKind c with Business => ["business_account"] | Individual => [] end)
  ++ (match loyalty c with
      | Some tier => [loyaltyLabel tier]
      | None => []
      end).

(** Deduplication keeping first occurrences. *)
Fixpoint dedup (seen : list string) (l : list string) : list string :=
  match l with
  | [] => []
  | x :: rest =>
      if bool_decide (x ∈ seen) then dedup seen rest
      else x :: dedup (seen ++ [x]) rest
  end.

(** The sale event [trackSaleEvent] records for [order] at time [t]. *)
Definition eventOf (order : order) (t : Z) : saleEvent :=
  SaleEvent (orderId order) (orderTotal order) (orderCustomer order)
    (orderItems order) t.

Definition ingestAt (w : world) (timed : Z * order) : world :=
  stateAfter (fst timed) (Analytics.trackSaleEvent (snd timed)) w.

Definition window (w : world) : list (Z * saleEvent) :=
  default [] (redisZsets w !! Analytics.realtimeKey).

(** Every entry of the window was scored by its own timestamp. *)
Definition scoredByTimestamp (w : world) : Prop :=
  Forall (fun sm => fst sm = eventTimestamp (snd sm)) (window w).

Definition sumAmounts (events : list saleEvent) : Q :=
  foldl Qplus 0%Q (map eventAmount events).

(** A cached experiment assignment is a variant name, when there is one. *)
Definition variantOrAbsent (v : option rvalue) : Prop :=
  match v with
  | None | Some (VStr _) => True
  | Some _ => False
  end.

End Spec.

(* ===================================================================== *)
(** ** Concrete customers, carts and worlds *)
(* ===================================================================== *)

(** A customer whose only order is under three hours old. *)
Definition firstDayWorld : world :=
  World 1700000000000 (fun _ => 0%Q) 0 ∅ ∅ ∅ ∅ []
    [Order "o1" "c1" 120 2 1699990000000] [] [] None None [] [].

Definition firstDayCustomer : customer :=
  Customer "c1" Individual false [] (Some Bronze) 120 (Some 1699990000000).

(** The claimed life cycle, for one operation on one cart: whatever status
    the operation leaves is the old one or a transition of the
    specification's machine. *)
Definition followsSpecMachine (op : CartModel.operation) (c : cart) (w : world)
  : Prop :=
  forall c' w',
    CartModel.perform op c w = (Ok c', w') ->
    cartStatusOf c' = cartStatusOf c
    \/ CartModel.specTransition (cartStatusOf c) (cartStatusOf c').

Definition emptyWorld : world :=
  World 1700000000000 (fun _ => (1 # 2)%Q) 0 ∅ ∅ ∅ ∅ [] [] [] [] None None [] [].

(** A cart still being filled, checked out directly. *)
Definition activeCart : cart :=
  Cart "cart1" "c1" [CartItem "p1" 2 600] Active 1200 1699999000000 None [].

(** A high-value customer who opted out of WhatsApp, and a cart over 1000. *)
Definition optedOutCustomer : customer :=
  Customer "c1" Individual false ["high_value"] (Some Gold) 15000
    (Some 1699990000000).

(** The claimed failure mode, for one classification: it fails with an
    error named ClassificationError and leaves the cached classification and
    the stored customers as they were. *)
Definition failsWithClassificationError (rules : Segmentation.registry)
  (customer : customer) (w : world) : Prop :=
  exists e w',
    Segmentation.segmentCustomer rules customer w = (Throw e, w')
    /\ errName e = "ClassificationError"
    /\ cachedAt (Segmentation.segmentsKey (customerId customer)) w'
       = cachedAt (Segmentation.segmentsKey (customerId customer)) w
    /\ dbCustomers w' = dbCustomers w.

(** A business customer with two old orders and a few messages. *)
Definition businessCustomer : customer :=
  Customer "c2" Business true ["low_value"] (Some Silver) 6200
    (Some 1697000000000).

Definition businessWorld : world :=
  World 1700000000000 (fun _ => (1 # 2)%Q) 0 ∅ ∅ ∅
    {["c2" := businessCustomer]} []
    [Order "o1" "c2" 3000 1 1690000000000; Order "o2" "c2" 3200 4 1697000000000]
    ["c2"; "c2"; "c1"] [] None None [] [].

(** The same store with the Order collection unreachable. *)
Definition networkError : jsError :=
  JsError "MongoNetworkError" "connection timed out".

Definition unreachableOrdersWorld : world :=
  World 1700000000000 (fun _ => (1 # 2)%Q) 0 ∅ ∅ ∅
    {["c2" := businessCustomer]} []
    [] ["c2"; "c2"; "c1"] [] (Some networkError) None [] [].

(** A customer who has since spent 20000, classified an hour ago at the
    latest as a new, low-value one; the classification is still cached. *)
Definition staleLabels : list string :=
  ["new_customer"; "low_value"; "low_engagement"; "never_purchased";
   "loyalty_bronze"].

Definition grownCustomer : customer :=
  Customer "c3" Individual false staleLabels (Some Gold) 20000
    (Some 1699990000000).

Definition staleCacheWorld : world :=
  World 1700000000000 (fun _ => (1 # 2)%Q) 0
    {[Segmentation.segmentsKey "c3"
      := Entry (VLabels staleLabels) (Some 1700001800000)]}
    ∅ ∅ {["c3" := grownCustomer]} []
    [Order "o7" "c3" 20000 3 1699990000000] [] [] None None [] [].

(** A cart of customer c1 whose logged attempt is answered. *)
Definition answeredCart : cart :=
  Cart "cart1" "c1" [CartItem "p1" 2 600] Abandoned 1200 1699999000000
    (Some 1699999900000)
    [RecoveryAttempt "a1" "email" "t1" 1699999950000 RNone].

(** The world in which some other writer had counted four impressions of
    the variant c1 is assigned in the timing experiment. *)
Definition countedImpressionsWorld : world :=
  withRedisStrings
    (insert (CartRecovery.impressionsKey "timing" "immediate")
       (Entry (VInt 4) None))
    emptyWorld.

(** The window [trackSaleEvent] leaves at time [t]: the member re-scored or
    added, then the scores from 0 to [t] minus the window removed. *)
Definition windowAfter (t : Z) (e : saleEvent) (zs : list (Z * saleEvent))
  : list (Z * saleEvent) :=
  List.filter
    (fun sm => negb (Redis.inRange 0 (t - Analytics.REAL_TIME_WINDOW * 1000) sm))
    (Redis.insertByScore t e
       (List.filter (fun sm => negb (Redis.sameMember (snd sm) e)) zs)).

(** The window holds, at score [t], the member that encodes [e]. *)
Definition presentAt (t : Z) (e : saleEvent) (w : world) : Prop :=
  exists m, (t, m) ∈ Spec.window w /\ Redis.sameMember e m = true.

Definition sampleOrder : order := Order "o1" "c1" 120 2 1699999000000.

(** An observation that cannot tell what classification, experiment
    assignment and the abandonment statistics write: Redis keys that are no
    cart's plan key, the error log and the position of the random
    generator. *)
Record blindToWrites {X} (obs : world -> X) : Prop := {
  blindToOtherKeys :
    forall k, (forall id, k <> CartRecovery.planKey id) -> keyBlind k obs;
  blindToLog : forall f w, obs (withErrorLog f w) = obs w;
  blindToRandom : forall n w, obs (withRandomIndex n w) = obs w
}.

(** An observation that, besides, cannot tell the plan and the timer that
    processing the abandoned cart [id] leaves once the cart is saved. *)
Record blindToProcessing {X} (id : string) (obs : world -> X) : Prop := {
  blindToTheWrites : blindToWrites obs;
  blindToPlan : keyBlind (CartRecovery.planKey id) obs;
  blindToTimer :
    forall due attempt w,
      obs (withTimers (fun ts => ts ++ [Timer due id attempt]) w) = obs w
}.

(** The document [abandon] leaves in memory and writes, at time [now]. *)
Definition abandoned (now : Z) (c : cart) : cart :=
  match cartStatusOf c with
  | Active =>
      CartModel.preSave
        (CartModel.setAbandonedAt (Some now) (CartModel.setStatus Abandoned c))
  | _ => c
  end.

(** The carts the detection query selects at time [now]. *)
Definition selectedAt (now : Z) (w : world) : list cart :=
  List.filter
    (CartRecovery.potentiallyAbandoned (now - CartRecovery.ABANDONMENT_THRESHOLD))
    (dbCarts w).

(** Two stale active carts of two customers, and a fresh one. *)
Definition staleCart : cart :=
  Cart "cart1" "c1" [CartItem "p1" 2 600] Active 1200 1699990000000 None [].

Definition sweepWorld : world :=
  World 1700000000000 (fun _ => (1 # 2)%Q) 0 ∅ ∅ ∅
    {["c1" := optedOutCustomer; "c2" := businessCustomer]}
    [ staleCart;
      Cart "cart2" "c2" [CartItem "p2" 1 50] Active 50 1699991000000 None [];
      Cart "cart3" "c2" [CartItem "p3" 1 10] Active 10 1699999990000 None [] ]
    [] [] [] None None [] [].

(** An observation of one cart, [target], that processing any other cart
    leaves alone. *)
Definition cartLocal {X} (target : string) (obs : world -> X) : Prop :=
  (forall id, id <> target -> blindToProcessing id obs)
  /\ (forall c w, cartId c <> target ->
                  obs (withCarts (CartModel.store c) w) = obs w).

(** [.populate('customer')] in the world [w]. *)
Definition populate (w : world) (c : cart) : cart * option customer :=
  (c, dbCustomers w !! cartCustomer c).

Definition uniqueIds (carts : list cart) : Prop := NoDup (map cartId carts).

(** [m] schedules at most one more attempt for the cart [target]. *)
Definition schedulesAtMostOne {A} (target : string) (m : M A) : Prop :=
  forall w r w',
    m w = (r, w') ->
    (length (timersOf target w') <= length (timersOf target w) + 1)%nat.

(* ===================================================================== *)
(** ** Cart items (models/Cart.js: addItem, removeItem, updateQuantity) *)
(* ===================================================================== *)

Module CartItems.

Definition setItems (items : list cartItem) (c : cart) : cart :=
  Cart (cartId c) (cartCustomer c) items (cartStatusOf c) (totalValue c)
    (lastActivity c) (abandonedAt c) (recoveryAttempts c).

Definition sameProduct (productId : string) (item : cartItem) : bool :=
  String.eqb (itemProduct item) productId.

(** [existingItem.quantity += quantity] on the first item of the product. *)
Fixpoint addQuantity (productId : string) (quantity : Z) (items : list cartItem)
  : list cartItem :=
  match items with
  | [] => []
  | item :: rest =>
      if sameProduct productId item
      then CartItem (itemProduct item) (itemQuantity item + quantity)
             (itemPrice item) :: rest
      else item :: addQuantity productId quantity rest
  end.

(** [item.quantity = quantity] on the first item of the product. *)
Fixpoint setQuantity (productId : string) (quantity : Z) (items : list cartItem)
  : list cartItem :=
  match items with
  | [] => []
  | item :: rest =>
      if sameProduct productId item
      then CartItem (itemProduct item) quantity (itemPrice item) :: rest
      else item :: setQuantity productId quantity rest
  end.

(** [products] is the Product collection: the price of each product. *)
Definition addItem (products : gmap string Q) (productId : string)
  (quantity : Z) (c : cart) : M cart :=
  match List.find (sameProduct productId) (cartItems c) with
  | Some existingItem =>
      now <~ dateNow ;;
      CartModel.save (CartModel.setLastActivity now
              (setItems (addQuantity productId quantity (cartItems c)) c))
  | None =>
      match products !! productId with
      | None => throw (JsError "Error" "Product not found")
      | Some price =>
          now <~ dateNow ;;
          CartModel.save (CartModel.setLastActivity now
                  (setItems (cartItems c ++ [CartItem productId quantity price]) c))
      end
  end.

Definition removeItem (productId : string) (c : cart) : M cart :=
  now <~ dateNow ;;
  CartModel.save (CartModel.setLastActivity now
          (setItems
             (List.filter (fun item => negb (sameProduct productId item))
                (cartItems c))
             c)).

Definition updateQuantity (productId : string) (quantity : Z) (c : cart)
  : M cart :=
  match List.find (sameProduct productId) (cartItems c) with
  | None => throw (JsError "Error" "Item not found in cart")
  | Some item =>
      now <~ dateNow ;;
      CartModel.save (CartModel.setLastActivity now
              (setItems (setQuantity productId quantity (cartItems c)) c))
  end.

(** The sum the save hook stores in [totalValue]. *)
Definition itemsTotal (items : list cartItem) : Q :=
  foldl (fun total item =>
           Qplus total (Qmult (itemPrice item) (inject_Z (itemQuantity item))))
        (0%Q) items.

(** The methods of a cart that change its items. *)
Inductive edit :=
| AddItem (products : gmap string Q) (productId : string) (quantity : Z)
| RemoveItem (productId : string)
| UpdateQuantity (productId : string) (quantity : Z).

Definition apply (e : edit) (c : cart) : M cart :=
  match e with
  | AddItem products productId quantity => addItem products productId quantity c
  | RemoveItem productId => removeItem productId c
  | UpdateQuantity productId quantity => updateQuantity productId quantity c
  end.

End CartItems.

(** A cart of two lines and the prices of three products. *)
Definition twoLineCart : cart :=
  Cart "cart9" "c1" [CartItem "p1" 2 600; CartItem "p2" 1 (5 # 2)] Active 0
    1699999000000 None [].

Definition priceList : gmap string Q :=
  {["p1" := 600%Q; "p2" := (5 # 2)%Q; "p3" := 40%Q]}.

(** *** Counters of the sales hashes *)

(** [HGET key field] read as a number: 0 when the hash or the field is
    absent. *)
Definition hashCounter (w : world) (key field : string) : Z :=
  default 0 (default ∅ (redisHashes w !! key) !! field).

(** How often a segment occurs in [customer.segments]. *)
Definition occurrences (segment : string) (segments : list string) : Z :=
  Z.of_nat (length (List.filter (String.eqb segment) segments)).

(* ===================================================================== *)
(** ** Executing a scheduled attempt (CartRecoveryService) *)
(* ===================================================================== *)

Module RecoveryExecution.

Section Services.

(** [whatsappService.sendMessage] on the arguments sendRecoveryMessage
    builds from the populated cart, the customer and the template id:
    whatever it does to the world, and it may throw. *)
Variable whatsappSend : cart -> customer -> string -> M unit.

(** The [_id] Mongoose mints for a pushed subdocument. *)
Variable objectId : world -> string.

(** [MessageTemplate.findById] *)
Definition templateFindById (id : string) : M (option messageTemplate) :=
  gets (fun w =>
    List.find (fun t => String.eqb (templateId t) id) (dbTemplates w)).

Definition nullCustomerName : jsError :=
  JsError "TypeError" "Cannot read properties of null (reading 'firstName')".

(** [customer] is the populated [cart.customer]; building the variables
    reads its name, which faults on [null]. *)
Definition sendRecoveryMessage (cart : cart) (customer : option customer)
  (channel templateId : string) : M unit :=
  tryCatch
    (template <~ templateFindById templateId ;;
     match template with
     | None => ret tt
     | Some _ =>
         match customer with
         | None => throw nullCustomerName
         | Some customer =>
             if String.eqb channel "whatsapp"
             then whatsappSend cart customer templateId
             else ret tt
         end
     end)
    (fun error => loggerError error).

(** The loop over [attempt.channels]; [cart] is the document in memory,
    which every logRecoveryAttempt extends and saves. *)
Fixpoint attemptLoop (cart : cart) (customer : option customer)
  (channels : list string) (templates : gmap string string) : M Model.cart :=
  match channels with
  | [] => ret cart
  | channel :: rest =>
      match templates !! channel with
      | Some (String _ _ as templateId) =>
          sendRecoveryMessage cart customer channel templateId ;;;
          newId <~ gets objectId ;;
          cart <~ CartModel.logRecoveryAttempt newId channel templateId cart ;;
          attemptLoop cart customer rest templates
      | _ => attemptLoop cart customer rest templates
      end
  end.

Definition executeRecoveryAttempt (cartId : string) (attempt : attempt)
  : M unit :=
  tryCatch
    (found <~ CartRecovery.cartFindById cartId ;;
     match found with
     | None => ret tt
     | Some cart =>
         customer <~ Segmentation.customerFindById (cartCustomer cart) ;;
         match cartStatusOf cart with
         | Abandoned =>
             attemptLoop cart customer (attemptChannels attempt)
               (attemptTemplates attempt) ;;;
             ret tt
         | _ => ret tt
         end
     end)
    (fun error => loggerError error).

End Services.

(** The channels of an attempt that have a template, with it. *)
Definition withTemplate (attempt : attempt) : list (string * string) :=
  omap (fun channel =>
          match attemptTemplates attempt !! channel with
          | Some (String _ _ as templateId) => Some (channel, templateId)
          | _ => None
          end)
       (attemptChannels attempt).

(** What an attempt leaves of itself in the cart. *)
Definition logged (a : recoveryAttempt) : string * string * attemptResponse :=
  (attemptType a, attemptTemplate a, attemptResponseOf a).

End RecoveryExecution.

(** A sender that does nothing, and a constant subdocument id. *)
Definition silentSend : cart -> customer -> string -> M unit :=
  fun _ _ _ => ret tt.

Definition constantId : world -> string := fun _ => "a9".

(** The first attempt of a plan over email, with its template. *)
Definition emailAttempt : attempt :=
  Attempt 1700003600000 ["whatsapp"; "email"] {["email" := "t1"]}.

(* ===================================================================== *)
(** ** Customer metrics and loyalty (models/Customer.js, models/Order.js) *)
(* ===================================================================== *)

Module CustomerModel.

Inductive orderStatus :=
| Pending | Processing | Shipped | Delivered | Cancelled | Refunded.

(** [customer.metrics] *)
Record metrics := Metrics {
  totalOrders : Z;
  metricsTotalSpent : Q;
  averageOrderValue : jsnum;
  metricsLastPurchaseDate : option Z;
  firstPurchaseDate : option Z
}.

(** [customer.loyalty] *)
Record loyaltyAccount := Loyalty {
  points : Q;
  tier : loyaltyTier
}.

(** The part of a stored customer document the two methods work on. *)
Record document := Document {
  docId : string;
  docMetrics : metrics;
  docLoyalty : loyaltyAccount
}.

(** [await this.save()] of a stored document into the Customer collection,
    kept by [_id]: the pre-save hook only numbers new documents.  The
    documents meant are those whose [totalOrders] is not negative, as the
    default 0 and the increments leave it: their average is a number the
    schema accepts. *)
Definition save (doc : document) (db : gmap string document)
  : gmap string document :=
  <[docId doc := doc]> db.

(** [customer.updateMetrics(order)]: the document in memory and the
    collection after the save. *)
Definition updateMetrics (order : order) (doc : document)
  (db : gmap string document) : document * gmap string document :=
  let m := docMetrics doc in
  let totalOrders := totalOrders m + 1 in
  let totalSpent := Qplus (metricsTotalSpent m) (orderTotal order) in
  let averageOrderValue := div (Fin totalSpent) (ofZ totalOrders) in
  let lastPurchaseDate := Some (orderCreatedAt order) in
  let firstPurchaseDate :=
    match firstPurchaseDate m with
    | None => Some (orderCreatedAt order)
    | Some date => Some date
    end in
  let doc :=
    Document (docId doc)
      (Metrics totalOrders totalSpent averageOrderValue lastPurchaseDate
         firstPurchaseDate)
      (docLoyalty doc) in
  (doc, save doc db).

(** [Math.max(0, x)] *)
Definition max0 (x : Q) : Q := if Qle_bool 0 x then x else 0%Q.

(** [customer.updateLoyaltyPoints(points, operation)] *)
Definition updateLoyaltyPoints (earned : Q) (operation : string)
  (doc : document) (db : gmap string document)
  : document * gmap string document :=
  let account := docLoyalty doc in
  let points :=
    if String.eqb operation "add" then Qplus (points account) earned
    else if String.eqb operation "subtract"
         then max0 (Qminus (points account) earned)
    else points account in
  let tier :=
    if Qle_bool 10000 points then Platinum
    else if Qle_bool 5000 points then Gold
    else if Qle_bool 1000 points then Silver
    else tier account in
  let doc := Document (docId doc) (docMetrics doc) (Loyalty points tier) in
  (doc, save doc db).

(** The post-save hook of Order: [order] is the saved document, [status]
    its status.  Nothing in it can fail on a stored customer. *)
Definition orderPostSave (saved : order * orderStatus)
  (db : gmap string document) : gmap string document :=
  let '(order, status) := saved in
  match db !! orderCustomer order with
  | None => db
  | Some customer =>
      let '(customer, db) := updateMetrics order customer db in
      match status with
      | Delivered =>
          snd (updateLoyaltyPoints (inject_Z (Qfloor (orderTotal order))) "add"
                 customer db)
      | _ => db
      end
  end.

(** The saves of orders, oldest first, each followed by its hook. *)
Definition afterSaves (saves : list (order * orderStatus))
  (db : gmap string document) : gmap string document :=
  foldl (fun db saved => orderPostSave saved db) db saves.

(** The points the saves earn: one per whole unit of the total of each
    save made in status delivered. *)
Definition earnedBy (saves : list (order * orderStatus)) : list Q :=
  omap (fun saved =>
          match snd saved with
          | Delivered => Some (inject_Z (Qfloor (orderTotal (fst saved))))
          | _ => None
          end)
       saves.

End CustomerModel.

(** A customer of the collection with nothing bought yet, and an order of
    theirs. *)
Definition freshDocument : CustomerModel.document :=
  CustomerModel.Document "c1"
    (CustomerModel.Metrics 0 0 (Fin 0) None None)
    (CustomerModel.Loyalty 0 Bronze).

Definition deliveredOrder : order := Order "o7" "c1" (2501 # 2) 3 1699000000000.

(* ===================================================================== *)
(** ** Properties *)
(* ===================================================================== *)

(** *** Growth rates *)

Lemma jsIndex_pred {A} (arr : list A) (i : nat) :
  jsIndex arr (Z.of_nat (S i) - 1) = arr !! i.
Proof.
  unfold jsIndex.
  replace (Z.of_nat (S i) - 1) with (Z.of_nat i) by lia.
  destruct (Z.ltb_spec (Z.of_nat i) 0) as [Hneg | _]; [lia |].
  now rewrite Nat2Z.id.
Qed.

(** C6. For every list of revenue buckets, in chronological order: the
    first bucket, whenever there is one, gets growth rate 0, also when it is
    the only one; every later bucket gets
    (current.revenue - previous.revenue) / previous.revenue * 100; no bucket
    is added or dropped; the revenues 100, 150, 90 give the rates 0, 50,
    -40. *)
Theorem calculateGrowthRates_spec (results : list Revenue.bucket) :
  (forall first,
      results !! 0%nat = Some first ->
      Revenue.calculateGrowthRates results !! 0%nat
      = Some (Revenue.BucketWithGrowth first (Fin 0)))
  /\ (forall i previous current,
        results !! i = Some previous ->
        results !! S i = Some current ->
        Revenue.calculateGrowthRates results !! S i
        = Some (Revenue.BucketWithGrowth current
                  (mul (div (sub (Fin (Revenue.revenue current))
                                 (Fin (Revenue.revenue previous)))
                            (Fin (Revenue.revenue previous)))
                       (Fin 100))))
  /\ length (Revenue.calculateGrowthRates results) = length results
  /\ Forall2 eqv
       (map Revenue.growthRate
          (Revenue.calculateGrowthRates (Revenue.ofRevenues [100; 150; 90]%Q)))
       [Fin 0; Fin 50; Fin (-40)]
  /\ map Revenue.growthRate
       (Revenue.calculateGrowthRates (Revenue.ofRevenues [100]%Q))
     = [Fin 0].
Proof.
  unfold Revenue.calculateGrowthRates.
  split; [| split; [| split; [| split]]].
  - intros first Hfirst. now rewrite list_lookup_imap, Hfirst.
  - intros i previous current Hprevious Hcurrent.
    rewrite list_lookup_imap, Hcurrent, jsIndex_pred, Hprevious.
    reflexivity.
  - apply length_imap.
  - repeat constructor.
  - reflexivity.
Qed.

Lemma calculateGrowthRates_spec_witness :
  Revenue.calculateGrowthRates (Revenue.ofRevenues [100; 150; 90]%Q) !! 2%nat
  = Some (Revenue.BucketWithGrowth (Revenue.Bucket "" 90 1 90)
            (mul (div (sub (Fin 90) (Fin 150)) (Fin 150)) (Fin 100))).
Proof.
  destruct (calculateGrowthRates_spec (Revenue.ofRevenues [100; 150; 90]%Q))
    as (_ & Hlater & _).
  apply (Hlater 1%nat (Revenue.Bucket "" 150 1 150) (Revenue.Bucket "" 90 1 90));
    reflexivity.
Defined.

(** *** The purchase-frequency rule on the day of the first order *)

Lemma div_positive_by_zero (n : nat) :
  div (ofZ (Z.of_nat (S n))) (ofZ 0) = PosInf.
Proof. reflexivity. Qed.

(** C10. When the first fetched order of a customer is less than one day
    old, the floored number of days since the first purchase is zero and the
    purchase-frequency rule does not fault: it returns frequent_buyer. *)
Theorem purchaseFrequency_first_day
  (customer : customer) (w : world) (firstOrder : order) (rest : list order)
  (Hstore : orderFault w = None)
  (Hfetched :
     List.filter (fun o => String.eqb (orderCustomer o) (customerId customer))
       (dbOrders w) = firstOrder :: rest)
  (Hrecent : 0 <= clock w - orderCreatedAt firstOrder < Segmentation.msPerDay) :
  Segmentation.daysSince (clock w) (orderCreatedAt firstOrder) = 0
  /\ Segmentation.purchaseFrequencyRule customer w = (Ok ["frequent_buyer"], w).
Proof.
  assert (Hdays : Segmentation.daysSince (clock w) (orderCreatedAt firstOrder) = 0)
    by (unfold Segmentation.daysSince; now apply Z.div_small).
  split; [exact Hdays |].
  unfold Segmentation.purchaseFrequencyRule, Segmentation.orderFind, bind, dateNow, gets.
  rewrite Hstore, Hfetched, Hdays.
  cbn [length].
  now rewrite div_positive_by_zero.
Qed.

Lemma purchaseFrequency_first_day_witness :
  Segmentation.daysSince (clock firstDayWorld) 1699990000000 = 0
  /\ Segmentation.purchaseFrequencyRule firstDayCustomer firstDayWorld
     = (Ok ["frequent_buyer"], firstDayWorld).
Proof.
  apply (purchaseFrequency_first_day firstDayCustomer firstDayWorld
           (Order "o1" "c1" 120 2 1699990000000) []).
  - reflexivity.
  - reflexivity.
  - unfold Segmentation.msPerDay. simpl. lia.
Defined.

(** Unfolding of the monad's plumbing. *)
Ltac run_monad :=
  cbv [bind ret gets modify dateNow throw tryCatch loggerError].

(** *** The life cycle of a cart *)

Lemma save_eq (c : cart) (w : world) :
  CartModel.save c w
  = if CartModel.validates c
    then (Ok (CartModel.preSave c),
          withCarts (CartModel.store (CartModel.preSave c)) w)
    else (Throw (CartModel.validationError c), w).
Proof. unfold CartModel.save. now destruct (CartModel.validates c). Qed.

(** Validation looks at the lines and the logged attempts only. *)
Lemma validates_ext (c c' : cart) :
  cartItems c' = cartItems c ->
  recoveryAttempts c' = recoveryAttempts c ->
  CartModel.validates c' = CartModel.validates c.
Proof. unfold CartModel.validates. now intros -> ->. Qed.

Lemma no_failure_iff {A : Type} (check : nat -> A -> option string)
  (passes : A -> bool) (l : list A) :
  (forall i x, check i x = None <-> passes x = true) ->
  omap (fun e => e) (imap check l) = [] <-> forallb passes l = true.
Proof.
  revert check. induction l as [| x rest IH]; intros check Hcheck;
    [easy |].
  rewrite imap_cons. cbn [omap forallb]. rewrite andb_true_iff.
  rewrite <- (IH (check ∘ S)) by (intros i y; apply Hcheck).
  rewrite <- (Hcheck 0%nat x).
  destruct (check 0%nat x); [| tauto].
  split; [discriminate | intros [? _]; discriminate].
Qed.

(** The message of a refusal names a failure exactly when the document
    does not pass. *)
Lemma validationErrors_nil (c : cart) :
  CartModel.validationErrors c = [] <-> CartModel.validates c = true.
Proof.
  unfold CartModel.validationErrors, CartModel.validates.
  rewrite andb_true_iff.
  rewrite <- (no_failure_iff CartModel.quantityError
                (fun item => 1 <=? itemQuantity item)).
  2:{ intros i x. unfold CartModel.quantityError.
      destruct (1 <=? itemQuantity x); easy. }
  rewrite <- (no_failure_iff CartModel.typeError
                (fun a => bool_decide (attemptType a ∈ CartModel.attemptTypes))).
  2:{ intros i x. unfold CartModel.typeError.
      destruct (bool_decide (attemptType x ∈ CartModel.attemptTypes));
        [easy |]. destruct (String.eqb (attemptType x) ""); easy. }
  split.
  - intros H. now apply app_eq_nil in H.
  - intros [-> ->]. reflexivity.
Qed.

Lemma validates_attempts (c : cart) (attempts : list recoveryAttempt) :
  CartModel.validates c = true ->
  Forall (fun a => attemptType a ∈ CartModel.attemptTypes) attempts ->
  CartModel.validates (CartModel.setRecoveryAttempts attempts c) = true.
Proof.
  unfold CartModel.validates. cbn [cartItems recoveryAttempts
    CartModel.setRecoveryAttempts].
  rewrite !andb_true_iff. intros [Hitems _] Hall. split; [exact Hitems |].
  apply forallb_forall. intros a Ha. apply bool_decide_eq_true_2.
  rewrite Forall_forall in Hall. apply Hall. now apply list_elem_of_In.
Qed.

Lemma validates_types (c : cart) :
  CartModel.validates c = true ->
  Forall (fun a => attemptType a ∈ CartModel.attemptTypes) (recoveryAttempts c).
Proof.
  unfold CartModel.validates. rewrite andb_true_iff. intros [_ Hall].
  rewrite Forall_forall. intros a Ha.
  rewrite forallb_forall in Hall.
  apply list_elem_of_In in Ha. specialize (Hall a Ha).
  now case_bool_decide.
Qed.

Lemma respond_types (id : string) (r : attemptResponse)
  (l : list recoveryAttempt) :
  Forall (fun a => attemptType a ∈ CartModel.attemptTypes) l ->
  Forall (fun a => attemptType a ∈ CartModel.attemptTypes)
    (CartModel.respond id r l).
Proof.
  induction 1 as [| a rest Ha Hrest IH]; simpl; [constructor |].
  destruct (String.eqb (attemptId a) id); constructor; assumption.
Qed.

Lemma respond_member (id : string) (r : attemptResponse)
  (l : list recoveryAttempt) (a : recoveryAttempt) :
  List.find (fun x => String.eqb (attemptId x) id) l = Some a ->
  CartModel.setResponse r a ∈ CartModel.respond id r l.
Proof.
  induction l as [| x rest IH]; simpl; [discriminate |].
  destruct (String.eqb (attemptId x) id).
  - intros [= ->]. left.
  - intros H. right. now apply IH.
Qed.

(** The document [updateRecoveryResponse] saves when the attempt is
    known. *)
Lemma respond_validates (id : string) (r : attemptResponse) (c : cart) :
  CartModel.validates
    (CartModel.setRecoveryAttempts
       (CartModel.respond id r (recoveryAttempts c)) c)
  = CartModel.validates c.
Proof.
  destruct (CartModel.validates c) eqn:Hvalid.
  - apply validates_attempts; [exact Hvalid |].
    now apply respond_types, validates_types.
  - unfold CartModel.validates in *. cbn [cartItems recoveryAttempts
      CartModel.setRecoveryAttempts].
    apply andb_false_iff in Hvalid. apply andb_false_iff.
    destruct Hvalid as [Hitems | Hattempts]; [now left | right].
    apply not_true_is_false. intros Hall. apply not_true_iff_false in Hattempts.
    apply Hattempts. rewrite forallb_forall in *. intros a Ha.
    clear Hattempts. revert a Ha.
    induction (recoveryAttempts c) as [| x rest IH]; intros a Ha;
      [inversion Ha |].
    simpl in Hall. destruct (String.eqb (attemptId x) id).
    + destruct Ha as [<- | Ha].
      * apply (Hall (CartModel.setResponse r x)). now left.
      * apply Hall. now right.
    + destruct Ha as [<- | Ha].
      * apply Hall. now left.
      * apply IH; [| exact Ha]. intros b Hb. apply Hall. now right.
Qed.

Lemma cartFind_store (c : cart) (carts : list cart) :
  CartModel.findById (cartId c) (CartModel.store c carts) = Some c.
Proof.
  unfold CartModel.findById.
  induction carts as [| c0 rest IH]; simpl.
  - now rewrite String.eqb_refl.
  - destruct (String.eqb (cartId c0) (cartId c)) eqn:E; simpl.
    + now rewrite String.eqb_refl.
    + now rewrite E.
Qed.

Lemma cartFind_store_other (c : cart) (id : string) (carts : list cart) :
  cartId c <> id ->
  CartModel.findById id (CartModel.store c carts) = CartModel.findById id carts.
Proof.
  intros Hne. unfold CartModel.findById.
  apply String.eqb_neq in Hne.
  induction carts as [| c0 rest IH]; simpl.
  - now rewrite Hne.
  - destruct (String.eqb (cartId c0) (cartId c)) eqn:E; simpl.
    + apply String.eqb_eq in E. rewrite E. now rewrite Hne.
    + now rewrite IH.
Qed.

Lemma cartAt_saved (c : cart) (id : string) (w : world) :
  cartId c = id -> cartAt id (withCarts (CartModel.store c) w) = Some c.
Proof. intros <-. apply cartFind_store. Qed.

(** C5, as the methods implement it. An operation throws only when its
    save refuses a document that fails validation, and then nothing is
    written. When it returns, the status it leaves is the old one or a
    transition of the implemented machine (active -> abandoned,
    abandoned -> active, any -> converted, any -> expired): abandon moves
    only active carts, recover only abandoned ones, while convert, and the
    converted response to a logged attempt, set converted whatever the
    status was; a response to a logged attempt is recorded on that attempt,
    a response to an unknown one changes nothing; the document returned is
    the one written to the collection. *)
Theorem cart_operations_follow_code_machine
  (op : CartModel.operation) (c : cart) (w : world) :
  match CartModel.perform op c w with
  | (Throw e, w') =>
      w' = w /\ errName e = "ValidationError" /\ CartModel.validates c = false
  | (Ok c', w') =>
      (cartStatusOf c' = cartStatusOf c
       \/ CartModel.codeTransition (cartStatusOf c) (cartStatusOf c'))
      /\ (c' = c /\ w' = w \/ cartAt (cartId c) w' = Some c')
      /\ match op with
         | CartModel.OpAbandon =>
             match cartStatusOf c with
             | Active => cartStatusOf c' = Abandoned
             | _ => c' = c /\ w' = w
             end
         | CartModel.OpRecover =>
             match cartStatusOf c with
             | Abandoned => cartStatusOf c' = Active
             | _ => c' = c /\ w' = w
             end
         | CartModel.OpConvert => cartStatusOf c' = Converted
         | CartModel.OpExpire => cartStatusOf c' = Expired
         | CartModel.OpUpdateRecoveryResponse id response =>
             match List.find (fun a => String.eqb (attemptId a) id)
                     (recoveryAttempts c) with
             | Some logged =>
                 cartStatusOf c'
                 = match response with
                   | RConverted => Converted
                   | _ => cartStatusOf c
                   end
                 /\ RecoveryAttempt (attemptId logged) (attemptType logged)
                      (attemptTemplate logged) (attemptSentAt logged) response
                    ∈ recoveryAttempts c'
             | None => c' = c /\ w' = w
             end
         end
  end.
Proof.
  destruct op as [ | | | | id response]; simpl.
  - unfold CartModel.abandon.
    destruct (cartStatusOf c) eqn:Hs;
      try (simpl; rewrite ?Hs; repeat split; auto; fail).
    unfold bind, dateNow, gets. rewrite save_eq.
    rewrite (validates_ext c) by reflexivity.
    destruct (CartModel.validates c); [| simpl; repeat split; auto].
    simpl.
    repeat split; auto using CartModel.CodeAbandon.
    right. now apply cartAt_saved.
  - unfold CartModel.recover.
    destruct (cartStatusOf c) eqn:Hs;
      try (simpl; rewrite ?Hs; repeat split; auto; fail).
    unfold bind, dateNow, gets. rewrite save_eq.
    rewrite (validates_ext c) by reflexivity.
    destruct (CartModel.validates c); [| simpl; repeat split; auto].
    simpl.
    repeat split; auto using CartModel.CodeRecover.
    right. now apply cartAt_saved.
  - unfold CartModel.convert. rewrite save_eq.
    rewrite (validates_ext c) by reflexivity.
    destruct (CartModel.validates c); [| simpl; repeat split; auto].
    simpl. repeat split; auto using CartModel.CodeConvert.
    right. now apply cartAt_saved.
  - unfold CartModel.expire. rewrite save_eq.
    rewrite (validates_ext c) by reflexivity.
    destruct (CartModel.validates c); [| simpl; repeat split; auto].
    simpl. repeat split; auto using CartModel.CodeExpire.
    right. now apply cartAt_saved.
  - unfold CartModel.updateRecoveryResponse.
    destruct (List.find _ (recoveryAttempts c)) as [a |] eqn:Efind;
      [| simpl; repeat split; auto].
    cbv zeta. rewrite save_eq.
    assert (Hsame :
      CartModel.validates
        match response with
        | RConverted =>
            CartModel.setStatus Converted
              (CartModel.setRecoveryAttempts
                 (CartModel.respond id response (recoveryAttempts c)) c)
        | _ =>
            CartModel.setRecoveryAttempts
              (CartModel.respond id response (recoveryAttempts c)) c
        end
      = CartModel.validates c).
    { rewrite <- (respond_validates id response c).
      destruct response; reflexivity. }
    rewrite Hsame.
    destruct (CartModel.validates c); [| simpl; repeat split; auto].
    pose proof (respond_member id response _ _ Efind) as Hmember.
    destruct response; simpl; repeat split;
      auto using CartModel.CodeConvert;
      right; now apply cartAt_saved.
Qed.

(** C5, as the specification states it, fails: convert takes a cart that
    was never abandoned from active to converted. *)
Lemma spec_machine_violated_by_convert :
  ~ followsSpecMachine CartModel.OpConvert activeCart emptyWorld.
Proof.
  intros Hclaim.
  destruct (Hclaim _ _ eq_refl) as [Hsame | Hstep].
  - discriminate Hsame.
  - inversion Hstep.
Qed.

(** *** Frames: what a computation leaves untouched *)

Lemma frames_ret {X A} (obs : world -> X) (a : A) : frames obs (ret a).
Proof. intros w r w' H. now inversion H. Qed.

Lemma frames_throw {X A} (obs : world -> X) (e : jsError) :
  frames obs (@throw A e).
Proof. intros w r w' H. now inversion H. Qed.

Lemma frames_gets {X A} (obs : world -> X) (f : world -> A) :
  frames obs (gets f).
Proof. intros w r w' H. now inversion H. Qed.

Lemma frames_modify {X} (obs : world -> X) (f : world -> world) :
  (forall w, obs (f w) = obs w) -> frames obs (modify f).
Proof. intros Hf w r w' H. inversion H. apply Hf. Qed.

Lemma frames_bind {X A B} (obs : world -> X) (m : M A) (k : A -> M B) :
  frames obs m -> (forall a, frames obs (k a)) -> frames obs (bind m k).
Proof.
  intros Hm Hk w r w' H. unfold bind in H.
  destruct (m w) as [[a | e] w1] eqn:Em.
  - rewrite (Hk a _ _ _ H). exact (Hm _ _ _ Em).
  - inversion H; subst. exact (Hm _ _ _ Em).
Qed.

Lemma frames_tryCatch {X A} (obs : world -> X) (body : M A)
  (handler : jsError -> M A) :
  frames obs body -> (forall e, frames obs (handler e)) ->
  frames obs (tryCatch body handler).
Proof.
  intros Hb Hh w r w' H. unfold tryCatch in H.
  destruct (body w) as [[a | e] w1] eqn:Eb.
  - inversion H; subst. exact (Hb _ _ _ Eb).
  - rewrite (Hh e _ _ _ H). exact (Hb _ _ _ Eb).
Qed.

Lemma frames_forEach {X A} (obs : world -> X) (xs : list A) (body : A -> M unit) :
  (forall x, x ∈ xs -> frames obs (body x)) -> frames obs (forEach xs body).
Proof.
  induction xs as [| x rest IH]; intros Hbody; simpl.
  - apply frames_ret.
  - apply frames_bind.
    + apply Hbody. left.
    + intros _. apply IH. intros y Hy. apply Hbody. now right.
Qed.

Lemma frames_loggerError {X} (obs : world -> X) (e : jsError) :
  (forall f w, obs (withErrorLog f w) = obs w) -> frames obs (loggerError e).
Proof. intros Hobs. apply frames_modify. intros w. apply Hobs. Qed.

Lemma frames_mathRandom {X} (obs : world -> X) :
  (forall n w, obs (withRandomIndex n w) = obs w) -> frames obs mathRandom.
Proof. intros Hobs w r w' H. inversion H. apply Hobs. Qed.

Lemma keyBlind_cachedAt (key other : string) :
  key <> other -> keyBlind key (cachedAt other).
Proof.
  intros Hne w. unfold cachedAt. simpl. split.
  - intros e. now apply lookup_insert_ne.
  - now apply lookup_delete_ne.
Qed.

Lemma frames_redis_get {X} (obs : world -> X) (key : string) :
  frames obs (Redis.get key).
Proof. apply frames_gets. Qed.

Lemma frames_redis_set {X} (obs : world -> X) (key : string) (v : rvalue) :
  keyBlind key obs -> frames obs (Redis.set key v).
Proof. intros Hb. apply frames_modify. intros w. apply Hb. Qed.

Lemma frames_redis_setex {X} (obs : world -> X) (key : string) (ttl : Z)
  (v : rvalue) :
  keyBlind key obs -> frames obs (Redis.setex key ttl v).
Proof. intros Hb w r w' H. inversion H. apply Hb. Qed.

Lemma frames_redis_del {X} (obs : world -> X) (key : string) :
  keyBlind key obs -> frames obs (Redis.del key).
Proof. intros Hb. apply frames_modify. intros w. apply Hb. Qed.

Lemma frames_redis_incrBy {X} (obs : world -> X) (key : string) (delta : Z) :
  keyBlind key obs -> frames obs (Redis.incrBy key delta).
Proof.
  intros Hb w r w' H. unfold Redis.incrBy in H.
  destruct (redisStrings w !! key) as [e |].
  - destruct (Redis.live (clock w) e).
    + destruct (entryValue e); inversion H; subst; try reflexivity; apply Hb.
    + inversion H. apply Hb.
  - inversion H. apply Hb.
Qed.

(** Two keys that differ within their literal prefixes. *)
Ltac distinct_keys :=
  let H := fresh in
  cbv [Segmentation.segmentsKey Segmentation.messageCountKey
       CartRecovery.assignmentKey CartRecovery.planKey
       CartRecovery.conversionsKey CartRecovery.impressionsKey];
  simpl; intros H; discriminate H.

(** *** The recovery plan *)

Lemma selectVariant_nonempty (v0 : string) (vs : list string) (ds : list Q)
  (w : world) :
  exists v,
    CartRecovery.selectVariant (v0 :: vs) ds w
    = (Ok (Some v), withRandomIndex (S (randomIndex w)) w).
Proof.
  unfold CartRecovery.selectVariant, bind, mathRandom.
  destruct (CartRecovery.selectFrom _ _ _ _) as [v |].
  - now exists v.
  - destruct (last (v0 :: vs)) as [v |] eqn:El.
    + now exists v.
    + apply last_None in El. discriminate El.
Qed.

Lemma assignABTestVariant_returns (testName customerId : string)
  (test : CartRecovery.abTest) (w : world) :
  CartRecovery.abTestsGet testName = Some test ->
  CartRecovery.active test = true ->
  CartRecovery.variants test <> [] ->
  Spec.variantOrAbsent
    (Redis.lookupLive w (CartRecovery.assignmentKey testName customerId)) ->
  exists v w',
    CartRecovery.assignABTestVariant testName customerId w = (Ok (Some v), w')
    /\ clock w' = clock w
    /\ forall k, k <> CartRecovery.assignmentKey testName customerId ->
                 Redis.lookupLive w' k = Redis.lookupLive w k.
Proof.
  intros Hget Hactive Hvariants Hcached.
  unfold CartRecovery.assignABTestVariant. rewrite Hget, Hactive.
  change (negb true) with false. cbv iota zeta.
  destruct (CartRecovery.variants test) as [| v0 vs] eqn:Ev; [congruence |].
  destruct (selectVariant_nonempty v0 vs (CartRecovery.distribution test) w)
    as [v Hsel].
  assert (Hfresh : exists w',
    (selected <~ CartRecovery.selectVariant (v0 :: vs) (CartRecovery.distribution test) ;;
     match selected with
     | Some v =>
         Redis.set (CartRecovery.assignmentKey testName customerId) (VStr v) ;;;
         ret (Some v)
     | None => throw (JsError "TypeError" "Invalid argument type")
     end) w = (Ok (Some v), w')
    /\ clock w' = clock w
    /\ forall k, k <> CartRecovery.assignmentKey testName customerId ->
                 Redis.lookupLive w' k = Redis.lookupLive w k).
  { eexists. unfold bind at 1. rewrite Hsel. split; [reflexivity |].
    split; [reflexivity |].
    intros k Hk. unfold Redis.lookupLive. simpl.
    now rewrite lookup_insert_ne by congruence. }
  unfold bind at 1, Redis.get, gets. cbv beta zeta.
  destruct (Redis.lookupLive w _) as [[s | n | l | p] |] eqn:El;
    simpl in Hcached; try contradiction.
  - destruct s as [| a s]; simpl.
    + destruct Hfresh as (w' & Hrun & Hrest). now exists v, w'.
    + exists (String a s), w. repeat split.
  - simpl. destruct Hfresh as (w' & Hrun & Hrest). now exists v, w'.
Qed.

Lemma filter_includes (l k : list string) :
  List.filter (fun c => CartRecovery.includes c k) l = list_intersection l k.
Proof.
  induction l as [| x l IH]; simpl; [reflexivity |].
  rewrite IH. unfold CartRecovery.includes.
  destruct (decide_rel elem_of x k) as [Hin | Hout].
  - now rewrite bool_decide_eq_true_2.
  - now rewrite bool_decide_eq_false_2.
Qed.

Lemma selectTemplatesLoop_returns (strategy : strategy) (channels : list string)
  (templates : gmap string string) (w : world) :
  exists templates',
    CartRecovery.selectTemplatesLoop strategy channels templates w
    = (Ok templates', w).
Proof.
  revert templates.
  induction channels as [| channel rest IH]; intros templates; simpl.
  - now exists templates.
  - unfold bind, CartRecovery.templateFindOne, gets. apply IH.
Qed.

Lemma planAttemptsLoop_spec (cart : cart) (strategy : strategy)
  (intervals : list CartRecovery.interval) (attempts : list attempt)
  (w : world) :
  exists new,
    CartRecovery.planAttemptsLoop cart strategy intervals attempts w
    = (Ok (attempts ++ new), w)
    /\ map (fun a => (scheduledFor a, attemptChannels a)) new
       = omap (Spec.attemptOf (clock w) (strategyChannels strategy)) intervals.
Proof.
  revert attempts.
  induction intervals as [| i rest IH]; intros attempts; simpl.
  - exists []. now rewrite app_nil_r.
  - unfold Spec.attemptOf at 1. rewrite filter_includes.
    destruct (list_intersection (CartRecovery.channels i)
                (strategyChannels strategy)) as [| c common] eqn:Ei.
    + simpl. apply IH.
    + replace (0 <? Z.of_nat (length (c :: common))) with true
        by (symmetry; apply Z.ltb_lt; simpl length; lia).
      unfold bind at 1, dateNow, gets. unfold bind at 1. cbv beta iota.
      unfold CartRecovery.selectTemplates.
      destruct (selectTemplatesLoop_returns strategy (c :: common) ∅ w)
        as [templates Ht].
      rewrite Ht.
      destruct (IH (attempts ++
                      [Attempt (clock w + CartRecovery.hours i * 60 * 60 * 1000)
                         (c :: common) templates]))
        as (new & Hrun & Hnew).
      eexists (_ :: new). split.
      * rewrite Hrun. now rewrite <- app_assoc.
      * simpl. rewrite Hnew. do 3 f_equal. lia.
Qed.

Lemma strategy_channels_spec (segments : list string) (total : Q)
  (whatsapp : bool) :
  (if negb whatsapp
   then List.filter (fun c => negb (String.eqb c "whatsapp"))
          (if CartRecovery.includes "high_value" segments
           then ["whatsapp"; "email"]
           else if negb (Qle_bool total 1000) then ["whatsapp"; "email"]
                else ["email"])
   else (if CartRecovery.includes "high_value" segments
         then ["whatsapp"; "email"]
         else if negb (Qle_bool total 1000) then ["whatsapp"; "email"]
              else ["email"]))
  = Spec.allowedChannels segments total whatsapp.
Proof.
  unfold Spec.allowedChannels, CartRecovery.includes.
  destruct (bool_decide ("high_value" ∈ segments)), (Qle_bool total 1000),
    whatsapp; reflexivity.
Qed.

(** C1. For a cart entering the abandoned state the strategy's channels are
    whatsapp and email when the segments include high_value or the cart's
    total exceeds 1000, email alone otherwise, without whatsapp when the
    customer's contactPreferences.whatsapp is false; the plan holds, in
    order, exactly one attempt for each of the intervals 1 h [whatsapp],
    24 h [email, whatsapp], 72 h [email] whose default channels meet the
    allowed ones, that attempt's channels being the intersection, and no
    attempt for an interval whose intersection is empty. *)
Theorem recovery_plan_attempts
  (w : world) (cart : cart) (customer : customer) (segments : list string)
  (Hcache : forall testName,
      Spec.variantOrAbsent
        (Redis.lookupLive w
           (CartRecovery.assignmentKey testName (customerId customer)))) :
  exists strategy w1 plan w2,
    CartRecovery.determineRecoveryStrategy cart customer segments w
    = (Ok strategy, w1)
    /\ CartRecovery.createRecoveryPlan cart customer strategy w1 = (Ok plan, w2)
    /\ strategyChannels strategy
       = Spec.allowedChannels segments (totalValue cart)
           (whatsappPreference customer)
    /\ map (fun a => (scheduledFor a, attemptChannels a)) (planAttempts plan)
       = omap (Spec.attemptOf (clock w) (strategyChannels strategy))
           CartRecovery.RECOVERY_INTERVALS
    /\ CartRecovery.RECOVERY_INTERVALS
       = [ CartRecovery.Interval 1 ["whatsapp"];
           CartRecovery.Interval 24 ["email"; "whatsapp"];
           CartRecovery.Interval 72 ["email"] ].
Proof.
  set (cid := customerId customer) in *.
  destruct (assignABTestVariant_returns "timing" cid _ w eq_refl eq_refl
              ltac:(discriminate) (Hcache _)) as (v1 & w1 & E1 & C1 & K1).
  assert (H2 : Spec.variantOrAbsent
                 (Redis.lookupLive w1 (CartRecovery.assignmentKey "message_style" cid))).
  { rewrite K1 by distinct_keys. apply Hcache. }
  destruct (assignABTestVariant_returns "message_style" cid _ w1 eq_refl eq_refl
              ltac:(discriminate) H2) as (v2 & w2 & E2 & C2 & K2).
  assert (H3 : Spec.variantOrAbsent
                 (Redis.lookupLive w2 (CartRecovery.assignmentKey "discount_offer" cid))).
  { rewrite K2, K1 by distinct_keys. apply Hcache. }
  destruct (assignABTestVariant_returns "discount_offer" cid _ w2 eq_refl eq_refl
              ltac:(discriminate) H3) as (v3 & w3 & E3 & C3 & K3).
  set (allowed := Spec.allowedChannels segments (totalValue cart)
                    (whatsappPreference customer)).
  set (st := Strategy (Some v1) (Some v2) (Some v3) allowed).
  destruct (planAttemptsLoop_spec cart st CartRecovery.RECOVERY_INTERVALS [] w3)
    as (new & Hloop & Hnew).
  exists st, w3, (RecoveryPlan (cartId cart) cid st new), w3.
  split; [| split; [| split; [reflexivity | split; [| reflexivity]]]].
  - unfold CartRecovery.determineRecoveryStrategy. fold cid.
    unfold bind at 1. rewrite E1. unfold bind at 1. rewrite E2.
    unfold bind at 1. rewrite E3. unfold ret, st, allowed.
    now rewrite strategy_channels_spec.
  - unfold CartRecovery.createRecoveryPlan, bind. now rewrite Hloop.
  - simpl planAttempts. rewrite Hnew. now rewrite C3, C2, C1.
Qed.

Lemma recovery_plan_attempts_witness :
  exists strategy w1 plan w2,
    CartRecovery.determineRecoveryStrategy activeCart optedOutCustomer
      ["high_value"] emptyWorld = (Ok strategy, w1)
    /\ CartRecovery.createRecoveryPlan activeCart optedOutCustomer strategy w1
       = (Ok plan, w2)
    /\ strategyChannels strategy = ["email"]
    /\ map (fun a => (scheduledFor a, attemptChannels a)) (planAttempts plan)
       = [(1700000000000 + 24 * 3600000, ["email"]);
          (1700000000000 + 72 * 3600000, ["email"])].
Proof.
  destruct (recovery_plan_attempts emptyWorld activeCart optedOutCustomer
              ["high_value"])
    as (strategy & w1 & plan & w2 & Hs & Hp & Hc & Ha & _).
  - intros testName. exact I.
  - exists strategy, w1, plan, w2.
    split; [exact Hs |]. split; [exact Hp |]. split; [exact Hc |].
    rewrite Ha, Hc. reflexivity.
Defined.

(** *** Classification *)

Lemma foldl_setAdd (acc l : list string) :
  foldl Segmentation.setAdd acc l = acc ++ Spec.dedup acc l.
Proof.
  revert acc. induction l as [| x l IH]; intros acc; simpl.
  - now rewrite app_nil_r.
  - unfold Segmentation.setAdd at 2.
    destruct (bool_decide (x ∈ acc)).
    + apply IH.
    + rewrite IH. now rewrite <- app_assoc.
Qed.

Lemma elem_of_dedup (x : string) (seen l : list string) :
  x ∈ Spec.dedup seen l <-> x ∈ l /\ x ∉ seen.
Proof.
  revert seen. induction l as [| y l IH]; intros seen; simpl.
  - split; [intros H; inversion H | intros [H _]; inversion H].
  - case_bool_decide as Hy.
    + rewrite IH, elem_of_cons. split; [tauto |].
      intros [[-> | Hin] Hout]; [contradiction | tauto].
    + rewrite !elem_of_cons, IH, elem_of_app, list_elem_of_singleton.
      split.
      * intros [-> | [Hin Hout]]; [tauto |]. split; [tauto |].
        intros Hs. apply Hout. now left.
      * intros [[-> | Hin] Hout]; [tauto |].
        destruct (decide (x = y)) as [-> | Hne]; [tauto |].
        right. split; [exact Hin |]. intros [Hs | Heq]; tauto.
Qed.

Lemma NoDup_dedup (seen l : list string) : NoDup (Spec.dedup seen l).
Proof.
  revert seen. induction l as [| y l IH]; intros seen; simpl.
  - constructor.
  - case_bool_decide as Hy; [apply IH |].
    constructor; [| apply IH].
    rewrite elem_of_dedup, elem_of_app, list_elem_of_singleton. tauto.
Qed.

Lemma applyRules_returns (customer : customer) (rules : Segmentation.registry)
  (w : world) (outputs : list (list string)) (w1 : world) :
  Spec.rulesReturn customer rules w outputs w1 ->
  forall acc,
    Segmentation.applyRules rules customer acc w
    = (Ok (foldl Segmentation.setAdd acc (concat outputs)), w1).
Proof.
  induction 1 as [w | name ruleFn rest w labels w1 outputs w2 Hrule Hrest IH];
    intros acc; simpl.
  - reflexivity.
  - unfold bind. rewrite Hrule, IH. now rewrite foldl_app.
Qed.

Lemma applyRules_throws (customer : customer) (pre : Segmentation.registry)
  (w : world) (outputs : list (list string)) (w1 : world) :
  Spec.rulesReturn customer pre w outputs w1 ->
  forall name ruleFn post e w2 acc,
    ruleFn customer w1 = (Throw e, w2) ->
    Segmentation.applyRules (pre ++ (name, ruleFn) :: post) customer acc w
    = (Throw e, w2).
Proof.
  induction 1 as [w | n f rest w labels w1 outputs w2 Hrule Hrest IH];
    intros name ruleFn post e w3 acc Hthrow; simpl.
  - unfold bind. now rewrite Hthrow.
  - unfold bind. rewrite Hrule. now apply IH.
Qed.

Lemma rulesReturn_frames {X} (obs : world -> X) (customer : customer)
  (rules : Segmentation.registry) (w : world) (outputs : list (list string))
  (w1 : world) :
  Spec.rulesReturn customer rules w outputs w1 ->
  Forall (fun r => frames obs (snd r customer)) rules ->
  obs w1 = obs w.
Proof.
  induction 1 as [w | name ruleFn rest w labels w1 outputs w2 Hrule Hrest IH];
    intros Hall.
  - reflexivity.
  - inversion Hall as [| r rs Hr Hrs]; subst. simpl in Hr.
    rewrite (IH Hrs). exact (Hr _ _ _ Hrule).
Qed.

Lemma derived_by_setAdd (customer : customer) (segments : list string) :
  match loyalty customer with
  | Some tier =>
      Segmentation.setAdd
        match customerKind customer with
        | Business => Segmentation.setAdd segments "business_account"
        | Individual => segments
        end
        ("loyalty_" +:+ Segmentation.tierName tier)
  | None =>
      match customerKind customer with
      | Business => Segmentation.setAdd segments "business_account"
      | Individual => segments
      end
  end
  = foldl Segmentation.setAdd segments (Spec.derivedLabels customer).
Proof.
  unfold Spec.derivedLabels.
  destruct (loyalty customer) as [[] |], (customerKind customer); reflexivity.
Qed.

(** C2. On a cache miss, with every registered rule returning, classify
    returns the union, without duplicates, of the rules' labels taken in
    registration order, of business_account exactly when the customer is a
    business, and of loyalty_bronze, loyalty_silver, loyalty_gold or
    loyalty_platinum for the customer's tier; that list is stored under the
    key customer:<id>:segments of the customer's id, with a TTL of 3600
    seconds, in the world the call hands back. The default registry is
    frequency, spend, engagement, recency. *)
Theorem segmentCustomer_on_miss
  (rules : Segmentation.registry) (customer : customer) (w : world)
  (outputs : list (list string)) (w1 : world)
  (Hmiss : Redis.lookupLive w ("customer:" +:+ customerId customer +:+ ":segments")
           = None)
  (Hrules : Spec.rulesReturn customer rules w outputs w1) :
  let key := "customer:" +:+ customerId customer +:+ ":segments" in
  let labels := Spec.dedup [] (concat outputs ++ Spec.derivedLabels customer) in
  let w' :=
    withRedisStrings
      (insert key (Entry (VLabels labels) (Some (clock w1 + 3600 * 1000)))) w1 in
  Segmentation.segmentCustomer rules customer w = (Ok labels, w')
  /\ Redis.lookupLive w' key = Some (VLabels labels)
  /\ (forall other, other <> key -> redisStrings w' !! other = redisStrings w1 !! other)
  /\ NoDup labels
  /\ (forall x, x ∈ labels <->
                (exists out, out ∈ outputs /\ x ∈ out)
                \/ x ∈ Spec.derivedLabels customer)
  /\ ("business_account" ∈ Spec.derivedLabels customer
      <-> customerKind customer = Business)
  /\ (forall x, x ∈ Spec.derivedLabels customer ->
                x = "business_account"
                \/ exists tier, loyalty customer = Some tier
                                /\ x = Spec.loyaltyLabel tier)
  /\ (forall tier, loyalty customer = Some tier ->
                   Spec.loyaltyLabel tier ∈ labels)
  /\ map Spec.loyaltyLabel [Bronze; Silver; Gold; Platinum]
     = ["loyalty_bronze"; "loyalty_silver"; "loyalty_gold"; "loyalty_platinum"]
  /\ map fst Segmentation.defaultRules
     = ["purchase_frequency"; "spending_level"; "engagement_level";
        "purchase_recency"].
Proof.
  intros key labels w'.
  assert (Hmem : forall x, x ∈ labels <->
                (exists out, out ∈ outputs /\ x ∈ out)
                \/ x ∈ Spec.derivedLabels customer).
  { intros x. unfold labels. rewrite elem_of_dedup, elem_of_app.
    rewrite !list_elem_of_In, in_concat.
    setoid_rewrite list_elem_of_In.
    split.
    - intros [[(out & Ho & Hx) | Hd] _]; [left; now exists out | now right].
    - intros [(out & Ho & Hx) | Hd]; (split; [| now intros Hnil]).
      + left. now exists out.
      + now right. }
  split; [| split; [| split; [| split; [apply NoDup_dedup | split; [exact Hmem |]]]]].
  - unfold Segmentation.segmentCustomer, tryCatch.
    unfold bind at 1, Redis.get, gets. cbv beta zeta.
    change (Segmentation.segmentsKey (customerId customer)) with key.
    unfold key at 1. rewrite Hmiss. cbv beta iota delta [truthy].
    unfold bind at 1. rewrite (applyRules_returns _ _ _ _ _ Hrules).
    rewrite derived_by_setAdd, <- foldl_app, foldl_setAdd. simpl app.
    reflexivity.
  - unfold Redis.lookupLive, w'. simpl.
    rewrite lookup_insert_eq. unfold Redis.live. cbn [expiresAt entryValue].
    now replace (clock w1 <? clock w1 + 3600 * 1000) with true
      by (symmetry; apply Z.ltb_lt; lia).
  - intros other Hother. unfold w'. simpl. now apply lookup_insert_ne.
  - split; [| split; [| split; [| split; reflexivity]]].
    + unfold Spec.derivedLabels.
      destruct (customerKind customer), (loyalty customer) as [[] |];
        simpl; split; intros H; try reflexivity; try discriminate H;
        repeat (apply elem_of_cons in H; destruct H as [H | H];
                try discriminate H);
        try (inversion H; fail); try (now left).
    + unfold Spec.derivedLabels. intros x Hx.
      apply elem_of_app in Hx. destruct Hx as [Hx | Hx].
      * destruct (customerKind customer); [inversion Hx |].
        apply list_elem_of_singleton in Hx. now left.
      * destruct (loyalty customer) as [tier |]; [| inversion Hx].
        apply list_elem_of_singleton in Hx. right. now exists tier.
    + intros tier Htier. apply Hmem. right.
      unfold Spec.derivedLabels. rewrite Htier, elem_of_app. right. now left.
Qed.

Lemma segmentCustomer_on_miss_witness :
  fst (Segmentation.segmentCustomer Segmentation.defaultRules businessCustomer
         businessWorld)
  = Ok ["occasional_buyer"; "medium_value"; "low_engagement";
        "whatsapp_enabled"; "at_risk"; "business_account"; "loyalty_silver"].
Proof.
  destruct (segmentCustomer_on_miss Segmentation.defaultRules businessCustomer
              businessWorld
              [["occasional_buyer"]; ["medium_value"];
               ["low_engagement"; "whatsapp_enabled"]; ["at_risk"]]
              (snd (Segmentation.engagementLevelRule businessCustomer businessWorld))
              eq_refl) as [Hrun _].
  - apply Spec.RulesCons with (w1 := businessWorld); [reflexivity |].
    apply Spec.RulesCons with (w1 := businessWorld); [reflexivity |].
    eapply Spec.RulesCons; [reflexivity |].
    eapply Spec.RulesCons; [reflexivity |].
    constructor.
  - rewrite Hrun. reflexivity.
Defined.

(** *** A faulting rule *)

Ltac frames_step :=
  match goal with
  | |- frames _ (bind _ _) => apply frames_bind; [| intros ?]
  | |- frames _ (tryCatch _ _) => apply frames_tryCatch; [| intros ?]
  | |- frames _ (ret _) => apply frames_ret
  | |- frames _ (throw _) => apply frames_throw
  | |- frames _ (gets _) => apply frames_gets
  | |- frames _ dateNow => apply frames_gets
  | |- frames _ (Segmentation.customerFindById _) => apply frames_gets
  | |- frames _ (CartRecovery.cartFindById _) => apply frames_gets
  | |- frames _ (CartRecovery.templateFindOne _ _ _) => apply frames_gets
  | |- frames _ (Redis.get _) => apply frames_redis_get
  | |- frames _ (Redis.set _ _) => apply frames_redis_set
  | |- frames _ (Redis.setex _ _ _) => apply frames_redis_setex
  | |- frames _ (Redis.del _) => apply frames_redis_del
  | |- frames _ (Redis.incrBy _ _) => apply frames_redis_incrBy
  | |- frames _ (Redis.incr _) => apply frames_redis_incrBy
  | |- frames _ (loggerError _) => apply frames_loggerError; reflexivity
  | |- frames _ mathRandom => apply frames_mathRandom; reflexivity
  | |- frames _ (match ?x with _ => _ end) => destruct x
  | |- frames _ (let _ := _ in _) => cbv zeta
  end.

Lemma frames_orderFind {X} (obs : world -> X) (id : string) :
  frames obs (Segmentation.orderFind id).
Proof.
  intros w r w' H. unfold Segmentation.orderFind in H.
  destruct (orderFault w); now inversion H.
Qed.

Lemma frames_countMessages {X} (obs : world -> X) (id : string) :
  frames obs (Segmentation.countMessages id).
Proof.
  intros w r w' H. unfold Segmentation.countMessages in H.
  destruct (messageFault w); now inversion H.
Qed.

(** The default rules write one key only, the engagement rule's message
    count. *)
Lemma defaultRules_frame {X} (obs : world -> X) (customer : customer) :
  keyBlind (Segmentation.messageCountKey (customerId customer)) obs ->
  Forall (fun r => frames obs (snd r customer)) Segmentation.defaultRules.
Proof.
  intros Hblind.
  repeat constructor; simpl.
  - unfold Segmentation.purchaseFrequencyRule.
    apply frames_bind; [apply frames_orderFind | intros orders].
    repeat frames_step.
  - unfold Segmentation.spendingLevelRule. repeat frames_step.
  - unfold Segmentation.engagementLevelRule,
      Segmentation.getCustomerMessageCount.
    repeat frames_step; try assumption.
    apply frames_countMessages.
  - unfold Segmentation.purchaseRecencyRule. repeat frames_step.
Qed.

Lemma list_ascii_append (s t : string) :
  list_ascii_of_string (s +:+ t)
  = list_ascii_of_string s ++ list_ascii_of_string t.
Proof. induction s as [| c s IH]; simpl; [reflexivity | now rewrite IH]. Qed.

Lemma append_inv_tail (s1 s2 t : string) : s1 +:+ t = s2 +:+ t -> s1 = s2.
Proof.
  intros H. apply (f_equal list_ascii_of_string) in H.
  rewrite !list_ascii_append in H. apply app_inv_tail in H.
  apply (f_equal string_of_list_ascii) in H.
  now rewrite !string_of_list_ascii_of_string in H.
Qed.

Lemma segments_not_messageCount (a b : string) :
  Segmentation.messageCountKey a <> Segmentation.segmentsKey b.
Proof.
  unfold Segmentation.messageCountKey, Segmentation.segmentsKey.
  intros H. apply (f_equal list_ascii_of_string) in H.
  rewrite !list_ascii_append in H. simpl in H.
  apply (f_equal (@List.rev _)) in H.
  rewrite !app_comm_cons, !rev_app_distr in H. simpl in H.
  discriminate H.
Qed.

(** C4, as the code behaves. When, on a cache miss, the rules before some
    rule return and that rule throws, classify throws that rule's own error,
    unchanged, and returns no label; the cached classification and the
    stored customers are as before the call, and refresh, called for that
    customer, fails with the same error leaving both untouched as well. The
    rules are taken not to write the classification key or the customer
    collection themselves, as the default rules do not. *)
Theorem segmentCustomer_rule_fault
  (pre post : Segmentation.registry) (name : string) (ruleFn : Segmentation.rule)
  (customer : customer) (w : world) (outputs : list (list string))
  (w1 : world) (e : jsError) (w2 : world)
  (Hmiss : Redis.lookupLive w (Segmentation.segmentsKey (customerId customer)) = None)
  (Hpre : Spec.rulesReturn customer pre w outputs w1)
  (Hthrow : ruleFn customer w1 = (Throw e, w2))
  (Hcache : Forall (fun r => frames (cachedAt (Segmentation.segmentsKey (customerId customer)))
                               (snd r customer))
              (pre ++ [(name, ruleFn)]))
  (Hstore : Forall (fun r => frames dbCustomers (snd r customer))
              (pre ++ [(name, ruleFn)])) :
  let key := Segmentation.segmentsKey (customerId customer) in
  let rules := pre ++ (name, ruleFn) :: post in
  let w' := withErrorLog (fun l => l ++ [e]) w2 in
  Segmentation.segmentCustomer rules customer w = (Throw e, w')
  /\ cachedAt key w' = cachedAt key w
  /\ dbCustomers w' = dbCustomers w
  /\ (dbCustomers w !! customerId customer = Some customer ->
      exists w'',
        Segmentation.updateCustomerSegments rules (customerId customer) w
        = (Throw e, w'')
        /\ cachedAt key w'' = cachedAt key w
        /\ dbCustomers w'' = dbCustomers w).
Proof.
  intros key rules w'.
  assert (Hrun : Segmentation.segmentCustomer rules customer w = (Throw e, w')).
  { unfold Segmentation.segmentCustomer, tryCatch, rules.
    unfold bind at 1, Redis.get, gets. cbv beta zeta.
    rewrite Hmiss. cbv beta iota delta [truthy].
    unfold bind at 1.
    pose proof (applyRules_throws _ _ _ _ _ Hpre name ruleFn post e w2 [] Hthrow)
      as Hloop.
    destruct (Segmentation.applyRules _ _ _ _) as [r wx].
    now inversion Hloop. }
  assert (Hframe : forall {X} (obs : world -> X),
             (forall f w, obs (withErrorLog f w) = obs w) ->
             Forall (fun r => frames obs (snd r customer)) (pre ++ [(name, ruleFn)]) ->
             obs w' = obs w).
  { intros X obs Hlog Hall. unfold w'. rewrite Hlog.
    apply Forall_app in Hall. destruct Hall as [Hall Hlast].
    inversion Hlast as [| r rs Hr _]; subst. simpl in Hr.
    rewrite (Hr _ _ _ Hthrow).
    exact (rulesReturn_frames obs _ _ _ _ _ Hpre Hall). }
  split; [exact Hrun |].
  split; [apply (Hframe _ (cachedAt key)); [reflexivity | exact Hcache] |].
  split; [apply (Hframe _ dbCustomers); [reflexivity | exact Hstore] |].
  intros Hstored.
  exists (withErrorLog (fun l => l ++ [e]) w').
  unfold Segmentation.updateCustomerSegments, tryCatch.
  unfold bind at 1, Segmentation.customerFindById, gets. cbv beta.
  rewrite Hstored. unfold bind at 1. rewrite Hrun.
  split; [reflexivity |].
  split; [apply (Hframe _ (cachedAt key)); [reflexivity | exact Hcache] |].
  apply (Hframe _ dbCustomers); [reflexivity | exact Hstore].
Qed.

Lemma unreachable_orders_run :
  Segmentation.segmentCustomer Segmentation.defaultRules businessCustomer
    unreachableOrdersWorld
  = (Throw networkError,
     withErrorLog (fun l => l ++ [networkError]) unreachableOrdersWorld).
Proof. reflexivity. Qed.

Lemma segmentCustomer_rule_fault_witness :
  Segmentation.segmentCustomer Segmentation.defaultRules businessCustomer
    unreachableOrdersWorld
  = (Throw networkError,
     withErrorLog (fun l => l ++ [networkError]) unreachableOrdersWorld).
Proof.
  apply (segmentCustomer_rule_fault []
           (tail Segmentation.defaultRules) "purchase_frequency"
           Segmentation.purchaseFrequencyRule businessCustomer
           unreachableOrdersWorld [] unreachableOrdersWorld networkError
           unreachableOrdersWorld).
  - reflexivity.
  - constructor.
  - reflexivity.
  - constructor; [| constructor]. simpl.
    apply (Forall_inv (defaultRules_frame _ businessCustomer
                         (keyBlind_cachedAt _ _ (segments_not_messageCount _ _)))).
  - constructor; [| constructor]. simpl.
    apply (Forall_inv (defaultRules_frame dbCustomers businessCustomer
                         (fun w => conj (fun e => eq_refl) eq_refl))).
Defined.

(** C4, as the specification states it, fails: with the Order collection
    unreachable the frequency rule throws a MongoNetworkError, and that is
    the error classify surfaces, not a ClassificationError. *)
Lemma rule_fault_is_not_wrapped :
  ~ failsWithClassificationError Segmentation.defaultRules businessCustomer
      unreachableOrdersWorld.
Proof.
  intros (e & w' & Hrun & Hname & _).
  rewrite unreachable_orders_run in Hrun.
  inversion Hrun; subst. discriminate Hname.
Qed.

(** Evaluation of a closed conjunction, conjunct by conjunct. *)
Ltac evaluate :=
  repeat match goal with |- _ /\ _ => split end;
  vm_compute; repeat split; reflexivity.

(** *** Refreshing a customer's segments *)

(** Whatever the rules and the customer's data, a cached classification is
    what refresh returns and persists. *)
Lemma updateCustomerSegments_on_hit (rules : Segmentation.registry)
  (customer : customer) (cached : list string) (w : world) :
  dbCustomers w !! customerId customer = Some customer ->
  Redis.lookupLive w (Segmentation.segmentsKey (customerId customer))
  = Some (VLabels cached) ->
  Segmentation.updateCustomerSegments rules (customerId customer) w
  = (Ok cached,
     withRedisStrings (delete (Segmentation.segmentsKey (customerId customer)))
       (withCustomers
          (insert (customerId customer) (Segmentation.setSegments cached customer))
          w)).
Proof.
  intros Hstored Hhit.
  unfold Segmentation.updateCustomerSegments, tryCatch.
  unfold bind at 1, Segmentation.customerFindById, gets. cbv beta.
  rewrite Hstored. unfold bind at 1.
  unfold Segmentation.segmentCustomer, tryCatch.
  unfold bind at 1, Redis.get, gets. cbv beta zeta.
  rewrite Hhit. reflexivity.
Qed.

(** C8 at a customer whose classification is cached: refresh hands back the
    cached labels and writes them onto the customer, although classifying
    the customer's current data gives high_value and the gold tier; only
    then is the cache entry deleted. *)
Theorem updateCustomerSegments_serves_cache :
  let key := Segmentation.segmentsKey "c3" in
  let run := Segmentation.updateCustomerSegments Segmentation.defaultRules "c3"
               staleCacheWorld in
  fst run = Ok staleLabels
  /\ customerSegments <$> dbCustomers (snd run) !! "c3" = Some staleLabels
  /\ cachedAt key (snd run) = None
  /\ fst (Segmentation.segmentCustomer Segmentation.defaultRules grownCustomer
            (withRedisStrings (delete key) staleCacheWorld))
     = Ok ["frequent_buyer"; "high_value"; "low_engagement"; "active";
           "loyalty_gold"].
Proof. evaluate. Qed.

(** *** Experiment statistics *)

(** Assigning a variant writes no Redis key but the sticky assignment. *)
Lemma assignABTestVariant_writes_one_key (testName customerId key : string) :
  key <> CartRecovery.assignmentKey testName customerId ->
  frames (cachedAt key) (CartRecovery.assignABTestVariant testName customerId).
Proof.
  intros Hne.
  unfold CartRecovery.assignABTestVariant, CartRecovery.selectVariant.
  repeat frames_step. apply keyBlind_cachedAt. congruence.
Qed.

(** C7 at a first assignment: assigning c1 a variant of the timing
    experiment writes the sticky assignment and nothing else, so no
    impression is counted; when c1 later converts, the conversion counters
    go to 1 and, the impression counters being absent, no conversion rate is
    reported. Where an impression counter is present, the rate reported is
    conversions / impressions * 100. *)
Theorem assignment_counts_no_impression :
  let assigned := CartRecovery.assignABTestVariant "timing" "c1" emptyWorld in
  fst assigned = Ok (Some "immediate")
  /\ redisStrings (snd assigned)
     = {[CartRecovery.assignmentKey "timing" "c1" := Entry (VStr "immediate") None]}
  /\ Redis.lookupLive (snd assigned) (CartRecovery.impressionsKey "timing" "immediate")
     = None
  /\ fst (CartRecovery.updateABTestResults answeredCart (snd assigned)) = Ok (Some [])
  /\ Redis.lookupLive
       (snd (CartRecovery.updateABTestResults answeredCart (snd assigned)))
       (CartRecovery.conversionsKey "timing" "immediate")
     = Some (VInt 1)
  /\ match fst (CartRecovery.updateABTestResults answeredCart countedImpressionsWorld) with
     | Ok (Some [(testName, reported)]) =>
         testName = "timing"
         /\ CartRecovery.resultVariant reported = "immediate"
         /\ CartRecovery.conversionRate reported
            = mul (div (ofZ 1) (ofZ 4)) (Fin 100)
     | _ => False
     end.
Proof. evaluate. Qed.

(** *** The sliding window *)

Lemma obs_bind_frames {X A B} (obs : world -> X) (m : M A) (k : A -> M B)
  (w : world) :
  (forall a, frames obs (k a)) -> obs (snd (bind m k w)) = obs (snd (m w)).
Proof.
  intros Hk. unfold bind. destruct (m w) as [[a | e] w1]; [| reflexivity].
  simpl. destruct (k a w1) as [r w2] eqn:Ek. exact (Hk a _ _ _ Ek).
Qed.

Lemma obs_tryCatch_frames {X A} (obs : world -> X) (body : M A)
  (handler : jsError -> M A) (w : world) :
  (forall e, frames obs (handler e)) ->
  obs (snd (tryCatch body handler w)) = obs (snd (body w)).
Proof.
  intros Hh. unfold tryCatch. destruct (body w) as [[a | e] w1]; [reflexivity |].
  simpl. destruct (handler e w1) as [r w2] eqn:Eh. exact (Hh e _ _ _ Eh).
Qed.

Lemma frames_redis_hincrby {X} (obs : world -> X) (key field : string)
  (delta : Z) :
  (forall f w, obs (withRedisHashes f w) = obs w) ->
  frames obs (Redis.hincrby key field delta).
Proof. intros Hobs w r w' H. inversion H. apply Hobs. Qed.

Lemma track_window (order : order) (w : world) :
  Spec.window (snd (Analytics.trackSaleEvent order w))
  = windowAfter (clock w) (Spec.eventOf order (clock w)) (Spec.window w).
Proof.
  unfold Analytics.trackSaleEvent.
  rewrite obs_tryCatch_frames
    by (intros e; apply frames_loggerError; reflexivity).
  unfold bind at 1, dateNow at 1, gets at 1. cbv beta zeta.
  unfold bind at 1, Redis.zadd, modify. cbv beta.
  rewrite obs_bind_frames.
  - unfold Redis.zremrangebyscore, modify, Spec.window. simpl.
    rewrite !lookup_insert_eq. reflexivity.
  - intros _.
    repeat first
      [ apply frames_redis_hincrby; reflexivity
      | apply frames_forEach; intros segment _
      | frames_step ].
Qed.

Lemma in_insertByScore (s : Z) (m : saleEvent) (zs : list (Z * saleEvent))
  (x : Z * saleEvent) :
  x ∈ Redis.insertByScore s m zs <-> x = (s, m) \/ x ∈ zs.
Proof.
  induction zs as [| [s0 m0] rest IH]; simpl.
  - rewrite list_elem_of_singleton. split; [tauto |].
    intros [H | H]; [exact H | inversion H].
  - destruct (s <? s0).
    + now rewrite elem_of_cons.
    + rewrite !elem_of_cons, IH. tauto.
Qed.

Lemma in_windowAfter (t : Z) (e : saleEvent) (zs : list (Z * saleEvent))
  (x : Z * saleEvent) :
  x ∈ windowAfter t e zs <->
  Redis.inRange 0 (t - Analytics.REAL_TIME_WINDOW * 1000) x = false
  /\ (x = (t, e) \/ x ∈ zs /\ Redis.sameMember (snd x) e = false).
Proof.
  unfold windowAfter.
  rewrite !list_elem_of_In, filter_In, <- !list_elem_of_In, in_insertByScore.
  rewrite !list_elem_of_In, filter_In, !negb_true_iff. tauto.
Qed.

Lemma sameMember_timestamp (a b : saleEvent) :
  Redis.sameMember a b = true -> eventTimestamp a = eventTimestamp b.
Proof.
  unfold Redis.sameMember. rewrite !andb_true_iff, !bool_decide_eq_true. tauto.
Qed.

Lemma sameMember_refl (a : saleEvent) : Redis.sameMember a a = true.
Proof.
  unfold Redis.sameMember. rewrite !andb_true_iff, !bool_decide_eq_true.
  repeat split. apply Qeq_bool_iff. reflexivity.
Qed.

Lemma sameMember_trans (a b c : saleEvent) :
  Redis.sameMember a b = true -> Redis.sameMember b c = true ->
  Redis.sameMember a c = true.
Proof.
  unfold Redis.sameMember.
  rewrite !andb_true_iff, !bool_decide_eq_true, !Qeq_bool_iff.
  intros ((((H1 & H2) & H3) & H4) & H5) ((((G1 & G2) & G3) & G4) & G5).
  repeat split; try congruence. now rewrite H2.
Qed.

Lemma window_withClock (t : Z) (w : world) :
  Spec.window (withClock t w) = Spec.window w.
Proof. reflexivity. Qed.

Lemma ingest_window (w : world) (t : Z) (order : order) :
  Spec.window (Spec.ingestAt w (t, order))
  = windowAfter t (Spec.eventOf order t) (Spec.window w).
Proof.
  unfold Spec.ingestAt, stateAfter. simpl fst. simpl snd at 2.
  rewrite track_window. reflexivity.
Qed.

Lemma ingest_scored (w : world) (timed : Z * order) :
  Spec.scoredByTimestamp w -> Spec.scoredByTimestamp (Spec.ingestAt w timed).
Proof.
  destruct timed as [t order]. unfold Spec.scoredByTimestamp.
  rewrite ingest_window, !Forall_forall.
  intros Hw x Hx. apply in_windowAfter in Hx.
  destruct Hx as [_ [-> | [Hx _]]]; [reflexivity | now apply Hw].
Qed.

Lemma ingest_present (w : world) (t : Z) (order : order) :
  presentAt t (Spec.eventOf order t) (Spec.ingestAt w (t, order)).
Proof.
  exists (Spec.eventOf order t). split; [| apply sameMember_refl].
  rewrite ingest_window. apply in_windowAfter. split; [| now left].
  unfold Redis.inRange, Analytics.REAL_TIME_WINDOW. simpl fst.
  apply andb_false_iff. right. apply Z.leb_gt. lia.
Qed.

Lemma ingest_keeps_present (w : world) (t : Z) (e : saleEvent)
  (timed : Z * order) :
  Spec.scoredByTimestamp w ->
  presentAt t e w ->
  fst timed - Analytics.REAL_TIME_WINDOW * 1000 < t ->
  presentAt t e (Spec.ingestAt w timed).
Proof.
  destruct timed as [t' order]. simpl fst.
  intros Hscored (m & Hm & Hsame) Hrecent.
  assert (Hkept : Redis.inRange 0 (t' - Analytics.REAL_TIME_WINDOW * 1000) (t, m)
                  = false).
  { unfold Redis.inRange. simpl fst. apply andb_false_iff. right.
    apply Z.leb_gt. lia. }
  destruct (Redis.sameMember m (Spec.eventOf order t')) eqn:Em.
  - assert (Ht : t = t').
    { unfold Spec.scoredByTimestamp in Hscored. rewrite Forall_forall in Hscored.
      specialize (Hscored _ Hm). simpl in Hscored.
      rewrite Hscored. now apply sameMember_timestamp in Em. }
    subst t'. exists (Spec.eventOf order t).
    split; [| now apply sameMember_trans with m].
    rewrite ingest_window. apply in_windowAfter. split; [exact Hkept | now left].
  - exists m. split; [| exact Hsame].
    rewrite ingest_window. apply in_windowAfter. split; [exact Hkept |]. right.
    now split.
Qed.

Lemma ingests_keep_present (later : list (Z * order)) (w : world) (t : Z)
  (e : saleEvent) :
  Spec.scoredByTimestamp w ->
  presentAt t e w ->
  Forall (fun timed => fst timed - Analytics.REAL_TIME_WINDOW * 1000 < t) later ->
  presentAt t e (foldl Spec.ingestAt w later).
Proof.
  revert w. induction later as [| timed rest IH]; intros w Hs Hp Hall; simpl.
  - exact Hp.
  - inversion Hall as [| x xs Hx Hxs]; subst.
    apply IH; [now apply ingest_scored | now apply ingest_keeps_present | exact Hxs].
Qed.

Lemma ingests_scored (later : list (Z * order)) (w : world) :
  Spec.scoredByTimestamp w ->
  Spec.scoredByTimestamp (foldl Spec.ingestAt w later).
Proof.
  revert w. induction later as [| timed rest IH]; intros w Hs; simpl.
  - exact Hs.
  - apply IH. now apply ingest_scored.
Qed.

Lemma accumulate_from (events : list saleEvent) (sales : Z) (revenue : Q)
  (orders : list saleEvent) :
  foldl (fun '(sales, revenue, orders) data =>
           (sales + 1, Qplus revenue (eventAmount data), orders ++ [data]))
        (sales, revenue, orders) events
  = (sales + Z.of_nat (length events),
     foldl Qplus revenue (map eventAmount events),
     orders ++ events).
Proof.
  revert sales revenue orders.
  induction events as [| e rest IH]; intros sales revenue orders; simpl.
  - now rewrite Z.add_0_r, app_nil_r.
  - rewrite IH. rewrite <- app_assoc. simpl. do 2 f_equal. lia.
Qed.

Lemma getRealTimeSales_run (w : world) :
  exists st,
    Analytics.getRealTimeSales w = (Ok st, w)
    /\ Analytics.statOrders st
       = map snd (List.filter
                    (Redis.inRange (clock w - Analytics.REAL_TIME_WINDOW * 1000) (clock w))
                    (Spec.window w))
    /\ Analytics.totalSales st = Z.of_nat (length (Analytics.statOrders st))
    /\ Analytics.totalRevenue st = Spec.sumAmounts (Analytics.statOrders st).
Proof.
  unfold Analytics.getRealTimeSales, tryCatch.
  unfold bind at 1, dateNow, gets. cbv beta zeta.
  unfold bind at 1, Redis.zrangebyscore, gets. cbv beta.
  unfold Analytics.accumulate. rewrite accumulate_from.
  eexists. split; [reflexivity |]. simpl. repeat split.
Qed.

Lemma ingest_adds (w : world) (t : Z) (order : order) :
  (t, Spec.eventOf order t) ∈ Spec.window (Spec.ingestAt w (t, order)).
Proof.
  rewrite ingest_window. apply in_windowAfter. split; [| now left].
  unfold Redis.inRange, Analytics.REAL_TIME_WINDOW. simpl fst.
  apply andb_false_iff. right. apply Z.leb_gt. lia.
Qed.

Lemma ingest_prunes (w : world) (t : Z) (order : order) :
  Forall (fun sm => fst sm < 0
                    \/ t - Analytics.REAL_TIME_WINDOW * 1000 < fst sm)
    (Spec.window (Spec.ingestAt w (t, order))).
Proof.
  rewrite ingest_window, Forall_forall. intros x Hx.
  apply in_windowAfter in Hx. destruct Hx as [Hout _].
  unfold Redis.inRange in Hout. apply andb_false_iff in Hout.
  destruct Hout as [H | H]; apply Z.leb_gt in H; [left | right]; lia.
Qed.

(** C3. After a sale event is ingested at time T, whatever is ingested
    later, a query made later than T plus the window (300 s) counts no
    member encoding that event, and a query made at or after T and before T
    plus the window, no later ingestion being ahead of the query, returns
    that event among its orders; the totals are the number of the orders
    returned and the sum of their amounts. Ingestion itself leaves the event
    in the sorted set under its timestamp and no entry with a score from 0
    up to now minus the window. *)
Theorem sliding_window
  (w0 : world) (T : Z) (sale : order) (later : list (Z * order)) (queried : Z)
  (Hscored : Spec.scoredByTimestamp w0) :
  let W := Analytics.REAL_TIME_WINDOW * 1000 in
  let e := Spec.eventOf sale T in
  let w1 := Spec.ingestAt w0 (T, sale) in
  let w2 := foldl Spec.ingestAt w1 later in
  Analytics.REAL_TIME_WINDOW = 300
  /\ (T, e) ∈ Spec.window w1
  /\ Forall (fun sm => fst sm < 0 \/ T - W < fst sm) (Spec.window w1)
  /\ exists st wq,
       Analytics.getRealTimeSales (withClock queried w2) = (Ok st, wq)
       /\ Analytics.totalSales st = Z.of_nat (length (Analytics.statOrders st))
       /\ Analytics.totalRevenue st = Spec.sumAmounts (Analytics.statOrders st)
       /\ (T + W < queried ->
           Forall (fun m => Redis.sameMember e m = false) (Analytics.statOrders st))
       /\ (T <= queried < T + W ->
           Forall (fun timed => fst timed <= queried) later ->
           Exists (fun m => Redis.sameMember e m = true) (Analytics.statOrders st)).
Proof.
  intros W e w1 w2.
  split; [reflexivity |].
  split; [apply ingest_adds |].
  split; [apply ingest_prunes |].
  assert (Hs1 : Spec.scoredByTimestamp w1) by now apply ingest_scored.
  assert (Hs2 : Spec.scoredByTimestamp w2) by now apply ingests_scored.
  destruct (getRealTimeSales_run (withClock queried w2)) as (st & Hrun & Horders & Hn & Hsum).
  exists st, (withClock queried w2).
  split; [exact Hrun |]. split; [exact Hn |]. split; [exact Hsum |].
  rewrite Horders, window_withClock. simpl clock. fold W.
  split.
  - intros Hlate. rewrite Forall_forall. intros m Hm.
    apply list_elem_of_fmap in Hm. destruct Hm as ([s m'] & -> & Hin).
    apply list_elem_of_In, filter_In in Hin. destruct Hin as [Hin Hrange].
    apply list_elem_of_In in Hin.
    unfold Spec.scoredByTimestamp in Hs2. rewrite Forall_forall in Hs2.
    specialize (Hs2 _ Hin). simpl in Hs2 |- *.
    destruct (Redis.sameMember e m') eqn:Esame; [| reflexivity].
    apply sameMember_timestamp in Esame. simpl in Esame.
    unfold Redis.inRange in Hrange. simpl in Hrange.
    apply andb_true_iff in Hrange. destruct Hrange as [Hlo _].
    apply Z.leb_le in Hlo. lia.
  - intros Hearly Hlater.
    assert (Hpresent : presentAt T e w2).
    { apply ingests_keep_present; [exact Hs1 | apply ingest_present |].
      eapply Forall_impl; [exact Hlater |]. intros timed Ht. simpl in Ht.
      fold W. lia. }
    destruct Hpresent as (m & Hm & Hsame).
    apply Exists_exists. exists m. split; [| exact Hsame].
    apply list_elem_of_In, in_map_iff. exists (T, m). split; [reflexivity |].
    apply filter_In. split; [now apply list_elem_of_In |].
    unfold Redis.inRange. simpl fst.
    apply andb_true_iff. split; apply Z.leb_le; lia.
Qed.

Lemma sliding_window_witness :
  exists st wq,
    Analytics.getRealTimeSales
      (withClock 1700000400000 (Spec.ingestAt emptyWorld (1700000000000, sampleOrder)))
    = (Ok st, wq)
    /\ Analytics.totalSales st = Z.of_nat (length (Analytics.statOrders st))
    /\ Forall (fun m => Redis.sameMember (Spec.eventOf sampleOrder 1700000000000) m = false)
         (Analytics.statOrders st).
Proof.
  destruct (sliding_window emptyWorld 1700000000000 sampleOrder [] 1700000400000)
    as (_ & _ & _ & st & wq & Hrun & Hn & _ & Hlate & _).
  - constructor.
  - exists st, wq. split; [exact Hrun |]. split; [exact Hn |].
    apply Hlate. unfold Analytics.REAL_TIME_WINDOW. lia.
Defined.

(** *** The abandonment sweep *)

Lemma frames_applyRules {X} (obs : world -> X) (rules : Segmentation.registry)
  (customer : customer) (segments : list string) :
  Forall (fun r => frames obs (snd r customer)) rules ->
  frames obs (Segmentation.applyRules rules customer segments).
Proof.
  revert segments.
  induction rules as [| [name ruleFn] rest IH]; intros segments Hall; simpl.
  - apply frames_ret.
  - inversion Hall as [| r rs Hr Hrs]; subst.
    apply frames_bind; [exact Hr | intros labels; now apply IH].
Qed.

Lemma frames_selectTemplatesLoop {X} (obs : world -> X) (strategy : strategy)
  (channels : list string) (templates : gmap string string) :
  frames obs (CartRecovery.selectTemplatesLoop strategy channels templates).
Proof.
  revert templates.
  induction channels as [| channel rest IH]; intros templates; simpl.
  - apply frames_ret.
  - apply frames_bind; [apply frames_gets | intros t; apply IH].
Qed.

Lemma frames_planAttemptsLoop {X} (obs : world -> X) (cart : cart)
  (strategy : strategy) (intervals : list CartRecovery.interval)
  (attempts : list attempt) :
  frames obs (CartRecovery.planAttemptsLoop cart strategy intervals attempts).
Proof.
  revert attempts.
  induction intervals as [| i rest IH]; intros attempts; simpl.
  - apply frames_ret.
  - destruct (0 <? _); [| apply IH].
    apply frames_bind; [apply frames_gets | intros now].
    apply frames_bind; [apply frames_selectTemplatesLoop | intros t; apply IH].
Qed.

Section Processing.

Context {X : Type} (obs : world -> X) (c : cart).
Hypothesis Hwrites : blindToWrites obs.

Ltac other_key :=
  apply (blindToOtherKeys obs Hwrites); intros ?; distinct_keys.

Ltac frames_auto :=
  repeat first
    [ apply frames_loggerError; apply (blindToLog obs Hwrites)
    | apply frames_mathRandom; apply (blindToRandom obs Hwrites)
    | frames_step ].

Lemma frames_segmentCustomer_default (customer : customer) :
  frames obs (Segmentation.segmentCustomer Segmentation.defaultRules customer).
Proof.
  unfold Segmentation.segmentCustomer.
  apply frames_tryCatch; [| intros e; frames_auto].
  apply frames_bind; [apply frames_redis_get | intros cached].
  destruct (truthy cached); [frames_auto |].
  apply frames_bind.
  - apply frames_applyRules, defaultRules_frame. other_key.
  - intros segments. frames_auto. other_key.
Qed.

Lemma frames_assignABTestVariant (testName customerId : string) :
  frames obs (CartRecovery.assignABTestVariant testName customerId).
Proof.
  unfold CartRecovery.assignABTestVariant, CartRecovery.selectVariant.
  frames_auto. other_key.
Qed.

Lemma frames_determineRecoveryStrategy (customer : customer)
  (segments : list string) :
  frames obs (CartRecovery.determineRecoveryStrategy c customer segments).
Proof.
  unfold CartRecovery.determineRecoveryStrategy.
  repeat (apply frames_bind; [apply frames_assignABTestVariant | intros ?]).
  apply frames_ret.
Qed.

Lemma frames_initializeRecoveryWorkflow (customer : customer)
  (strategy : strategy) :
  blindToProcessing (cartId c) obs ->
  frames obs (CartRecovery.initializeRecoveryWorkflow c customer strategy).
Proof.
  intros Hblind.
  unfold CartRecovery.initializeRecoveryWorkflow, CartRecovery.createRecoveryPlan,
    CartRecovery.scheduleRecoveryAttempt.
  apply frames_tryCatch; [| intros e; frames_auto].
  apply frames_bind.
  - apply frames_bind; [apply frames_planAttemptsLoop | intros ?; apply frames_ret].
  - intros plan. apply frames_bind.
    + apply frames_redis_setex, (blindToPlan (cartId c) obs Hblind).
    + intros _. destruct (head (planAttempts plan)); frames_auto.
      apply frames_modify. intros w. apply (blindToTimer (cartId c) obs Hblind).
Qed.

Lemma frames_logAbandonment : frames obs (CartRecovery.logAbandonment c).
Proof.
  unfold CartRecovery.logAbandonment. frames_auto; other_key.
Qed.

End Processing.

Lemma abandon_eq (c : cart) (w : world) :
  CartModel.abandon c w
  = match cartStatusOf c with
    | Active =>
        if CartModel.validates c
        then (Ok (abandoned (clock w) c),
              withCarts (CartModel.store (abandoned (clock w) c)) w)
        else (Throw (CartModel.validationError c), w)
    | _ => (Ok c, w)
    end.
Proof.
  unfold CartModel.abandon, abandoned.
  destruct (cartStatusOf c); try reflexivity.
  unfold bind, dateNow, gets. rewrite save_eq.
  rewrite (validates_ext c) by reflexivity.
  now destruct (CartModel.validates c).
Qed.

(** The collection after [abandon]: written to only when the cart was
    active and passes validation. *)
Lemma abandon_world (c : cart) (w : world) :
  snd (CartModel.abandon c w)
  = match cartStatusOf c with
    | Active =>
        if CartModel.validates c
        then withCarts (CartModel.store (abandoned (clock w) c)) w
        else w
    | _ => w
    end.
Proof.
  rewrite abandon_eq.
  destruct (cartStatusOf c); try reflexivity.
  now destruct (CartModel.validates c).
Qed.

(** The document [abandon] returns bears the id of the cart. *)
Lemma abandon_returns_id (c c1 : cart) (w w1 : world) :
  CartModel.abandon c w = (Ok c1, w1) -> cartId c1 = cartId c.
Proof.
  rewrite abandon_eq.
  destruct (cartStatusOf c) eqn:Hs; try (now intros [= <- _]).
  destruct (CartModel.validates c); [| discriminate].
  intros [= <- _]. unfold abandoned. now rewrite Hs.
Qed.

Lemma abandoned_id (now : Z) (c : cart) : cartId (abandoned now c) = cartId c.
Proof. unfold abandoned. now destruct (cartStatusOf c). Qed.

Lemma abandoned_status (now : Z) (c : cart) :
  cartStatusOf c = Active -> cartStatusOf (abandoned now c) = Abandoned.
Proof. unfold abandoned. now intros ->. Qed.

(** What follows [cart.abandon()] in processAbandonedCart. *)
Lemma frames_after_abandon {X} (obs : world -> X) (c : cart)
  (customer : option customer) :
  blindToProcessing (cartId c) obs ->
  frames obs
    match customer with
    | None => loggerError CartRecovery.nullCustomer ;;; throw CartRecovery.nullCustomer
    | Some customer =>
        segments <~ Segmentation.segmentCustomer Segmentation.defaultRules customer ;;
        strategy <~ CartRecovery.determineRecoveryStrategy c customer segments ;;
        CartRecovery.initializeRecoveryWorkflow c customer strategy ;;;
        CartRecovery.logAbandonment c
    end.
Proof.
  intros Hblind. pose proof (blindToTheWrites _ _ Hblind) as Hwrites.
  destruct customer as [customer |].
  - apply frames_bind; [now apply frames_segmentCustomer_default |].
    intros segments.
    apply frames_bind; [now apply frames_determineRecoveryStrategy |].
    intros strategy.
    apply frames_bind; [now apply frames_initializeRecoveryWorkflow |].
    intros _. now apply frames_logAbandonment.
  - apply frames_bind; [| intros _; apply frames_throw].
    apply frames_loggerError, (blindToLog _ Hwrites).
Qed.

Lemma process_after_abandon {X} (obs : world -> X) (c : cart)
  (customer : option customer) (w : world) :
  blindToProcessing (cartId c) obs ->
  obs (snd (CartRecovery.processAbandonedCart Segmentation.defaultRules
              (c, customer) w))
  = obs (snd (CartModel.abandon c w)).
Proof.
  intros Hblind. unfold CartRecovery.processAbandonedCart.
  rewrite obs_tryCatch_frames
    by (intros e;
        apply frames_loggerError, (blindToLog _ (blindToTheWrites _ _ Hblind))).
  unfold bind at 1.
  destruct (CartModel.abandon c w) as [[c1 | e] w1] eqn:Eabandon;
    [| reflexivity].
  match goal with
  | |- obs (snd (?k ?w1)) = _ =>
      destruct (k w1) as [r w2] eqn:Ek
  end.
  simpl snd.
  refine (frames_after_abandon obs c1 customer _ _ _ _ Ek).
  now rewrite (abandon_returns_id _ _ _ _ Eabandon).
Qed.

Lemma process_returns (populated : cart * option customer) (w : world) :
  fst (CartRecovery.processAbandonedCart Segmentation.defaultRules populated w)
  = Ok tt.
Proof.
  destruct populated as [c customer].
  unfold CartRecovery.processAbandonedCart, tryCatch.
  match goal with
  | |- fst (let (r, w') := ?body w in _) = _ =>
      destruct (body w) as [[[] | e] w1]
  end; reflexivity.
Qed.

Lemma forEach_cons_returns {A} (x : A) (xs : list A) (body : A -> M unit)
  (w : world) :
  fst (body x w) = Ok tt ->
  forEach (x :: xs) body w = forEach xs body (snd (body x w)).
Proof.
  simpl. unfold bind. destruct (body x w) as [[[] | e] w1]; simpl.
  - reflexivity.
  - discriminate.
Qed.

Lemma forEach_returns {A} (xs : list A) (body : A -> M unit) (w : world) :
  (forall x w, fst (body x w) = Ok tt) -> fst (forEach xs body w) = Ok tt.
Proof.
  intros Hbody. revert w. induction xs as [| x rest IH]; intros w.
  - reflexivity.
  - rewrite forEach_cons_returns by apply Hbody. apply IH.
Qed.

(** Instances of blindness. *)

Lemma planKey_inj (a b : string) :
  CartRecovery.planKey a = CartRecovery.planKey b -> a = b.
Proof.
  unfold CartRecovery.planKey. intros H.
  apply (inj (String.append "cart:")) in H.
  now apply append_inv_tail in H.
Qed.

Lemma keyBlind_trivial {X} (key : string) (obs : world -> X) :
  (forall f w, obs (withRedisStrings f w) = obs w) -> keyBlind key obs.
Proof. intros Hobs w. split; [intros e |]; apply Hobs. Qed.

Lemma blindToWrites_trivial {X} (obs : world -> X) :
  (forall f w, obs (withRedisStrings f w) = obs w) ->
  (forall f w, obs (withErrorLog f w) = obs w) ->
  (forall n w, obs (withRandomIndex n w) = obs w) ->
  blindToWrites obs.
Proof. intros Hr Hl Hn. split; [| exact Hl | exact Hn]. intros k _. now apply keyBlind_trivial. Qed.

Lemma blind_dbCarts (id : string) : blindToProcessing id dbCarts.
Proof.
  split; [now apply blindToWrites_trivial | now apply keyBlind_trivial |
          reflexivity].
Qed.

Lemma blind_cartAt (id target : string) : blindToProcessing id (cartAt target).
Proof.
  split; [now apply blindToWrites_trivial | now apply keyBlind_trivial |
          reflexivity].
Qed.

Lemma blindToWrites_timersOf (target : string) : blindToWrites (timersOf target).
Proof. now apply blindToWrites_trivial. Qed.

Lemma blind_cachedAt (id target : string) :
  id <> target -> blindToProcessing id (cachedAt (CartRecovery.planKey target)).
Proof.
  intros Hne. split; [split | | reflexivity]; try reflexivity.
  - intros k Hk. apply keyBlind_cachedAt, Hk.
  - apply keyBlind_cachedAt. intros H. now apply planKey_inj in H.
Qed.

Lemma blind_timersOf (id target : string) :
  id <> target -> blindToProcessing id (timersOf target).
Proof.
  intros Hne.
  split; [apply blindToWrites_timersOf | now apply keyBlind_trivial |].
  intros due attempt w. unfold timersOf. simpl.
    rewrite List.filter_app. simpl.
    apply String.eqb_neq in Hne. rewrite Hne. apply app_nil_r.
Qed.

(** Processing a cart leaves every other cart's document, plan and timers
    alone. *)
Lemma process_frames_other {X} (obs : world -> X) (c : cart)
  (customer : option customer) :
  blindToProcessing (cartId c) obs ->
  (forall c' w, cartId c' = cartId c ->
                obs (withCarts (CartModel.store c') w) = obs w) ->
  frames obs
    (CartRecovery.processAbandonedCart Segmentation.defaultRules (c, customer)).
Proof.
  intros Hblind Hstore w r w' Hrun.
  replace w' with
    (snd (CartRecovery.processAbandonedCart Segmentation.defaultRules
            (c, customer) w)) by now rewrite Hrun.
  rewrite process_after_abandon by exact Hblind.
  rewrite abandon_world.
  destruct (cartStatusOf c); try reflexivity.
  destruct (CartModel.validates c); [| reflexivity].
  apply Hstore, abandoned_id.
Qed.

Lemma cartAt_store_other (c : cart) (target : string) (w : world) :
  cartId c <> target ->
  cartAt target (withCarts (CartModel.store c) w) = cartAt target w.
Proof. intros Hne. unfold cartAt. simpl. now apply cartFind_store_other. Qed.

Lemma process_frames_cartAt (c : cart) (customer : option customer)
  (target : string) :
  cartId c <> target ->
  frames (cartAt target)
    (CartRecovery.processAbandonedCart Segmentation.defaultRules (c, customer)).
Proof.
  intros Hne. apply process_frames_other; [apply blind_cartAt |].
  intros c' w Hid. apply cartAt_store_other. congruence.
Qed.

Lemma process_frames_cachedAt (c : cart) (customer : option customer)
  (target : string) :
  cartId c <> target ->
  frames (cachedAt (CartRecovery.planKey target))
    (CartRecovery.processAbandonedCart Segmentation.defaultRules (c, customer)).
Proof.
  intros Hne. apply process_frames_other; [now apply blind_cachedAt |].
  reflexivity.
Qed.

Lemma process_frames_timersOf (c : cart) (customer : option customer)
  (target : string) :
  cartId c <> target ->
  frames (timersOf target)
    (CartRecovery.processAbandonedCart Segmentation.defaultRules (c, customer)).
Proof.
  intros Hne. apply process_frames_other; [now apply blind_timersOf |].
  reflexivity.
Qed.

Lemma cartLocal_cartAt (target : string) : cartLocal target (cartAt target).
Proof.
  split; [intros id _; apply blind_cartAt |].
  intros c w Hne. now apply cartAt_store_other.
Qed.

Lemma cartLocal_cachedAt (target : string) :
  cartLocal target (cachedAt (CartRecovery.planKey target)).
Proof. split; [intros id Hne; now apply blind_cachedAt | reflexivity]. Qed.

Lemma cartLocal_timersOf (target : string) : cartLocal target (timersOf target).
Proof. split; [intros id Hne; now apply blind_timersOf | reflexivity]. Qed.

Lemma sweep_frames {X} (obs : world -> X) (target : string)
  (l : list (cart * option customer)) :
  cartLocal target obs ->
  Forall (fun x => cartId (fst x) <> target) l ->
  frames obs
    (forEach l (CartRecovery.processAbandonedCart Segmentation.defaultRules)).
Proof.
  intros [Hblind Hstore] Hall. apply frames_forEach.
  intros [c customer] Hin.
  rewrite Forall_forall in Hall. specialize (Hall _ Hin). simpl in Hall.
  apply process_frames_other; [now apply Hblind |].
  intros c' w Hid. apply Hstore. congruence.
Qed.

Lemma detect_eq (w : world) :
  snd (CartRecovery.detectAbandonedCarts Segmentation.defaultRules w)
  = snd (forEach (map (populate w) (selectedAt (clock w) w))
           (CartRecovery.processAbandonedCart Segmentation.defaultRules) w).
Proof.
  unfold CartRecovery.detectAbandonedCarts, tryCatch.
  unfold bind at 1, dateNow, gets. cbv beta zeta.
  unfold bind at 1, CartRecovery.findPotentiallyAbandoned, gets. cbv beta.
  fold (selectedAt (clock w) w).
  change (fun c : cart => (c, dbCustomers w !! cartCustomer c)) with (populate w).
  pose proof (forEach_returns (map (populate w) (selectedAt (clock w) w))
                (CartRecovery.processAbandonedCart Segmentation.defaultRules) w
                process_returns) as Hok.
  destruct (forEach _ _ w) as [[[] | e] w1]; [reflexivity | discriminate Hok].
Qed.

Lemma process_marks (c : cart) (customer : option customer) (w : world) :
  cartStatusOf c = Active ->
  CartModel.validates c = true ->
  cartAt (cartId c)
    (snd (CartRecovery.processAbandonedCart Segmentation.defaultRules
            (c, customer) w))
  = Some (abandoned (clock w) c).
Proof.
  intros Hactive Hvalid.
  rewrite process_after_abandon by apply blind_cartAt.
  rewrite abandon_world, Hactive, Hvalid.
  apply cartAt_saved, abandoned_id.
Qed.

(** A selected cart that fails validation is not abandoned: the refusal of
    its save is logged and nothing else happens. *)
Lemma process_refused (rules : Segmentation.registry) (c : cart)
  (customer : option customer) (w : world) :
  cartStatusOf c = Active ->
  CartModel.validates c = false ->
  CartRecovery.processAbandonedCart rules (c, customer) w
  = (Ok tt, withErrorLog (fun l => l ++ [CartModel.validationError c]) w).
Proof.
  intros Hactive Hinvalid.
  unfold CartRecovery.processAbandonedCart, tryCatch.
  unfold bind at 1. rewrite abandon_eq, Hactive, Hinvalid. reflexivity.
Qed.

Lemma sweep_marks (l : list (cart * option customer)) (w : world) (c : cart)
  (customer : option customer) :
  NoDup (map (fun x => cartId (fst x)) l) ->
  (c, customer) ∈ l ->
  cartStatusOf c = Active ->
  CartModel.validates c = true ->
  exists now,
    cartAt (cartId c)
      (snd (forEach l
              (CartRecovery.processAbandonedCart Segmentation.defaultRules) w))
    = Some (abandoned now c).
Proof.
  revert w. induction l as [| x rest IH]; intros w Hunique Hin Hactive Hvalid.
  - inversion Hin.
  - rewrite forEach_cons_returns by apply process_returns.
    inversion Hunique as [| id ids Hfresh Hrest]; subst.
    apply elem_of_cons in Hin. destruct Hin as [<- | Hin].
    + exists (clock w).
      assert (Hothers : Forall (fun y => cartId (fst y) <> cartId c) rest).
      { rewrite Forall_forall. intros y Hy Heq. apply Hfresh.
        simpl. rewrite <- Heq.
        apply list_elem_of_In, in_map_iff. exists y.
        split; [reflexivity | now apply list_elem_of_In]. }
      destruct (forEach rest _ _) as [r w'] eqn:Erest. simpl snd.
      rewrite (sweep_frames (cartAt (cartId c)) (cartId c) rest
                 (cartLocal_cartAt _) Hothers _ _ _ Erest).
      now apply process_marks.
    + now apply IH.
Qed.

Lemma store_ids (c : cart) (carts : list cart) :
  uniqueIds carts -> uniqueIds (CartModel.store c carts).
Proof.
  unfold uniqueIds.
  assert (Hids : map cartId (CartModel.store c carts) = map cartId carts
                 \/ ((cartId c ∉ map cartId carts)
                     /\ map cartId (CartModel.store c carts)
                        = map cartId carts ++ [cartId c])).
  { induction carts as [| c0 rest IH]; simpl.
    - right. split; [intros H; inversion H | reflexivity].
    - destruct (String.eqb (cartId c0) (cartId c)) eqn:E; simpl.
      + apply String.eqb_eq in E. left. now rewrite E.
      + apply String.eqb_neq in E.
        destruct IH as [-> | [Hout ->]]; [now left | right].
        split; [| reflexivity].
        rewrite not_elem_of_cons. split; [congruence | exact Hout]. }
  intros Hunique. destruct Hids as [-> | [Hout ->]]; [exact Hunique |].
  apply NoDup_app. split; [exact Hunique |]. split.
  - intros x Hx Hlast. apply list_elem_of_singleton in Hlast. now subst.
  - apply NoDup_singleton.
Qed.

Lemma process_unique (x : cart * option customer) (w : world) :
  uniqueIds (dbCarts w) ->
  uniqueIds
    (dbCarts (snd (CartRecovery.processAbandonedCart Segmentation.defaultRules x w))).
Proof.
  destruct x as [c customer]. intros Hunique.
  rewrite (process_after_abandon dbCarts) by apply blind_dbCarts.
  rewrite abandon_world.
  destruct (cartStatusOf c); try exact Hunique.
  destruct (CartModel.validates c); [| exact Hunique].
  simpl. now apply store_ids.
Qed.

Lemma sweep_unique (l : list (cart * option customer)) (w : world) :
  uniqueIds (dbCarts w) ->
  uniqueIds
    (dbCarts (snd (forEach l
                     (CartRecovery.processAbandonedCart Segmentation.defaultRules)
                     w))).
Proof.
  revert w. induction l as [| x rest IH]; intros w Hunique.
  - exact Hunique.
  - rewrite forEach_cons_returns by apply process_returns.
    apply IH. now apply process_unique.
Qed.

Lemma unique_find (carts : list cart) (c : cart) :
  uniqueIds carts -> c ∈ carts -> CartModel.findById (cartId c) carts = Some c.
Proof.
  unfold uniqueIds, CartModel.findById.
  induction carts as [| c0 rest IH]; intros Hunique Hin; [inversion Hin |].
  simpl in *. inversion Hunique as [| id ids Hfresh Hrest]; subst.
  apply elem_of_cons in Hin. destruct Hin as [-> | Hin].
  - now rewrite String.eqb_refl.
  - destruct (String.eqb (cartId c0) (cartId c)) eqn:E; [| now apply IH].
    apply String.eqb_eq in E. exfalso. apply Hfresh. rewrite E.
    apply list_elem_of_In, in_map. now apply list_elem_of_In.
Qed.

(** At most one attempt is scheduled per processed cart. *)

Lemma schedules_of_frames {A} (target : string) (m : M A) :
  frames (timersOf target) m -> schedulesAtMostOne target m.
Proof. intros Hm w r w' Hrun. rewrite (Hm _ _ _ Hrun). lia. Qed.

Lemma schedules_bind_left {A B} (target : string) (m : M A) (k : A -> M B) :
  frames (timersOf target) m ->
  (forall a, schedulesAtMostOne target (k a)) ->
  schedulesAtMostOne target (bind m k).
Proof.
  intros Hm Hk w r w' Hrun. unfold bind in Hrun.
  destruct (m w) as [[a | e] w1] eqn:Em.
  - rewrite <- (Hm _ _ _ Em). exact (Hk a _ _ _ Hrun).
  - inversion Hrun; subst. rewrite (Hm _ _ _ Em). lia.
Qed.

Lemma schedules_bind_right {A B} (target : string) (m : M A) (k : A -> M B) :
  schedulesAtMostOne target m ->
  (forall a, frames (timersOf target) (k a)) ->
  schedulesAtMostOne target (bind m k).
Proof.
  intros Hm Hk w r w' Hrun. unfold bind in Hrun.
  destruct (m w) as [[a | e] w1] eqn:Em.
  - rewrite (Hk a _ _ _ Hrun). exact (Hm _ _ _ Em).
  - inversion Hrun; subst. exact (Hm _ _ _ Em).
Qed.

Lemma schedules_tryCatch {A} (target : string) (body : M A)
  (handler : jsError -> M A) :
  schedulesAtMostOne target body ->
  (forall e, frames (timersOf target) (handler e)) ->
  schedulesAtMostOne target (tryCatch body handler).
Proof.
  intros Hb Hh w r w' Hrun. unfold tryCatch in Hrun.
  destruct (body w) as [[a | e] w1] eqn:Eb.
  - inversion Hrun; subst. exact (Hb _ _ _ Eb).
  - rewrite (Hh e _ _ _ Hrun). exact (Hb _ _ _ Eb).
Qed.

Lemma schedule_one (target : string) (c : cart) (attempt : option attempt) :
  schedulesAtMostOne target (CartRecovery.scheduleRecoveryAttempt c attempt).
Proof.
  unfold CartRecovery.scheduleRecoveryAttempt.
  destruct attempt as [a |]; [| apply schedules_of_frames, frames_throw].
  apply schedules_bind_left; [apply frames_gets | intros now].
  intros w r w' Hrun. inversion Hrun; subst. unfold timersOf. simpl.
  rewrite List.filter_app, length_app. simpl.
  destruct (String.eqb (cartId c) target); simpl; lia.
Qed.

Lemma process_schedules_one (target : string) (x : cart * option customer) :
  schedulesAtMostOne target
    (CartRecovery.processAbandonedCart Segmentation.defaultRules x).
Proof.
  destruct x as [c customer].
  pose proof (blindToWrites_timersOf target) as Hwrites.
  unfold CartRecovery.processAbandonedCart.
  apply schedules_tryCatch;
    [| intros e; apply frames_loggerError; reflexivity].
  apply schedules_bind_left.
  { intros w r w' Hrun.
    replace w' with (snd (CartModel.abandon c w)) by now rewrite Hrun.
    rewrite abandon_world.
    destruct (cartStatusOf c); try reflexivity.
    now destruct (CartModel.validates c). }
  intros c1. destruct customer as [customer |].
  - apply schedules_bind_left;
      [now apply frames_segmentCustomer_default | intros segments].
    apply schedules_bind_left;
      [now apply frames_determineRecoveryStrategy | intros strategy].
    apply schedules_bind_right;
      [| intros _; now apply frames_logAbandonment].
    unfold CartRecovery.initializeRecoveryWorkflow.
    apply schedules_tryCatch;
      [| intros e; apply frames_loggerError; reflexivity].
    apply schedules_bind_left.
    { unfold CartRecovery.createRecoveryPlan.
      apply frames_bind; [apply frames_planAttemptsLoop | intros ?; apply frames_ret]. }
    intros plan. apply schedules_bind_left.
    { apply frames_redis_setex. now apply keyBlind_trivial. }
    intros _. apply schedule_one.
  - apply schedules_of_frames.
    apply frames_bind; [| intros _; apply frames_throw].
    apply frames_loggerError. reflexivity.
Qed.

Lemma sweep_schedules_one (target : string) (l : list (cart * option customer))
  (w : world) :
  NoDup (map (fun x => cartId (fst x)) l) ->
  (length (timersOf target
             (snd (forEach l
                     (CartRecovery.processAbandonedCart Segmentation.defaultRules)
                     w)))
   <= length (timersOf target w) + 1)%nat.
Proof.
  revert w. induction l as [| x rest IH]; intros w Hunique.
  - simpl. lia.
  - rewrite forEach_cons_returns by apply process_returns.
    inversion Hunique as [| id ids Hfresh Hrest]; subst.
    destruct (decide (cartId (fst x) = target)) as [Heq | Hne].
    + assert (Hothers : Forall (fun y => cartId (fst y) <> target) rest).
      { rewrite Forall_forall. intros y Hy Hid. apply Hfresh.
        rewrite Heq, <- Hid.
        apply list_elem_of_In, in_map_iff. exists y.
        split; [reflexivity | now apply list_elem_of_In]. }
      destruct (forEach rest _ _) as [r w'] eqn:Erest. simpl snd.
      rewrite (sweep_frames (timersOf target) target rest
                 (cartLocal_timersOf _) Hothers _ _ _ Erest).
      destruct (CartRecovery.processAbandonedCart _ x w) as [r1 w1] eqn:E1.
      simpl snd. exact (process_schedules_one target x _ _ _ E1).
    + destruct (CartRecovery.processAbandonedCart _ x w) as [r1 w1] eqn:E1.
      simpl snd. destruct x as [c customer].
      rewrite <- (process_frames_timersOf c customer target Hne _ _ _ E1).
      now apply IH.
Qed.

Lemma selected_unique (now : Z) (w : world) :
  uniqueIds (dbCarts w) -> uniqueIds (selectedAt now w).
Proof.
  unfold selectedAt, uniqueIds.
  induction (dbCarts w) as [| c0 rest IH]; intros Hunique; simpl.
  - constructor.
  - inversion Hunique as [| id ids Hfresh Hrest]; subst.
    destruct (CartRecovery.potentiallyAbandoned _ c0); [| now apply IH].
    simpl. constructor; [| now apply IH].
    intros Hc0. apply Hfresh.
    apply list_elem_of_In, in_map_iff in Hc0.
    destruct Hc0 as (y & Hy & Hyin). apply filter_In in Hyin.
    apply list_elem_of_In, in_map_iff. exists y. tauto.
Qed.

(** A sweep leaves alone what belongs to a cart it cannot abandon: one
    whose stored document is not active, or fails validation. *)
Lemma sweep_keeps {X} (obs : world -> X) (target : string) (stored : cart)
  (w : world) :
  uniqueIds (dbCarts w) ->
  cartAt target w = Some stored ->
  cartStatusOf stored <> Active \/ CartModel.validates stored = false ->
  cartLocal target obs ->
  (forall f w, obs (withErrorLog f w) = obs w) ->
  obs (snd (CartRecovery.detectAbandonedCarts Segmentation.defaultRules w))
  = obs w.
Proof.
  intros Hunique Hstored Hkept [Hblind Hstore] Hlog. rewrite detect_eq.
  destruct (forEach _ _ w) as [r w'] eqn:Erun. simpl snd.
  revert Erun. apply frames_forEach. intros [c' customer] Hx.
  apply list_elem_of_In, in_map_iff in Hx.
  destruct Hx as (y & Hy & Hyin). injection Hy as -> _.
  apply filter_In in Hyin. destruct Hyin as [Hyin Hquery].
  apply list_elem_of_In in Hyin.
  destruct (decide (cartId c' = target)) as [Hid | Hother].
  - pose proof (unique_find _ _ Hunique Hyin) as Hfound.
    rewrite Hid in Hfound. unfold cartAt in Hstored.
    rewrite Hstored in Hfound. injection Hfound as ->.
    assert (Hactive : cartStatusOf c' = Active).
    { unfold CartRecovery.potentiallyAbandoned in Hquery.
      destruct (cartStatusOf c'); try discriminate Hquery. reflexivity. }
    destruct Hkept as [Hnot | Hinvalid]; [contradiction |].
    intros w0 r0 w0' Hrun.
    rewrite (process_refused _ _ _ _ Hactive Hinvalid) in Hrun.
    injection Hrun as _ <-. apply Hlog.
  - apply process_frames_other; [now apply Hblind |].
    intros c0 w0 Hid. apply Hstore. congruence.
Qed.

(** C9. Let the sweep run, and run again at any later time with nothing
    else happening in between. A cart the first sweep selected, its document
    passing validation, is left abandoned by it, so the second sweep's query,
    which matches active carts only, selects no cart with that id. A
    selected cart whose document fails validation cannot be saved: the first
    sweep leaves its document as it was and stores no plan and no timer for
    it. Either way the second sweep leaves the cart's recovery plan, its
    scheduled attempts and its document exactly as the first sweep left
    them, and the first sweep selects each cart once and schedules at most
    one attempt, the first of the one plan it stores, for it. *)
Theorem second_sweep_is_noop
  (w : world) (later : Z) (c : cart)
  (Hunique : uniqueIds (dbCarts w))
  (Hselected : c ∈ selectedAt (clock w) w) :
  let sweep := CartRecovery.detectAbandonedCarts Segmentation.defaultRules in
  let w1 := snd (sweep w) in
  let w2 := snd (sweep (withClock later w1)) in
  uniqueIds (selectedAt (clock w) w)
  /\ (length (timersOf (cartId c) w1) <= length (timersOf (cartId c) w) + 1)%nat
  /\ (if CartModel.validates c
      then cartStatusOf <$> cartAt (cartId c) w1 = Some Abandoned
           /\ Forall (fun c' => cartId c' <> cartId c) (selectedAt later w1)
      else cartAt (cartId c) w1 = Some c
           /\ cachedAt (CartRecovery.planKey (cartId c)) w1
              = cachedAt (CartRecovery.planKey (cartId c)) w
           /\ timersOf (cartId c) w1 = timersOf (cartId c) w)
  /\ cachedAt (CartRecovery.planKey (cartId c)) w2
     = cachedAt (CartRecovery.planKey (cartId c)) w1
  /\ timersOf (cartId c) w2 = timersOf (cartId c) w1
  /\ cartAt (cartId c) w2 = cartAt (cartId c) w1
  /\ CartRecovery.planKey (cartId c) = "cart:" +:+ cartId c +:+ ":recovery_plan".
Proof.
  intros sweep w1 w2.
  assert (Hin : c ∈ dbCarts w /\ cartStatusOf c = Active).
  { unfold selectedAt in Hselected.
    apply list_elem_of_In, filter_In in Hselected.
    destruct Hselected as [Hin Hquery]. split; [now apply list_elem_of_In |].
    unfold CartRecovery.potentiallyAbandoned in Hquery.
    destruct (cartStatusOf c); try discriminate Hquery. reflexivity. }
  destruct Hin as [Hin Hactive].
  assert (Hunique1 : uniqueIds (dbCarts w1)).
  { unfold w1, sweep. rewrite detect_eq. now apply sweep_unique. }
  assert (Hstored : exists stored,
             cartAt (cartId c) w1 = Some stored
             /\ (cartStatusOf stored <> Active
                 \/ CartModel.validates stored = false)
             /\ if CartModel.validates c
                then cartStatusOf stored = Abandoned
                else stored = c
                     /\ cachedAt (CartRecovery.planKey (cartId c)) w1
                        = cachedAt (CartRecovery.planKey (cartId c)) w
                     /\ timersOf (cartId c) w1 = timersOf (cartId c) w).
  { destruct (CartModel.validates c) eqn:Hvalid.
    - assert (Hmarked : exists now,
                 cartAt (cartId c) w1 = Some (abandoned now c)).
      { unfold w1, sweep. rewrite detect_eq.
        apply sweep_marks with (customer := dbCustomers w !! cartCustomer c).
        - rewrite map_map. simpl. now apply selected_unique.
        - apply list_elem_of_In, in_map_iff. exists c.
          split; [reflexivity | now apply list_elem_of_In].
        - exact Hactive.
        - exact Hvalid. }
      destruct Hmarked as [now Hmarked]. exists (abandoned now c).
      split; [exact Hmarked |].
      rewrite (abandoned_status _ _ Hactive).
      split; [left; discriminate | reflexivity].
    - exists c.
      pose proof (unique_find _ _ Hunique Hin) as Hfound.
      assert (Hkeeps : forall {X} (obs : world -> X),
                 cartLocal (cartId c) obs ->
                 (forall f w, obs (withErrorLog f w) = obs w) ->
                 obs w1 = obs w).
      { intros X obs Hlocal Hlog. unfold w1, sweep.
        apply (sweep_keeps obs (cartId c) c); auto. }
      split.
      { rewrite (Hkeeps _ (cartAt (cartId c)) (cartLocal_cartAt _))
          by reflexivity.
        exact Hfound. }
      split; [now right |].
      split; [reflexivity |].
      split;
        [apply Hkeeps; [apply cartLocal_cachedAt | reflexivity]
        | apply Hkeeps; [apply cartLocal_timersOf | reflexivity]]. }
  destruct Hstored as (stored & Hstored & Hkept & Hfirst).
  assert (Hnoop : forall {X} (obs : world -> X),
             cartLocal (cartId c) obs ->
             (forall f w, obs (withErrorLog f w) = obs w) ->
             (forall t w, obs (withClock t w) = obs w) ->
             obs w2 = obs w1).
  { intros X obs Hlocal Hlog Hclock. unfold w2, sweep.
    rewrite (sweep_keeps obs (cartId c) stored (withClock later w1));
      auto. }
  split; [now apply selected_unique |].
  split.
  { unfold w1, sweep. rewrite detect_eq. apply sweep_schedules_one.
    rewrite map_map. simpl. now apply selected_unique. }
  split.
  { destruct (CartModel.validates c).
    - split; [now rewrite Hstored; simpl; rewrite Hfirst |].
      rewrite Forall_forall. intros c' Hc' Hid.
      unfold selectedAt in Hc'. apply list_elem_of_In, filter_In in Hc'.
      destruct Hc' as [Hc'in Hquery]. apply list_elem_of_In in Hc'in.
      pose proof (unique_find _ _ Hunique1 Hc'in) as Hfound.
      rewrite Hid in Hfound. unfold cartAt in Hstored.
      rewrite Hstored in Hfound. injection Hfound as <-.
      unfold CartRecovery.potentiallyAbandoned in Hquery.
      rewrite Hfirst in Hquery. discriminate Hquery.
    - destruct Hfirst as (-> & Hplan & Htimers). now repeat split. }
  split; [apply Hnoop; [apply cartLocal_cachedAt | reflexivity | reflexivity] |].
  split; [apply Hnoop; [apply cartLocal_timersOf | reflexivity | reflexivity] |].
  split; [apply Hnoop; [apply cartLocal_cartAt | reflexivity | reflexivity] |].
  reflexivity.
Qed.

Lemma second_sweep_is_noop_witness :
  let sweep := CartRecovery.detectAbandonedCarts Segmentation.defaultRules in
  let w1 := snd (sweep sweepWorld) in
  let w2 := snd (sweep (withClock 1700000001000 w1)) in
  cartStatusOf <$> cartAt "cart1" w1 = Some Abandoned
  /\ cachedAt (CartRecovery.planKey "cart1") w2
     = cachedAt (CartRecovery.planKey "cart1") w1
  /\ timersOf "cart1" w2 = timersOf "cart1" w1.
Proof.
  destruct (second_sweep_is_noop sweepWorld 1700000001000 staleCart)
    as (_ & _ & Hmarked & Hplan & Htimers & _).
  - unfold uniqueIds. simpl. apply (bool_decide_unpack _). vm_compute. exact I.
  - vm_compute. left.
  - split; [exact (proj1 Hmarked) |]. split; [exact Hplan | exact Htimers].
Defined.

(* ===================================================================== *)
(** ** Further properties of the code *)
(* ===================================================================== *)

(** *** Editing the items of a cart *)

Lemma preSave_total (c : cart) :
  totalValue (CartModel.preSave c) = CartItems.itemsTotal (cartItems c).
Proof. reflexivity. Qed.

(** What a successful save guarantees. *)
Lemma save_returns (c c' : cart) (w w' : world) :
  CartModel.save c w = (Ok c', w') ->
  c' = CartModel.preSave c
  /\ w' = withCarts (CartModel.store c') w
  /\ CartModel.validates c = true.
Proof.
  rewrite save_eq. destruct (CartModel.validates c); intros H.
  - now inversion H.
  - discriminate H.
Qed.

Lemma save_throws (c : cart) (e : jsError) (w w' : world) :
  CartModel.save c w = (Throw e, w') ->
  w' = w /\ e = CartModel.validationError c
  /\ CartModel.validates c = false.
Proof.
  rewrite save_eq. destruct (CartModel.validates c); intros H.
  - discriminate H.
  - now inversion H.
Qed.

(** The three edits as one save of a changed document. *)
Lemma edit_cases (e : CartItems.edit) (c : cart) (w : world) :
  (exists err, CartItems.apply e c w = (Throw err, w)
               /\ (err = JsError "Error" "Product not found"
                   \/ err = JsError "Error" "Item not found in cart"))
  \/ exists items,
       CartItems.apply e c w
       = CartModel.save
           (CartModel.setLastActivity (clock w) (CartItems.setItems items c)) w.
Proof.
  destruct e as [products p q | p | p q]; simpl.
  - unfold CartItems.addItem.
    destruct (List.find _ (cartItems c)).
    + right. eexists. reflexivity.
    + destruct (products !! p).
      * right. eexists. reflexivity.
      * left. eexists. split; [reflexivity | now left].
  - right. eexists. reflexivity.
  - unfold CartItems.updateQuantity.
    destruct (List.find _ (cartItems c)).
    + right. eexists. reflexivity.
    + left. eexists. split; [reflexivity | now right].
Qed.

(** X1. An edit of the items that returns has written the document it
    returns: its quantities are all at least 1, its totalValue is the sum of
    price times quantity over its items, its lastActivity is the time of the
    edit, and its status, customer and recovery log are those of before. *)
Theorem cart_edit_keeps_total
  (e : CartItems.edit) (c c' : cart) (w w' : world)
  (Hrun : CartItems.apply e c w = (Ok c', w')) :
  totalValue c' = CartItems.itemsTotal (cartItems c')
  /\ CartModel.validates c' = true
  /\ Forall (fun line => 1 <= itemQuantity line) (cartItems c')
  /\ cartAt (cartId c) w' = Some c'
  /\ lastActivity c' = clock w
  /\ cartStatusOf c' = cartStatusOf c
  /\ cartCustomer c' = cartCustomer c
  /\ recoveryAttempts c' = recoveryAttempts c.
Proof.
  destruct (edit_cases e c w) as [(err & Hthrow & _) | (items & Hsave)].
  - rewrite Hthrow in Hrun. discriminate Hrun.
  - rewrite Hsave in Hrun. apply save_returns in Hrun.
    destruct Hrun as (-> & -> & Hvalid).
    repeat split; try exact Hvalid; [| now apply cartAt_saved].
    unfold CartModel.validates in Hvalid. apply andb_true_iff in Hvalid.
    destruct Hvalid as [Hitems _]. rewrite forallb_forall in Hitems.
    apply Forall_forall. intros line Hline.
    apply Z.leb_le, Hitems. now apply list_elem_of_In.
Qed.

Lemma cart_edit_keeps_total_witness :
  exists c' w',
    CartItems.apply (CartItems.AddItem priceList "p3" 3) twoLineCart emptyWorld
    = (Ok c', w')
    /\ totalValue c' = CartItems.itemsTotal (cartItems c')
    /\ cartAt "cart9" w' = Some c'.
Proof.
  assert (Hrun : exists c' w',
             CartItems.apply (CartItems.AddItem priceList "p3" 3) twoLineCart
               emptyWorld = (Ok c', w'))
    by (eexists _, _; vm_compute; reflexivity).
  destruct Hrun as (c' & w' & Hrun). exists c', w'.
  split; [exact Hrun |].
  destruct (cart_edit_keeps_total _ _ _ _ _ Hrun)
    as (Htotal & _ & _ & Hstored & _).
  split; [exact Htotal | exact Hstored].
Defined.

(** X2. An edit of the items that throws has written nothing: the world is
    the one it started from, and the error is the missing product, the
    missing item, or the ValidationError of a save that refused the edited
    document, whose message names the failing paths. *)
Theorem cart_edit_failure_writes_nothing
  (e : CartItems.edit) (c : cart) (err : jsError) (w w' : world)
  (Hrun : CartItems.apply e c w = (Throw err, w')) :
  w' = w
  /\ (err = JsError "Error" "Product not found"
      \/ err = JsError "Error" "Item not found in cart"
      \/ errName err = "ValidationError").
Proof.
  destruct (edit_cases e c w) as [(err' & Hthrow & Hname) | (items & Hsave)].
  - rewrite Hthrow in Hrun. inversion Hrun; subst. split; [reflexivity | tauto].
  - rewrite Hsave in Hrun. apply save_throws in Hrun.
    destruct Hrun as (-> & -> & _). split; [reflexivity |]. right. now right.
Qed.

Lemma cart_edit_failure_writes_nothing_witness :
  CartItems.apply (CartItems.UpdateQuantity "p1" 0) twoLineCart emptyWorld
  = (Throw
       (JsError "ValidationError"
          "Cart validation failed: items.0.quantity: Path `quantity` (0) is less than minimum allowed value (1)."),
     emptyWorld).
Proof.
  assert (Hrun : exists err w',
             CartItems.apply (CartItems.UpdateQuantity "p1" 0) twoLineCart
               emptyWorld = (Throw err, w')
             /\ err = JsError "ValidationError"
                        "Cart validation failed: items.0.quantity: Path `quantity` (0) is less than minimum allowed value (1).")
    by (eexists _, _; split; vm_compute; reflexivity).
  destruct Hrun as (err & w' & Hrun & ->).
  destruct (cart_edit_failure_writes_nothing _ _ _ _ _ Hrun) as [-> _].
  exact Hrun.
Defined.

Lemma addQuantity_split (p : string) (q : Z) (items : list cartItem)
  (line : cartItem) :
  List.find (CartItems.sameProduct p) items = Some line ->
  exists before after,
    items = before ++ line :: after
    /\ Forall (fun item => itemProduct item <> p) before
    /\ itemProduct line = p
    /\ CartItems.addQuantity p q items
       = before
         ++ CartItem (itemProduct line) (itemQuantity line + q) (itemPrice line)
         :: after.
Proof.
  induction items as [| item rest IH]; simpl; [discriminate |].
  destruct (CartItems.sameProduct p item) eqn:E; intros Hfind.
  - injection Hfind as <-. exists [], rest.
    repeat split; [constructor |]. now apply String.eqb_eq.
  - destruct (IH Hfind) as (before & after & -> & Hbefore & Hline & ->).
    exists (item :: before), after. repeat split; [| exact Hline].
    constructor; [| exact Hbefore]. now apply String.eqb_neq.
Qed.

(** X3. When addItem returns, the lines are those of before with one
    change: for a product already in the cart, the quantity added goes onto
    the first line of the product, whose price stays the one stored on it,
    and no line is added or moved; otherwise one line is appended, at the
    product's current price.  The total stored is the sum over the new
    lines. *)
Theorem addItem_extends_the_lines
  (products : gmap string Q) (p : string) (q : Z) (c c' : cart) (w w' : world)
  (Hrun : CartItems.addItem products p q c w = (Ok c', w')) :
  totalValue c' = CartItems.itemsTotal (cartItems c')
  /\ match List.find (fun item => String.eqb (itemProduct item) p)
             (cartItems c) with
     | Some line =>
         exists before after,
           cartItems c = before ++ line :: after
           /\ Forall (fun item => itemProduct item <> p) before
           /\ itemProduct line = p
           /\ cartItems c'
              = before
                ++ CartItem p (itemQuantity line + q) (itemPrice line) :: after
     | None =>
         exists price,
           products !! p = Some price
           /\ cartItems c' = cartItems c ++ [CartItem p q price]
     end.
Proof.
  unfold CartItems.addItem in Hrun.
  change (fun item => String.eqb (itemProduct item) p)
    with (CartItems.sameProduct p).
  destruct (List.find _ (cartItems c)) as [line |] eqn:Efind.
  - unfold bind, dateNow, gets in Hrun.
    apply save_returns in Hrun. destruct Hrun as (-> & _ & _).
    split; [reflexivity |].
    destruct (addQuantity_split p q _ _ Efind)
      as (before & after & Hitems & Hbefore & Hline & Hadded).
    exists before, after. repeat split; try assumption.
    simpl. rewrite Hadded, Hline. reflexivity.
  - destruct (products !! p) as [price |] eqn:Eprice; [| discriminate Hrun].
    unfold bind, dateNow, gets in Hrun.
    apply save_returns in Hrun. destruct Hrun as (-> & _ & _).
    split; [reflexivity |]. now exists price.
Qed.

Lemma addItem_extends_the_lines_witness :
  exists c' w',
    CartItems.addItem priceList "p1" 3 twoLineCart emptyWorld = (Ok c', w')
    /\ totalValue c' = CartItems.itemsTotal (cartItems c').
Proof.
  assert (Hrun : exists c' w',
             CartItems.addItem priceList "p1" 3 twoLineCart emptyWorld
             = (Ok c', w'))
    by (eexists _, _; vm_compute; reflexivity).
  destruct Hrun as (c' & w' & Hrun). exists c', w'.
  split; [exact Hrun |].
  exact (proj1 (addItem_extends_the_lines _ _ _ _ _ _ _ Hrun)).
Defined.

Lemma validates_filter (f : cartItem -> bool) (c : cart) :
  CartModel.validates c = true ->
  CartModel.validates (CartItems.setItems (List.filter f (cartItems c)) c) = true.
Proof.
  unfold CartModel.validates. simpl. rewrite !andb_true_iff, !forallb_forall.
  intros [Hall Hattempts]. split; [| exact Hattempts].
  intros item Hin. apply filter_In in Hin. now apply Hall.
Qed.

(** X4. On a cart whose document passes validation removeItem always
    returns: the lines left are exactly those of other products, in the
    order and the number they had, the total written is the sum over them,
    and where the product was not in the cart the lines are as before. *)
Theorem removeItem_drops_the_product
  (p : string) (c : cart) (w : world)
  (Hvalid : CartModel.validates c = true) :
  exists c',
    CartItems.removeItem p c w = (Ok c', withCarts (CartModel.store c') w)
    /\ cartItems c'
       = List.filter (fun line => negb (String.eqb (itemProduct line) p))
           (cartItems c)
    /\ (forall line, line ∈ cartItems c' <->
                     line ∈ cartItems c /\ itemProduct line <> p)
    /\ totalValue c' = CartItems.itemsTotal (cartItems c')
    /\ (List.find (fun line => String.eqb (itemProduct line) p) (cartItems c)
        = None ->
        cartItems c' = cartItems c).
Proof.
  unfold CartItems.removeItem, bind, dateNow, gets.
  rewrite save_eq.
  rewrite (validates_ext
             (CartItems.setItems
                (List.filter (fun item => negb (CartItems.sameProduct p item))
                   (cartItems c)) c)) by reflexivity.
  rewrite (validates_filter _ c Hvalid).
  eexists. split; [reflexivity |]. simpl.
  split; [reflexivity |].
  split; [| split; [reflexivity |]].
  - intros line. rewrite !list_elem_of_In, filter_In.
    unfold CartItems.sameProduct. rewrite negb_true_iff, String.eqb_neq.
    reflexivity.
  - intros Hnone. apply forallb_filter_id.
    apply forallb_forall. intros line Hin.
    apply negb_true_iff.
    exact (find_none _ _ Hnone line Hin).
Qed.

Lemma removeItem_drops_the_product_witness :
  exists c',
    CartItems.removeItem "p1" twoLineCart emptyWorld
    = (Ok c', withCarts (CartModel.store c') emptyWorld)
    /\ cartItems c' = [CartItem "p2" 1 (5 # 2)].
Proof.
  destruct (removeItem_drops_the_product "p1" twoLineCart emptyWorld eq_refl)
    as (c' & Hrun & Hlines & _).
  exists c'. split; [exact Hrun | exact Hlines].
Defined.

(** *** Abandoning, recovering and answering *)

(** X5. Abandoning is idempotent: whatever the cart, abandoning the document
    a first abandon returned changes neither that document nor the
    collection, at whatever time, so abandonedAt keeps the time of the first
    abandon. *)
Theorem abandon_is_idempotent (c c1 : cart) (w w1 : world) (later : Z)
  (Hfirst : CartModel.abandon c w = (Ok c1, w1)) :
  CartModel.abandon c1 (withClock later w1) = (Ok c1, withClock later w1)
  /\ (cartStatusOf c = Active ->
      cartStatusOf c1 = Abandoned /\ abandonedAt c1 = Some (clock w)).
Proof.
  rewrite abandon_eq in Hfirst. rewrite abandon_eq.
  destruct (cartStatusOf c) eqn:Hs.
  - destruct (CartModel.validates c); [| discriminate Hfirst].
    injection Hfirst as <- <-. unfold abandoned. rewrite Hs. simpl.
    split; [reflexivity | now split].
  - injection Hfirst as <- <-. rewrite Hs. split; [reflexivity | discriminate].
  - injection Hfirst as <- <-. rewrite Hs. split; [reflexivity | discriminate].
  - injection Hfirst as <- <-. rewrite Hs. split; [reflexivity | discriminate].
Qed.

Lemma abandon_is_idempotent_witness :
  exists c1 w1,
    CartModel.abandon activeCart emptyWorld = (Ok c1, w1)
    /\ CartModel.abandon c1 (withClock 1700000999000 w1)
       = (Ok c1, withClock 1700000999000 w1).
Proof.
  assert (Hrun : exists c1 w1,
             CartModel.abandon activeCart emptyWorld = (Ok c1, w1))
    by (eexists _, _; vm_compute; reflexivity).
  destruct Hrun as (c1 & w1 & Hrun). exists c1, w1.
  split; [exact Hrun |].
  apply (abandon_is_idempotent activeCart c1 emptyWorld w1 1700000999000 Hrun).
Defined.

(** X6. Recovering undoes abandoning: for an active cart whose document
    passes validation, abandon followed, at any later time, by recover on
    the returned document gives an active cart without abandonedAt, whose
    lastActivity is the time of the recovery, with the items and the
    recovery log of the start, and that is the document the collection
    holds. *)
Theorem recover_undoes_abandon (c : cart) (w : world) (later : Z)
  (Hactive : cartStatusOf c = Active)
  (Hvalid : CartModel.validates c = true) :
  exists c1 w1 c2 w2,
    CartModel.abandon c w = (Ok c1, w1)
    /\ CartModel.recover c1 (withClock later w1) = (Ok c2, w2)
    /\ cartStatusOf c2 = Active
    /\ abandonedAt c2 = None
    /\ lastActivity c2 = later
    /\ cartItems c2 = cartItems c
    /\ recoveryAttempts c2 = recoveryAttempts c
    /\ totalValue c2 = CartItems.itemsTotal (cartItems c)
    /\ cartAt (cartId c) w2 = Some c2.
Proof.
  eexists _, _, _, _.
  split; [rewrite abandon_eq, Hactive, Hvalid; reflexivity |].
  unfold abandoned. rewrite Hactive.
  split.
  { unfold CartModel.recover. cbn [cartStatusOf CartModel.preSave
      CartModel.setTotalValue CartModel.setAbandonedAt CartModel.setStatus].
    unfold bind, dateNow, gets. rewrite save_eq.
    rewrite (validates_ext c) by reflexivity. rewrite Hvalid. reflexivity. }
  simpl. repeat split. now apply cartAt_saved.
Qed.

Lemma recover_undoes_abandon_witness :
  exists c1 w1 c2 w2,
    CartModel.abandon activeCart emptyWorld = (Ok c1, w1)
    /\ CartModel.recover c1 (withClock 1700000500000 w1) = (Ok c2, w2)
    /\ cartStatusOf c2 = Active /\ abandonedAt c2 = None.
Proof.
  destruct (recover_undoes_abandon activeCart emptyWorld 1700000500000
              eq_refl eq_refl)
    as (c1 & w1 & c2 & w2 & Hab & Hrec & Hs & Hat & _).
  now exists c1, w1, c2, w2.
Defined.

Lemma respond_fresh (id : string) (r : attemptResponse)
  (l : list recoveryAttempt) (a : recoveryAttempt) :
  Forall (fun x => attemptId x <> id) l ->
  attemptId a = id ->
  List.find (fun x => String.eqb (attemptId x) id) (l ++ [a]) = Some a
  /\ CartModel.respond id r (l ++ [a]) = l ++ [CartModel.setResponse r a].
Proof.
  intros Hfresh Hid.
  induction l as [| x rest IH]; simpl.
  - apply String.eqb_eq in Hid. rewrite Hid. now split.
  - inversion Hfresh as [| y ys Hx Hrest]; subst.
    apply String.eqb_neq in Hx. rewrite Hx.
    destruct (IH Hrest) as [-> ->]. now split.
Qed.

(** The document [logRecoveryAttempt] saves passes validation when the
    cart did and the type is of the enum. *)
Lemma logged_validates (newId channel templateId : string) (now : Z)
  (c : cart) :
  CartModel.validates c = true ->
  channel ∈ CartModel.attemptTypes ->
  CartModel.validates
    (CartModel.setRecoveryAttempts
       (recoveryAttempts c
        ++ [RecoveryAttempt newId channel templateId now RNone]) c)
  = true.
Proof.
  intros Hvalid Hchannel. apply validates_attempts; [exact Hvalid |].
  apply Forall_app. split; [now apply validates_types |].
  constructor; [exact Hchannel | constructor].
Qed.

(** X7. An attempt that was logged can be answered: on a cart whose
    document passes validation, after logRecoveryAttempt of a type the
    schema allows (email, whatsapp or sms), under an id no earlier attempt
    of the cart bears, updateRecoveryResponse on that id sets the response
    of the attempt just logged and of no other, and moves the cart to
    converted exactly when the response is converted. *)
Theorem logged_attempt_can_be_answered
  (newId channel templateId : string) (response : attemptResponse)
  (c : cart) (w : world) (later : Z)
  (Hvalid : CartModel.validates c = true)
  (Hchannel : channel ∈ ["email"; "whatsapp"; "sms"])
  (Hfresh : Forall (fun a => attemptId a <> newId) (recoveryAttempts c)) :
  exists c1 w1 c2 w2,
    CartModel.logRecoveryAttempt newId channel templateId c w = (Ok c1, w1)
    /\ recoveryAttempts c1
       = recoveryAttempts c
         ++ [RecoveryAttempt newId channel templateId (clock w) RNone]
    /\ cartStatusOf c1 = cartStatusOf c
    /\ CartModel.updateRecoveryResponse newId response c1 (withClock later w1)
       = (Ok c2, w2)
    /\ recoveryAttempts c2
       = recoveryAttempts c
         ++ [RecoveryAttempt newId channel templateId (clock w) response]
    /\ cartStatusOf c2
       = match response with
         | RConverted => Converted
         | _ => cartStatusOf c
         end
    /\ cartAt (cartId c) w2 = Some c2.
Proof.
  destruct (respond_fresh newId response (recoveryAttempts c)
              (RecoveryAttempt newId channel templateId (clock w) RNone)
              Hfresh eq_refl) as [Hfind Hrespond].
  pose proof (logged_validates newId channel templateId (clock w) c Hvalid
                Hchannel) as Hlogged.
  eexists _, _, _, _.
  split.
  { unfold CartModel.logRecoveryAttempt, bind, dateNow, gets.
    rewrite save_eq, Hlogged. reflexivity. }
  split; [reflexivity |]. split; [reflexivity |].
  split.
  { unfold CartModel.updateRecoveryResponse.
    cbn [recoveryAttempts CartModel.preSave CartModel.setTotalValue
         CartModel.setRecoveryAttempts].
    rewrite Hfind, Hrespond. cbv zeta. rewrite save_eq.
    replace (CartModel.validates _) with true; [reflexivity |].
    symmetry.
    rewrite <- (validates_attempts c
                  (recoveryAttempts c
                   ++ [RecoveryAttempt newId channel templateId (clock w)
                         response]) Hvalid).
    - destruct response; reflexivity.
    - apply Forall_app. split; [now apply validates_types |].
      constructor; [exact Hchannel | constructor]. }
  destruct response; simpl; repeat split; now apply cartAt_saved.
Qed.

Lemma logged_attempt_can_be_answered_witness :
  exists c1 w1 c2 w2,
    CartModel.logRecoveryAttempt "a2" "email" "t1" answeredCart emptyWorld
    = (Ok c1, w1)
    /\ CartModel.updateRecoveryResponse "a2" RConverted c1
         (withClock 1700000600000 w1) = (Ok c2, w2)
    /\ cartStatusOf c2 = Converted.
Proof.
  destruct (logged_attempt_can_be_answered "a2" "email" "t1" RConverted
              answeredCart emptyWorld 1700000600000)
    as (c1 & w1 & c2 & w2 & Hlog & _ & _ & Hanswer & _ & Hstatus & _).
  - vm_compute. reflexivity.
  - left.
  - repeat constructor. discriminate.
  - now exists c1, w1, c2, w2.
Defined.

(** *** The classification cache *)

Lemma segmentCustomer_hit (rules : Segmentation.registry) (customer : customer)
  (labels : list string) (w : world) :
  Redis.lookupLive w (Segmentation.segmentsKey (customerId customer))
  = Some (VLabels labels) ->
  Segmentation.segmentCustomer rules customer w = (Ok labels, w).
Proof.
  intros Hhit. unfold Segmentation.segmentCustomer, tryCatch.
  unfold bind at 1, Redis.get, gets. cbv beta zeta.
  now rewrite Hhit.
Qed.

(** A miss, in terms of the loop over the rules. *)
Lemma segmentCustomer_miss (rules : Segmentation.registry) (customer : customer)
  (w : world) :
  Redis.lookupLive w (Segmentation.segmentsKey (customerId customer)) = None ->
  Segmentation.segmentCustomer rules customer w
  = match Segmentation.applyRules rules customer [] w with
    | (Ok segments, w1) =>
        let labels :=
          foldl Segmentation.setAdd segments (Spec.derivedLabels customer) in
        (Ok labels,
         withRedisStrings
           (insert (Segmentation.segmentsKey (customerId customer))
              (Entry (VLabels labels) (Some (clock w1 + 3600 * 1000))))
           w1)
    | (Throw e, w1) => (Throw e, withErrorLog (fun l => l ++ [e]) w1)
    end.
Proof.
  intros Hmiss. unfold Segmentation.segmentCustomer, tryCatch.
  unfold bind at 1, Redis.get, gets. cbv beta zeta.
  rewrite Hmiss. cbv beta iota delta [truthy].
  unfold bind at 1.
  destruct (Segmentation.applyRules rules customer [] w) as [[segments | e] w1].
  - now rewrite derived_by_setAdd.
  - reflexivity.
Qed.

(** X8. A classification that was computed is served from the cache for an
    hour: until 3600 seconds after it, classifying the same customer, with
    whatever rules and whatever has become of the collections, returns the
    same labels and changes nothing; from then on the entry has expired. *)
Theorem classification_is_cached_for_an_hour
  (rules rules' : Segmentation.registry) (customer : customer)
  (labels : list string) (w w1 : world) (t : Z) (orders : list order)
  (fault : option jsError)
  (Hmiss : Redis.lookupLive w (Segmentation.segmentsKey (customerId customer)) = None)
  (Hrun : Segmentation.segmentCustomer rules customer w = (Ok labels, w1)) :
  let served :=
    World t (randomDraws w1) (randomIndex w1) (redisStrings w1) (redisZsets w1)
      (redisHashes w1) (dbCustomers w1) (dbCarts w1) orders (dbMessages w1)
      (dbTemplates w1) fault fault (timers w1) (errorLog w1) in
  (t < clock w1 + 3600 * 1000 ->
   Segmentation.segmentCustomer rules' customer served = (Ok labels, served))
  /\ (clock w1 + 3600 * 1000 <= t ->
      Redis.lookupLive served (Segmentation.segmentsKey (customerId customer))
      = None).
Proof.
  rewrite (segmentCustomer_miss _ _ _ Hmiss) in Hrun.
  destruct (Segmentation.applyRules rules customer [] w) as [[segments | e] w0];
    [| discriminate Hrun].
  cbv zeta in Hrun. injection Hrun as <- <-.
  set (final := foldl Segmentation.setAdd segments (Spec.derivedLabels customer)).
  intros served.
  assert (Hlook : Redis.lookupLive served
                    (Segmentation.segmentsKey (customerId customer))
                  = if t <? clock w0 + 3600 * 1000
                    then Some (VLabels final) else None).
  { unfold Redis.lookupLive, served. simpl. rewrite lookup_insert_eq.
    reflexivity. }
  split; intros Ht.
  - apply segmentCustomer_hit. rewrite Hlook.
    simpl in Ht. now replace (t <? clock w0 + 3600 * 1000) with true
      by (symmetry; apply Z.ltb_lt; lia).
  - rewrite Hlook. simpl in Ht.
    now replace (t <? clock w0 + 3600 * 1000) with false
      by (symmetry; apply Z.ltb_ge; lia).
Qed.

Lemma classification_is_cached_for_an_hour_witness :
  let w1 := snd (Segmentation.segmentCustomer Segmentation.defaultRules
                   businessCustomer businessWorld) in
  Segmentation.segmentCustomer [] businessCustomer
    (World 1700003599999 (randomDraws w1) (randomIndex w1) (redisStrings w1)
       (redisZsets w1) (redisHashes w1) (dbCustomers w1) (dbCarts w1) []
       (dbMessages w1) (dbTemplates w1) (Some networkError) (Some networkError)
       (timers w1) (errorLog w1))
  = (Ok ["occasional_buyer"; "medium_value"; "low_engagement";
         "whatsapp_enabled"; "at_risk"; "business_account"; "loyalty_silver"],
     World 1700003599999 (randomDraws w1) (randomIndex w1) (redisStrings w1)
       (redisZsets w1) (redisHashes w1) (dbCustomers w1) (dbCarts w1) []
       (dbMessages w1) (dbTemplates w1) (Some networkError) (Some networkError)
       (timers w1) (errorLog w1)).
Proof.
  intros w1.
  apply (classification_is_cached_for_an_hour Segmentation.defaultRules []
           businessCustomer _ businessWorld w1 1700003599999 []
           (Some networkError) eq_refl).
  - unfold w1. vm_compute. reflexivity.
  - vm_compute. reflexivity.
Defined.

(** X9. Refreshing a customer the collection does not hold throws the error
    "Customer not found", logs it, and changes neither the cache nor the
    collections. *)
Theorem refresh_of_unknown_customer
  (rules : Segmentation.registry) (id : string) (w : world)
  (Hunknown : dbCustomers w !! id = None) :
  Segmentation.updateCustomerSegments rules id w
  = (Throw (JsError "Error" "Customer not found"),
     withErrorLog (fun l => l ++ [JsError "Error" "Customer not found"]) w).
Proof.
  unfold Segmentation.updateCustomerSegments, tryCatch.
  unfold bind at 1, Segmentation.customerFindById, gets. cbv beta.
  now rewrite Hunknown.
Qed.

Lemma refresh_of_unknown_customer_witness :
  fst (Segmentation.updateCustomerSegments Segmentation.defaultRules "nobody"
         businessWorld)
  = Throw (JsError "Error" "Customer not found").
Proof.
  now rewrite (refresh_of_unknown_customer Segmentation.defaultRules "nobody"
                 businessWorld eq_refl).
Defined.

(** X10. Refreshing a stored customer whose classification is not cached,
    the rules returning, computes the labels, writes them onto the stored
    customer and leaves no cached classification behind, so that the next
    classification is computed again. *)
Theorem refresh_persists_computed_labels
  (rules : Segmentation.registry) (customer : customer) (w : world)
  (outputs : list (list string)) (w1 : world)
  (Hstored : dbCustomers w !! customerId customer = Some customer)
  (Hmiss : Redis.lookupLive w (Segmentation.segmentsKey (customerId customer)) = None)
  (Hrules : Spec.rulesReturn customer rules w outputs w1) :
  exists w',
    let labels := Spec.dedup [] (concat outputs ++ Spec.derivedLabels customer) in
    Segmentation.updateCustomerSegments rules (customerId customer) w
    = (Ok labels, w')
    /\ dbCustomers w' !! customerId customer
       = Some (Segmentation.setSegments labels customer)
    /\ cachedAt (Segmentation.segmentsKey (customerId customer)) w' = None
    /\ Redis.lookupLive w' (Segmentation.segmentsKey (customerId customer)) = None.
Proof.
  eexists. cbv zeta.
  unfold Segmentation.updateCustomerSegments, tryCatch.
  unfold bind at 1, Segmentation.customerFindById, gets. cbv beta.
  rewrite Hstored. unfold bind at 1.
  rewrite (segmentCustomer_miss _ _ _ Hmiss).
  rewrite (applyRules_returns _ _ _ _ _ Hrules).
  cbv zeta. rewrite <- foldl_app, foldl_setAdd. simpl app.
  split; [reflexivity |]. simpl.
  split; [apply lookup_insert_eq |].
  unfold cachedAt, Redis.lookupLive. simpl.
  rewrite lookup_delete_eq. now split.
Qed.

Lemma refresh_persists_computed_labels_witness :
  exists w',
    Segmentation.updateCustomerSegments [] "c2" businessWorld
    = (Ok ["business_account"; "loyalty_silver"], w')
    /\ cachedAt (Segmentation.segmentsKey "c2") w' = None.
Proof.
  destruct (refresh_persists_computed_labels [] businessCustomer businessWorld
              [] businessWorld eq_refl eq_refl (Spec.RulesNil _ _))
    as (w' & Hrun & _ & Hcache & _).
  exists w'. split; [exact Hrun | exact Hcache].
Defined.

(** *** Rules *)

(** X11. The message count of a customer is counted once an hour: on a miss
    with the Message collection answering, it is the number of the
    customer's messages, which is not negative, and for the 3600 seconds
    that follow the count is answered from the cache, unchanged, whatever
    has become of the Message collection in the meantime. *)
Theorem message_count_is_cached
  (id : string) (w : world) (t : Z) (messages : list string)
  (fault : option jsError)
  (Hanswering : messageFault w = None)
  (Hmiss : Redis.lookupLive w (Segmentation.messageCountKey id) = None)
  (Hsoon : t < clock w + 3600 * 1000) :
  let count := Z.of_nat (length (List.filter (String.eqb id) (dbMessages w))) in
  let w1 :=
    withRedisStrings
      (insert (Segmentation.messageCountKey id)
         (Entry (VInt count) (Some (clock w + 3600 * 1000)))) w in
  let served :=
    World t (randomDraws w1) (randomIndex w1) (redisStrings w1) (redisZsets w1)
      (redisHashes w1) (dbCustomers w1) (dbCarts w1) (dbOrders w1) messages
      (dbTemplates w1) (orderFault w1) fault (timers w1) (errorLog w1) in
  Segmentation.getCustomerMessageCount id w = (Ok count, w1)
  /\ 0 <= count
  /\ Segmentation.getCustomerMessageCount id served = (Ok count, served).
Proof.
  intros count w1 served.
  split; [| split; [apply Nat2Z.is_nonneg |]].
  - unfold Segmentation.getCustomerMessageCount.
    unfold bind at 1, Redis.get, gets. cbv beta zeta. rewrite Hmiss.
    cbv beta iota delta [truthy].
    unfold bind at 1, Segmentation.countMessages. rewrite Hanswering.
    reflexivity.
  - unfold Segmentation.getCustomerMessageCount.
    unfold bind at 1, Redis.get, gets. cbv beta zeta.
    assert (Hhit : Redis.lookupLive served (Segmentation.messageCountKey id)
                   = Some (VInt count)).
    { unfold Redis.lookupLive, served, w1. simpl. rewrite lookup_insert_eq.
      unfold Redis.live. simpl.
      now replace (t <? clock w + 3600 * 1000) with true
        by (symmetry; apply Z.ltb_lt; lia). }
    now rewrite Hhit.
Qed.

Lemma message_count_is_cached_witness :
  Segmentation.getCustomerMessageCount "c2" businessWorld
  = (Ok 2,
     withRedisStrings
       (insert (Segmentation.messageCountKey "c2")
          (Entry (VInt 2) (Some (1700000000000 + 3600 * 1000)))) businessWorld).
Proof.
  apply (message_count_is_cached "c2" businessWorld 1700000000001 [] None
           eq_refl eq_refl).
  simpl. lia.
Defined.

Lemma frequency_of_days (n : nat) (days : Z) :
  days <> 0 ->
  geb (div (ofZ (Z.of_nat (S n))) (ofZ days)) (5 # 10)
  = (0 <? days) && (days <=? 2 * Z.of_nat (S n))
  /\ geb (div (ofZ (Z.of_nat (S n))) (ofZ days)) (2 # 10)
     = (0 <? days) && (days <=? 5 * Z.of_nat (S n)).
Proof.
  intros Hdays. set (count := Z.of_nat (S n)).
  assert (Hcount : 0 < count) by (unfold count; lia).
  clearbody count.
  destruct days as [| p | p]; [congruence | |].
  - unfold div, ofZ, geb, Qle_bool, Qdiv, Qinv, Qmult, inject_Z. simpl.
    split; apply eq_true_iff_eq; rewrite !Z.leb_le; lia.
  - unfold div, ofZ, geb, Qle_bool, Qdiv, Qinv, Qmult, inject_Z. simpl.
    split; apply Z.leb_gt; lia.
Qed.

(** X12. With the Order collection answering and a first fetched order, the
    frequency rule returns one label, decided by the floored number of days
    since that order against the number of orders fetched: frequent_buyer
    when the days are positive and at most twice the orders, else
    regular_customer when they are positive and at most five times the
    orders, else occasional_buyer, which is also what a first order dated at
    least a day ahead of the clock gives. *)
Theorem purchaseFrequency_thresholds
  (customer : customer) (w : world) (firstOrder : order) (rest : list order)
  (Hstore : orderFault w = None)
  (Hfetched :
     List.filter (fun o => String.eqb (orderCustomer o) (customerId customer))
       (dbOrders w) = firstOrder :: rest)
  (Hdays : Segmentation.daysSince (clock w) (orderCreatedAt firstOrder) <> 0) :
  let days := Segmentation.daysSince (clock w) (orderCreatedAt firstOrder) in
  let count := Z.of_nat (length (firstOrder :: rest)) in
  Segmentation.purchaseFrequencyRule customer w
  = (Ok [if (0 <? days) && (days <=? 2 * count) then "frequent_buyer"
         else if (0 <? days) && (days <=? 5 * count) then "regular_customer"
              else "occasional_buyer"],
     w).
Proof.
  intros days count.
  unfold Segmentation.purchaseFrequencyRule, Segmentation.orderFind, bind,
    dateNow, gets.
  rewrite Hstore, Hfetched. fold days.
  destruct (frequency_of_days (length rest) days Hdays) as [Hhalf Hfifth].
  change (length (firstOrder :: rest)) with (S (length rest)).
  rewrite Hhalf, Hfifth.
  change (Z.of_nat (S (length rest))) with count.
  destruct ((0 <? days) && (days <=? 2 * count));
    [reflexivity |].
  destruct ((0 <? days) && (days <=? 5 * count)); reflexivity.
Qed.

Lemma purchaseFrequency_thresholds_witness :
  Segmentation.purchaseFrequencyRule businessCustomer businessWorld
  = (Ok ["occasional_buyer"], businessWorld).
Proof.
  apply (purchaseFrequency_thresholds businessCustomer businessWorld
           (Order "o1" "c2" 3000 1 1690000000000)
           [Order "o2" "c2" 3200 4 1697000000000] eq_refl eq_refl).
  vm_compute. discriminate.
Defined.

Lemma purchaseFrequency_returns (customer : customer) (w : world) :
  orderFault w = None ->
  exists label,
    Segmentation.purchaseFrequencyRule customer w = (Ok [label], w)
    /\ label ∈ ["new_customer"; "frequent_buyer"; "regular_customer";
                "occasional_buyer"].
Proof.
  intros Hstore.
  unfold Segmentation.purchaseFrequencyRule, Segmentation.orderFind, bind,
    dateNow, gets.
  rewrite Hstore.
  destruct (List.filter _ (dbOrders w)) as [| firstOrder rest].
  - eexists. split; [reflexivity |]. set_solver.
  - destruct (geb _ (5 # 10)); [eexists; split; [reflexivity | set_solver] |].
    destruct (geb _ (2 # 10)); eexists; (split; [reflexivity | set_solver]).
Qed.

Lemma purchaseRecency_returns (customer : customer) (w : world) :
  exists label,
    Segmentation.purchaseRecencyRule customer w = (Ok [label], w)
    /\ label ∈ ["never_purchased"; "active"; "at_risk"; "inactive"].
Proof.
  unfold Segmentation.purchaseRecencyRule, bind, dateNow, gets.
  destruct (lastPurchaseDate customer) as [date |].
  - destruct (_ <=? 30); [eexists; split; [reflexivity | set_solver] |].
    destruct (_ <=? 90); eexists; (split; [reflexivity | set_solver]).
  - eexists. split; [reflexivity |]. set_solver.
Qed.

Lemma engagementLevel_returns (customer : customer) (w : world) :
  messageFault w = None ->
  match Redis.lookupLive w (Segmentation.messageCountKey (customerId customer)) with
  | None | Some (VInt _) => True
  | Some _ => False
  end ->
  exists label w',
    Segmentation.engagementLevelRule customer w
    = (Ok (label :: if whatsappPreference customer
                    then ["whatsapp_enabled"] else []), w')
    /\ label ∈ ["highly_engaged"; "engaged"; "low_engagement"].
Proof.
  intros Hanswering Htyped.
  unfold Segmentation.engagementLevelRule,
    Segmentation.getCustomerMessageCount.
  unfold bind at 1. unfold bind at 1, Redis.get, gets. cbv beta zeta.
  destruct (Redis.lookupLive w _) as [[s | n | l | p] |];
    try contradiction; cbv beta iota delta [truthy].
  - unfold ret.
    destruct (50 <? n); [| destruct (20 <? n)];
      destruct (whatsappPreference customer);
      eexists _, _; (split; [reflexivity | set_solver]).
  - unfold bind at 1, Segmentation.countMessages. rewrite Hanswering.
    unfold bind at 1, Redis.setex, ret.
    destruct (50 <? _); [| destruct (20 <? _)];
      destruct (whatsappPreference customer);
      eexists _, _; (split; [reflexivity | set_solver]).
Qed.

Lemma dedup_shape
  (frequency spend engagement recency : string) (whatsapp : bool)
  (customer : customer) :
  frequency ∈ ["new_customer"; "frequent_buyer"; "regular_customer";
               "occasional_buyer"] ->
  spend ∈ ["high_value"; "medium_value"; "low_value"] ->
  engagement ∈ ["highly_engaged"; "engaged"; "low_engagement"] ->
  recency ∈ ["never_purchased"; "active"; "at_risk"; "inactive"] ->
  Spec.dedup []
    (([frequency] ++ [spend]
      ++ (engagement :: if whatsapp then ["whatsapp_enabled"] else [])
      ++ [recency]) ++ Spec.derivedLabels customer)
  = [frequency; spend; engagement]
    ++ (if whatsapp then ["whatsapp_enabled"] else [])
    ++ [recency] ++ Spec.derivedLabels customer.
Proof.
  intros Hf Hs He Hr. unfold Spec.derivedLabels.
  repeat (apply elem_of_cons in Hf; destruct Hf as [-> | Hf]);
    [.. | inversion Hf];
    (repeat (apply elem_of_cons in Hs; destruct Hs as [-> | Hs]);
     [.. | inversion Hs]);
    (repeat (apply elem_of_cons in He; destruct He as [-> | He]);
     [.. | inversion He]);
    (repeat (apply elem_of_cons in Hr; destruct Hr as [-> | Hr]);
     [.. | inversion Hr]);
    destruct whatsapp, (customerKind customer), (loyalty customer) as [[] |];
    vm_compute; reflexivity.
Qed.

(** X13. With the four default rules, both collections answering and nothing
    cached for the customer, the classification is, in this order: one
    purchase-frequency label, the spending label read off [totalSpent]
    (thresholds 10000 and 5000, both inclusive), one engagement label,
    [whatsapp_enabled] when the customer prefers WhatsApp, one recency label,
    then the derived labels; no label is dropped as a duplicate. *)
Theorem default_classification_shape (customer : customer) (w : world)
  (Horders : orderFault w = None)
  (Hmessages : messageFault w = None)
  (Hmiss : Redis.lookupLive w (Segmentation.segmentsKey (customerId customer)) = None)
  (Hcount :
     match Redis.lookupLive w (Segmentation.messageCountKey (customerId customer)) with
     | None | Some (VInt _) => True
     | Some _ => False
     end) :
  exists frequency engagement recency w',
    Segmentation.segmentCustomer Segmentation.defaultRules customer w
    = (Ok ([frequency;
            if Qle_bool 10000 (totalSpent customer) then "high_value"
            else if Qle_bool 5000 (totalSpent customer) then "medium_value"
            else "low_value";
            engagement]
           ++ (if whatsappPreference customer then ["whatsapp_enabled"] else [])
           ++ [recency] ++ Spec.derivedLabels customer), w')
    /\ frequency ∈ ["new_customer"; "frequent_buyer"; "regular_customer";
                    "occasional_buyer"]
    /\ engagement ∈ ["highly_engaged"; "engaged"; "low_engagement"]
    /\ recency ∈ ["never_purchased"; "active"; "at_risk"; "inactive"].
Proof.
  destruct (purchaseFrequency_returns customer w Horders)
    as (frequency & Hfrequency & Hf).
  destruct (engagementLevel_returns customer w Hmessages Hcount)
    as (engagement & w2 & Hengagement & He).
  destruct (purchaseRecency_returns customer w2) as (recency & Hrecency & Hr).
  set (spend := if Qle_bool 10000 (totalSpent customer) then "high_value"
                else if Qle_bool 5000 (totalSpent customer) then "medium_value"
                else "low_value").
  assert (Hspend : Segmentation.spendingLevelRule customer w = (Ok [spend], w)).
  { unfold Segmentation.spendingLevelRule, spend. cbv zeta.
    destruct (Qle_bool 10000 _); [reflexivity |].
    destruct (Qle_bool 5000 _); reflexivity. }
  assert (Hs : spend ∈ ["high_value"; "medium_value"; "low_value"]).
  { unfold spend. destruct (Qle_bool 10000 _); [repeat constructor |].
    destruct (Qle_bool 5000 _); repeat constructor. }
  assert (Hrules : Spec.rulesReturn customer Segmentation.defaultRules w
            [[frequency]; [spend];
             engagement :: (if whatsappPreference customer
                            then ["whatsapp_enabled"] else []);
             [recency]] w2).
  { apply Spec.RulesCons with (w1 := w); [exact Hfrequency |].
    apply Spec.RulesCons with (w1 := w); [exact Hspend |].
    apply Spec.RulesCons with (w1 := w2); [exact Hengagement |].
    apply Spec.RulesCons with (w1 := w2); [exact Hrecency |].
    constructor. }
  exists frequency, engagement, recency. eexists.
  split; [| now repeat split].
  rewrite (segmentCustomer_miss _ _ _ Hmiss).
  rewrite (applyRules_returns _ _ _ _ _ Hrules []). cbv zeta.
  rewrite <- foldl_app, foldl_setAdd.
  pose proof (dedup_shape frequency spend engagement recency
                (whatsappPreference customer) customer Hf Hs He Hr) as Hshape.
  cbn [app concat] in Hshape |- *. rewrite Hshape.
  reflexivity.
Qed.

Lemma default_classification_shape_witness :
  exists frequency engagement recency w',
    Segmentation.segmentCustomer Segmentation.defaultRules businessCustomer
      businessWorld
    = (Ok ([frequency;
            if Qle_bool 10000 (totalSpent businessCustomer) then "high_value"
            else if Qle_bool 5000 (totalSpent businessCustomer)
                 then "medium_value"
            else "low_value";
            engagement]
           ++ (if whatsappPreference businessCustomer
               then ["whatsapp_enabled"] else [])
           ++ [recency] ++ Spec.derivedLabels businessCustomer), w')
    /\ frequency ∈ ["new_customer"; "frequent_buyer"; "regular_customer";
                    "occasional_buyer"]
    /\ engagement ∈ ["highly_engaged"; "engaged"; "low_engagement"]
    /\ recency ∈ ["never_purchased"; "active"; "at_risk"; "inactive"].
Proof.
  apply (default_classification_shape businessCustomer businessWorld);
    vm_compute; try reflexivity; exact I.
Defined.

(** *** The daily sales counters *)

Lemma hashCounter_hincrby (key field : string) (delta : Z) (w : world)
  (k f : string) :
  hashCounter (snd (Redis.hincrby key field delta w)) k f
  = hashCounter w k f
    + (if bool_decide (k = key /\ f = field) then delta else 0).
Proof.
  unfold hashCounter, Redis.hincrby. simpl.
  destruct (decide (k = key)) as [-> | Hk].
  - rewrite lookup_insert_eq. simpl.
    destruct (decide (f = field)) as [-> | Hf].
    + rewrite lookup_insert_eq, bool_decide_eq_true_2 by done. reflexivity.
    + rewrite lookup_insert_ne by done.
      rewrite bool_decide_eq_false_2 by (intros [_ H]; done). lia.
  - rewrite lookup_insert_ne by done.
    rewrite bool_decide_eq_false_2 by (intros [H _]; done). lia.
Qed.

Lemma segments_loop (key : string) (segments : list string) (w : world) :
  exists w',
    forEach segments
      (fun segment => Redis.hincrby key segment 1 ;;; ret tt) w = (Ok tt, w')
    /\ forall k f,
         hashCounter w' k f
         = hashCounter w k f
           + (if bool_decide (k = key) then occurrences f segments else 0).
Proof.
  revert w. induction segments as [| s rest IH]; intros w.
  - exists w. split; [reflexivity |]. intros k f.
    unfold occurrences. simpl. destruct (bool_decide _); lia.
  - destruct (IH (snd (Redis.hincrby key s 1 w))) as (w' & Hrun & Hcount).
    exists w'. split.
    + simpl. unfold bind at 1. unfold bind at 1. cbn [Redis.hincrby ret].
      exact Hrun.
    + intros k f. rewrite Hcount, hashCounter_hincrby.
      unfold occurrences. simpl.
      destruct (decide (k = key)) as [-> | Hk].
      * rewrite (bool_decide_eq_true_2 (key = key)) by done.
        destruct (String.eqb_spec f s) as [-> | Hf].
        -- rewrite bool_decide_eq_true_2 by done. simpl length. lia.
        -- rewrite bool_decide_eq_false_2 by (intros [_ H]; done). lia.
      * rewrite !bool_decide_eq_false_2; [lia | done | intros [H _]; done].
Qed.

Lemma daily_not_segments (a b : string) :
  "sales:daily:" +:+ a <> "sales:segments:" +:+ b.
Proof. simpl. discriminate. Qed.

(** The run of trackSaleEvent up to the loop over the segments. *)
Lemma trackSaleEvent_run (order : order) (w : world) :
  exists w1 w',
    Analytics.trackSaleEvent order w = (Ok tt, w')
    /\ (forall k f,
          hashCounter w1 k f
          = hashCounter w k f
            + (if bool_decide (k = "sales:daily:" +:+ IsoDate.isoDate (clock w))
               then if bool_decide (f = "count") then 1
                    else if bool_decide (f = "revenue")
                         then Qfloor (orderTotal order) else 0
               else 0))
    /\ (forall k f,
          hashCounter w' k f
          = hashCounter w1 k f
            + (if bool_decide
                    (k = "sales:segments:" +:+ IsoDate.isoDate (clock w))
               then occurrences f
                      match dbCustomers w !! orderCustomer order with
                      | Some customer => customerSegments customer
                      | None => []
                      end
               else 0)).
Proof.
  set (day := IsoDate.isoDate (clock w)).
  set (w0 := snd ((Redis.zadd Analytics.realtimeKey (clock w)
                     (SaleEvent (orderId order) (orderTotal order)
                        (orderCustomer order) (orderItems order) (clock w)) ;;;
                   Redis.zremrangebyscore Analytics.realtimeKey 0
                     (clock w - Analytics.REAL_TIME_WINDOW * 1000)) w)).
  set (wa := snd (Redis.hincrby ("sales:daily:" +:+ day) "count" 1 w0)).
  set (w1 := snd (Redis.hincrby ("sales:daily:" +:+ day) "revenue"
                    (Qfloor (orderTotal order)) wa)).
  destruct (segments_loop ("sales:segments:" +:+ day)
              match dbCustomers w !! orderCustomer order with
              | Some customer => customerSegments customer
              | None => []
              end w1) as (w' & Hloop & Hsegments).
  exists w1, w'. split; [| split].
  - unfold Analytics.trackSaleEvent, tryCatch.
    unfold bind at 1, dateNow at 1, gets at 1. cbv beta zeta.
    unfold bind at 1, Redis.zadd at 1, modify at 1. cbv beta.
    unfold bind at 1, Redis.zremrangebyscore at 1, modify at 1. cbv beta.
    unfold bind at 1, dateNow at 1, gets at 1. cbv beta zeta.
    unfold bind at 1, Redis.hincrby at 1. cbv beta zeta.
    unfold bind at 1, Redis.hincrby at 1. cbv beta zeta.
    unfold bind at 1, Segmentation.customerFindById, gets. cbv beta.
    change (forEach _ _ _) with
      (forEach match dbCustomers w !! orderCustomer order with
               | Some customer => customerSegments customer
               | None => []
               end
         (fun segment =>
            Redis.hincrby ("sales:segments:" +:+ day) segment 1 ;;; ret tt) w1)
      in Hloop.
    destruct (dbCustomers w !! orderCustomer order) as [customer |] eqn:Ec.
    + change (dbCustomers _ !! orderCustomer order)
        with (dbCustomers w !! orderCustomer order).
      rewrite Ec. cbv iota beta.
      match goal with |- match ?run with _ => _ end = _ =>
        change run with
          (forEach (customerSegments customer)
             (fun segment =>
                Redis.hincrby ("sales:segments:" +:+ day) segment 1 ;;; ret tt)
             w1)
      end.
      now rewrite Hloop.
    + change (dbCustomers _ !! orderCustomer order)
        with (dbCustomers w !! orderCustomer order).
      rewrite Ec. cbv iota beta. simpl in Hloop. unfold ret in *.
      inversion Hloop. reflexivity.
  - intros k f. unfold w1, wa. rewrite !hashCounter_hincrby.
    change (hashCounter w0 k f) with (hashCounter w k f).
    destruct (decide (k = "sales:daily:" +:+ day)) as [-> | Hk].
    + rewrite (bool_decide_eq_true_2 ("sales:daily:" +:+ day = _)) by done.
      destruct (decide (f = "count")) as [-> | Hcount].
      * rewrite (bool_decide_eq_false_2 (_ /\ "count" = "revenue"))
          by (intros [_ H]; discriminate H).
        rewrite !bool_decide_eq_true_2 by done. lia.
      * rewrite (bool_decide_eq_false_2 (f = "count")) by done.
        rewrite (bool_decide_eq_false_2 (_ /\ f = "count"))
          by (intros [_ H]; done).
        destruct (decide (f = "revenue")) as [-> | Hrevenue].
        -- rewrite !bool_decide_eq_true_2 by done. lia.
        -- rewrite (bool_decide_eq_false_2 (f = "revenue")) by done.
           rewrite (bool_decide_eq_false_2 (_ /\ f = "revenue"))
             by (intros [_ H]; done).
           lia.
    + rewrite (bool_decide_eq_false_2 (k = _)) by done.
      rewrite !bool_decide_eq_false_2 by (intros [H _]; done). lia.
  - exact Hsegments.
Qed.

(** X14. Tracking a sale never throws and moves the day's counters: in the
    hash of the current UTC day [count] grows by one and [revenue] by the
    order total rounded down; no other field of that hash and no hash other
    than the day's two changes. *)
Theorem trackSaleEvent_daily_counters (order : order) (w : world) :
  let daily := "sales:daily:" +:+ IsoDate.isoDate (clock w) in
  let after := snd (Analytics.trackSaleEvent order w) in
  fst (Analytics.trackSaleEvent order w) = Ok tt
  /\ hashCounter after daily "count" = hashCounter w daily "count" + 1
  /\ hashCounter after daily "revenue"
     = hashCounter w daily "revenue" + Qfloor (orderTotal order)
  /\ (forall field, field <> "count" -> field <> "revenue" ->
        hashCounter after daily field = hashCounter w daily field)
  /\ (forall key field,
        key <> daily ->
        key <> "sales:segments:" +:+ IsoDate.isoDate (clock w) ->
        hashCounter after key field = hashCounter w key field).
Proof.
  cbv zeta.
  destruct (trackSaleEvent_run order w) as (w1 & w' & -> & Hdaily & Hsegments).
  cbn [fst snd]. split; [reflexivity |].
  repeat split; intros; rewrite Hsegments, Hdaily;
    repeat case_bool_decide; try lia; try congruence;
    exfalso; eapply daily_not_segments; eauto.
Qed.

(** X15. Tracking a sale counts the buyer's stored segments: in the day's
    segment hash every label grows by the number of times it occurs in the
    [segments] the customer document holds, and by nothing when the order's
    customer is not in the collection. *)
Theorem trackSaleEvent_segment_counters (order : order) (w : world)
  (segment : string) :
  let key := "sales:segments:" +:+ IsoDate.isoDate (clock w) in
  hashCounter (snd (Analytics.trackSaleEvent order w)) key segment
  = hashCounter w key segment
    + occurrences segment
        match dbCustomers w !! orderCustomer order with
        | Some customer => customerSegments customer
        | None => []
        end.
Proof.
  cbv zeta.
  destruct (trackSaleEvent_run order w) as (w1 & w' & -> & Hdaily & Hsegments).
  cbn [snd]. rewrite Hsegments, Hdaily.
  repeat case_bool_decide; try lia; try congruence.
  all: exfalso; eapply daily_not_segments; symmetry; eassumption.
Qed.

(** X16. Reading the real-time figures changes nothing and never throws;
    the per-minute rates are the quotients of the totals by five, the
    minutes of the window, and with no member in the window every figure is
    zero. *)
Theorem getRealTimeSales_rates (w : world) :
  exists st,
    Analytics.getRealTimeSales w = (Ok st, w)
    /\ Analytics.salesPerMinute st
       = Qdiv (inject_Z (Analytics.totalSales st)) 5
    /\ Analytics.revenuePerMinute st = Qdiv (Analytics.totalRevenue st) 5
    /\ (Spec.window w = [] ->
        st = Analytics.Stats 0 0 (0 / 5) (0 / 5) []).
Proof.
  unfold Analytics.getRealTimeSales, tryCatch.
  unfold bind at 1, dateNow, gets. cbv beta zeta.
  unfold bind at 1, Redis.zrangebyscore, gets. cbv beta.
  unfold Analytics.accumulate. rewrite accumulate_from.
  eexists. split; [reflexivity |]. cbn [Analytics.salesPerMinute
    Analytics.revenuePerMinute Analytics.totalSales Analytics.totalRevenue].
  change (inject_Z (Analytics.REAL_TIME_WINDOW / 60)) with (5%Q).
  repeat split.
  unfold Spec.window. intros ->. reflexivity.
Qed.

(** *** Growth rates at the edges *)

(** X17. The growth-rate pass keeps the rows: dropping [growthRate] from
    its result gives the input back, row by row and in the same order. *)
Theorem calculateGrowthRates_keeps_rows (results : list Revenue.bucket) :
  map Revenue.base (Revenue.calculateGrowthRates results) = results.
Proof.
  unfold Revenue.calculateGrowthRates. apply list_eq. intros i.
  change (map Revenue.base) with (fmap (M := list) Revenue.base).
  rewrite list_lookup_fmap, list_lookup_imap.
  now destruct (results !! i).
Qed.

Lemma sign_over_zero (c p : Q) :
  Qeq p 0 -> Qsgn (Qminus c p) = Z.sgn (Qnum c).
Proof.
  intros Hp. unfold Qsgn, Qminus, Qplus, Qopp. simpl.
  unfold Qeq in Hp. simpl in Hp. rewrite Z.mul_1_r in Hp. rewrite Hp. simpl.
  rewrite Z.add_0_r, Z.sgn_mul. simpl. lia.
Qed.

(** X18. A bucket that follows a bucket of zero revenue has no finite growth
    rate: the division by zero makes it Infinity when its own revenue is
    positive, -Infinity when it is negative and NaN when it is zero too. *)
Theorem growth_after_zero_revenue
  (results : list Revenue.bucket) (i : nat)
  (previous current : Revenue.bucket)
  (Hprevious : results !! i = Some previous)
  (Hcurrent : results !! S i = Some current)
  (Hzero : Qeq (Revenue.revenue previous) 0) :
  exists rate,
    Revenue.calculateGrowthRates results !! S i
    = Some (Revenue.BucketWithGrowth current rate)
    /\ (Qlt 0 (Revenue.revenue current) -> rate = PosInf)
    /\ (Qlt (Revenue.revenue current) 0 -> rate = NegInf)
    /\ (Qeq (Revenue.revenue current) 0 -> rate = NaN).
Proof.
  eexists. split.
  - unfold Revenue.calculateGrowthRates.
    rewrite list_lookup_imap, Hcurrent, jsIndex_pred, Hprevious. reflexivity.
  - unfold Revenue.growthFormula. cbn [sub div].
    apply Qeq_bool_iff in Hzero as Hbool. rewrite Hbool.
    rewrite (sign_over_zero _ _ Hzero).
    unfold Qlt, Qeq. simpl. rewrite !Z.mul_1_r.
    destruct (Qnum (Revenue.revenue current)) as [| n | n]; simpl;
      repeat split; intros H; try reflexivity; try lia; discriminate H.
Qed.

Lemma growth_after_zero_revenue_witness :
  exists rate,
    Revenue.calculateGrowthRates (Revenue.ofRevenues [0; 50]%Q) !! 1%nat
    = Some (Revenue.BucketWithGrowth (Revenue.Bucket "" 50 1 50) rate)
    /\ (Qlt 0 50 -> rate = PosInf)
    /\ (Qlt 50 0 -> rate = NegInf)
    /\ (Qeq 50 0 -> rate = NaN).
Proof.
  apply (growth_after_zero_revenue (Revenue.ofRevenues [0; 50]%Q) 0
           (Revenue.Bucket "" 0 1 0) (Revenue.Bucket "" 50 1 50));
    reflexivity.
Defined.

(** *** Drawing and keeping a variant *)

Lemma selectFrom_member (random : Q) (variants : list string) :
  forall cumulative distribution v,
    CartRecovery.selectFrom random cumulative variants distribution = Some v ->
    v ∈ variants.
Proof.
  induction variants as [| v0 rest IH]; intros cumulative distribution v;
    simpl; [discriminate |].
  destruct (match _ with Fin c => Qle_bool random c | _ => false end).
  - intros [= ->]. left.
  - intros H. right. exact (IH _ _ _ H).
Qed.

Lemma last_member (v : string) (variants : list string) :
  last variants = Some v -> v ∈ variants.
Proof.
  intros H. apply last_Some in H as [front ->].
  apply elem_of_app. right. left.
Qed.

Lemma selectVariant_member (v0 : string) (vs : list string)
  (distribution : list Q) (w : world) :
  exists v,
    CartRecovery.selectVariant (v0 :: vs) distribution w
    = (Ok (Some v), withRandomIndex (S (randomIndex w)) w)
    /\ v ∈ v0 :: vs.
Proof.
  unfold CartRecovery.selectVariant, bind, mathRandom.
  destruct (CartRecovery.selectFrom _ _ _ _) as [v |] eqn:Eselect.
  - exists v. split; [reflexivity |].
    exact (selectFrom_member _ _ _ _ _ Eselect).
  - destruct (last (v0 :: vs)) as [v |] eqn:Elast.
    + exists v. split; [reflexivity | exact (last_member _ _ Elast)].
    + apply last_None in Elast. discriminate Elast.
Qed.

(** X19. Drawing a variant among at least one takes exactly one random
    number and gives one of the variants: the first one when the draw is at
    most the first weight, and the last one when no running sum of the
    weights reaches the draw. *)
Theorem selectVariant_picks_a_variant
  (v0 : string) (vs : list string) (distribution : list Q) (w : world) :
  let random := randomDraws w (randomIndex w) in
  exists v,
    CartRecovery.selectVariant (v0 :: vs) distribution w
    = (Ok (Some v), withRandomIndex (S (randomIndex w)) w)
    /\ v ∈ v0 :: vs
    /\ (forall d rest, distribution = d :: rest -> Qle random d -> v = v0)
    /\ (CartRecovery.selectFrom random (Fin 0) (v0 :: vs) distribution = None ->
        last (v0 :: vs) = Some v).
Proof.
  cbv zeta. unfold CartRecovery.selectVariant, bind, mathRandom.
  destruct (CartRecovery.selectFrom _ _ _ _) as [v |] eqn:Eselect.
  - exists v. split; [reflexivity |].
    split; [exact (selectFrom_member _ _ _ _ _ Eselect) |].
    split; [| discriminate].
    intros d rest -> Hle. simpl in Eselect.
    replace (Qle_bool _ (0 + d)) with true in Eselect; [congruence |].
    symmetry. apply Qle_bool_iff. now rewrite Qplus_0_l.
  - destruct (last (v0 :: vs)) as [v |] eqn:Elast.
    + exists v. split; [reflexivity |].
      split; [exact (last_member _ _ Elast) |].
      split; [| reflexivity].
      intros d rest -> Hle. simpl in Eselect.
      replace (Qle_bool _ (0 + d)) with true in Eselect; [discriminate |].
      symmetry. apply Qle_bool_iff. now rewrite Qplus_0_l.
    + apply last_None in Elast. discriminate Elast.
Qed.

Lemma abTests_named (testName : string) (test : CartRecovery.abTest) :
  CartRecovery.abTestsGet testName = Some test ->
  CartRecovery.active test = true
  /\ exists v0 vs, CartRecovery.variants test = v0 :: vs
                   /\ Forall (fun v => v <> "") (v0 :: vs).
Proof.
  unfold CartRecovery.abTestsGet, CartRecovery.abTests.
  cbv [List.find fst].
  repeat (destruct (String.eqb _ testName);
          [intros [= <-]; split; [reflexivity |]; simpl;
           eexists _, _; split; [reflexivity |];
           repeat constructor; discriminate |]).
  discriminate.
Qed.

(** X20. An assignment sticks: once a customer with nothing cached for a
    test has been given a variant, every later assignment for that test and
    customer finds the stored variant, whatever the clock and the random
    draws have become, returns it and changes nothing. *)
Theorem assignment_is_sticky
  (testName customerId v : string) (w w1 : world)
  (Hmiss : Redis.lookupLive w (CartRecovery.assignmentKey testName customerId)
           = None)
  (Hrun : CartRecovery.assignABTestVariant testName customerId w
          = (Ok (Some v), w1)) :
  forall w2,
    redisStrings w2 !! CartRecovery.assignmentKey testName customerId
    = redisStrings w1 !! CartRecovery.assignmentKey testName customerId ->
    CartRecovery.assignABTestVariant testName customerId w2 = (Ok (Some v), w2).
Proof.
  intros w2 Hkept. revert Hrun.
  unfold CartRecovery.assignABTestVariant.
  destruct (CartRecovery.abTestsGet testName) as [test |] eqn:Etest;
    [| discriminate].
  destruct (abTests_named _ _ Etest) as (Hactive & v0 & vs & Evariants & Hnamed).
  rewrite Hactive, Evariants. change (negb true) with false. cbv iota.
  unfold bind at 1, Redis.get at 1, gets at 1. cbv beta zeta.
  rewrite Hmiss. cbv beta iota delta [truthy negb].
  destruct (selectVariant_member v0 vs (CartRecovery.distribution test) w)
    as (v' & Hselect & Hmember).
  unfold bind at 1. rewrite Hselect. cbv beta iota.
  unfold bind at 1, Redis.set, modify, ret. cbv beta.
  intros [= -> <-].
  unfold bind at 1, Redis.get, gets. cbv beta zeta.
  unfold Redis.lookupLive. rewrite Hkept. simpl.
  rewrite lookup_insert_eq. simpl.
  rewrite Forall_forall in Hnamed. specialize (Hnamed _ Hmember).
  destruct v as [| a rest]; [congruence |]. reflexivity.
Qed.

Lemma assignment_is_sticky_witness :
  CartRecovery.assignABTestVariant "timing" "c1"
    (withClock 1800000000000
       (snd (CartRecovery.assignABTestVariant "timing" "c1" emptyWorld)))
  = (Ok (Some "immediate"),
     withClock 1800000000000
       (snd (CartRecovery.assignABTestVariant "timing" "c1" emptyWorld))).
Proof.
  apply (assignment_is_sticky "timing" "c1" "immediate" emptyWorld
           (snd (CartRecovery.assignABTestVariant "timing" "c1" emptyWorld)));
    reflexivity.
Defined.

(** *** Starting the recovery workflow *)

Lemma attemptOf_none (now : Z) (allowed : list string)
  (i : CartRecovery.interval) :
  Spec.attemptOf now allowed i = None
  <-> forall c, c ∈ CartRecovery.channels i -> c ∉ allowed.
Proof.
  unfold Spec.attemptOf.
  destruct (list_intersection _ _) as [| c0 common] eqn:Ei.
  - split; [| reflexivity]. intros _ c Hc Ha.
    assert (Hin : c ∈ list_intersection (CartRecovery.channels i) allowed)
      by (apply list_elem_of_intersection; tauto).
    rewrite Ei in Hin. inversion Hin.
  - split; [discriminate |]. intros Hnone. exfalso.
    assert (Hin : c0 ∈ list_intersection (CartRecovery.channels i) allowed)
      by (rewrite Ei; left).
    apply list_elem_of_intersection in Hin. destruct Hin as [Hc Ha].
    exact (Hnone c0 Hc Ha).
Qed.

Lemma attemptOf_future (now : Z) (allowed : list string) (x : Z * list string) :
  x ∈ omap (Spec.attemptOf now allowed) CartRecovery.RECOVERY_INTERVALS ->
  now < fst x.
Proof.
  rewrite list_elem_of_omap. intros (i & Hi & Hx).
  unfold Spec.attemptOf in Hx.
  destruct (list_intersection _ _); [discriminate |].
  injection Hx as <-. simpl.
  unfold CartRecovery.RECOVERY_INTERVALS in Hi.
  repeat (apply elem_of_cons in Hi; destruct Hi as [-> | Hi]); simpl; try lia.
  inversion Hi.
Qed.

Lemma no_attempt_iff (now : Z) (allowed : list string) :
  omap (Spec.attemptOf now allowed) CartRecovery.RECOVERY_INTERVALS = []
  <-> ("email" ∉ allowed) /\ ("whatsapp" ∉ allowed).
Proof.
  unfold CartRecovery.RECOVERY_INTERVALS. cbn [omap list_omap].
  split.
  - destruct (Spec.attemptOf now allowed (CartRecovery.Interval 1 _)) eqn:E1;
      [discriminate |].
    destruct (Spec.attemptOf now allowed (CartRecovery.Interval 24 _)) eqn:E2;
      [discriminate |].
    intros _. pose proof (proj1 (attemptOf_none _ _ _) E2) as Hnone.
    simpl in Hnone. split; apply Hnone; repeat constructor.
  - intros [Hemail Hwhatsapp].
    assert (Hnone : forall i,
              i ∈ CartRecovery.RECOVERY_INTERVALS ->
              Spec.attemptOf now allowed i = None).
    { intros i Hi. apply attemptOf_none. intros c Hc.
      unfold CartRecovery.RECOVERY_INTERVALS in Hi.
      repeat (apply elem_of_cons in Hi; destruct Hi as [-> | Hi]);
        [.. | inversion Hi]; simpl in Hc;
        repeat (apply elem_of_cons in Hc; destruct Hc as [-> | Hc]);
        try assumption; inversion Hc. }
    unfold CartRecovery.RECOVERY_INTERVALS in Hnone.
    rewrite !Hnone by repeat constructor. reflexivity.
Qed.

(** X21. Starting the workflow never throws and always stores the plan
    under the cart's plan key for seven days.  When the plan has an attempt,
    exactly one timer is set, for the first attempt at the time it is
    scheduled for, and nothing is logged; when the strategy allows neither
    email nor whatsapp the stored plan has no attempt, no timer is set and
    the TypeError of reading the missing first attempt is logged. *)
Theorem initializeRecoveryWorkflow_outcome
  (cart : cart) (customer : customer) (strategy : strategy) (w : world) :
  exists plan w',
    CartRecovery.initializeRecoveryWorkflow cart customer strategy w
    = (Ok tt, w')
    /\ redisStrings w' !! CartRecovery.planKey (cartId cart)
       = Some (Entry (VPlan plan) (Some (clock w + 7 * 24 * 60 * 60 * 1000)))
    /\ plan = RecoveryPlan (cartId cart) (customerId customer) strategy
                (planAttempts plan)
    /\ match planAttempts plan with
       | [] =>
           timers w' = timers w
           /\ errorLog w'
              = errorLog w
                ++ [JsError "TypeError"
                      "Cannot read properties of undefined (reading 'scheduledFor')"]
       | first :: _ =>
           timers w' = timers w ++ [Timer (scheduledFor first) (cartId cart) first]
           /\ clock w < scheduledFor first
           /\ errorLog w' = errorLog w
       end
    /\ (planAttempts plan = []
        <-> ("email" ∉ strategyChannels strategy)
            /\ ("whatsapp" ∉ strategyChannels strategy)).
Proof.
  destruct (planAttemptsLoop_spec cart strategy CartRecovery.RECOVERY_INTERVALS
              [] w) as (new & Hloop & Hnew).
  exists (RecoveryPlan (cartId cart) (customerId customer) strategy new).
  unfold CartRecovery.initializeRecoveryWorkflow, tryCatch.
  unfold bind at 1, CartRecovery.createRecoveryPlan. unfold bind at 1.
  rewrite Hloop. cbv beta iota. unfold ret at 1.
  unfold bind at 1, Redis.setex. cbv beta iota.
  cbn [planAttempts app].
  assert (Hempty : new = []
                   <-> ("email" ∉ strategyChannels strategy)
                       /\ ("whatsapp" ∉ strategyChannels strategy)).
  { rewrite <- (no_attempt_iff (clock w)), <- Hnew.
    destruct new; simpl; split; congruence. }
  destruct new as [| first rest].
  - eexists. split; [reflexivity |]. simpl.
    rewrite lookup_insert_eq. repeat split; try tauto; apply Hempty; reflexivity.
  - assert (Hfuture : clock w < scheduledFor first).
    { apply (attemptOf_future (clock w) (strategyChannels strategy)
               (scheduledFor first, attemptChannels first)).
      rewrite <- Hnew. left. }
    eexists. split; [reflexivity |]. simpl.
    rewrite lookup_insert_eq.
    replace (clock w + Z.max 0 (scheduledFor first - clock w))
      with (scheduledFor first) by lia.
    repeat split; try tauto; try apply Hempty; try lia.
Qed.

(** *** What one sweep does to each cart *)

Lemma blind_clock (id : string) : blindToProcessing id clock.
Proof.
  split; [now apply blindToWrites_trivial | now apply keyBlind_trivial |
          reflexivity].
Qed.

Lemma process_clock (x : cart * option customer) (w : world) :
  clock (snd (CartRecovery.processAbandonedCart Segmentation.defaultRules x w))
  = clock w.
Proof.
  destruct x as [c customer].
  rewrite (process_after_abandon clock) by apply blind_clock.
  rewrite abandon_world.
  destruct (cartStatusOf c); try reflexivity.
  now destruct (CartModel.validates c).
Qed.

Lemma sweep_marks_now (l : list (cart * option customer)) (w : world)
  (c : cart) (customer : option customer) :
  NoDup (map (fun x => cartId (fst x)) l) ->
  (c, customer) ∈ l ->
  cartStatusOf c = Active ->
  CartModel.validates c = true ->
  cartAt (cartId c)
    (snd (forEach l
            (CartRecovery.processAbandonedCart Segmentation.defaultRules) w))
  = Some (abandoned (clock w) c).
Proof.
  revert w. induction l as [| x rest IH]; intros w Hunique Hin Hactive Hvalid.
  - inversion Hin.
  - rewrite forEach_cons_returns by apply process_returns.
    inversion Hunique as [| id ids Hfresh Hrest]; subst.
    apply elem_of_cons in Hin. destruct Hin as [<- | Hin].
    + assert (Hothers : Forall (fun y => cartId (fst y) <> cartId c) rest).
      { rewrite Forall_forall. intros y Hy Heq. apply Hfresh.
        simpl. rewrite <- Heq.
        apply list_elem_of_In, in_map_iff. exists y.
        split; [reflexivity | now apply list_elem_of_In]. }
      destruct (forEach rest _ _) as [r w'] eqn:Erest. simpl snd.
      rewrite (sweep_frames (cartAt (cartId c)) (cartId c) rest
                 (cartLocal_cartAt _) Hothers _ _ _ Erest).
      now apply process_marks.
    + rewrite IH by assumption. now rewrite process_clock.
Qed.

Lemma unique_by_id (carts : list cart) (c c' : cart) :
  uniqueIds carts -> c ∈ carts -> c' ∈ carts -> cartId c' = cartId c -> c' = c.
Proof.
  intros Hunique Hc Hc' Hid.
  pose proof (unique_find carts c Hunique Hc) as Hfound.
  pose proof (unique_find carts c' Hunique Hc') as Hfound'.
  rewrite Hid in Hfound'. congruence.
Qed.

(** X22. One sweep, cart by cart.  A cart the query selects (active, idle
    for more than thirty minutes, not empty) is stored abandoned, with the
    time of the sweep as its [abandonedAt], when its document passes
    validation; when it does not, the save is refused and the cart keeps
    its document, its timers and whatever is stored under its plan key, as
    does any cart the query does not select. *)
Theorem sweep_changes_selected_carts_only
  (w : world) (c : cart)
  (Hunique : uniqueIds (dbCarts w))
  (Hin : c ∈ dbCarts w) :
  let w1 :=
    snd (CartRecovery.detectAbandonedCarts Segmentation.defaultRules w) in
  if CartRecovery.potentiallyAbandoned
       (clock w - CartRecovery.ABANDONMENT_THRESHOLD) c
     && CartModel.validates c
  then cartAt (cartId c) w1
       = Some (CartModel.preSave
                 (CartModel.setAbandonedAt (Some (clock w))
                    (CartModel.setStatus Abandoned c)))
  else cartAt (cartId c) w1 = Some c
       /\ timersOf (cartId c) w1 = timersOf (cartId c) w
       /\ cachedAt (CartRecovery.planKey (cartId c)) w1
          = cachedAt (CartRecovery.planKey (cartId c)) w.
Proof.
  intros w1. unfold w1.
  pose proof (unique_find _ _ Hunique Hin) as Hfound.
  destruct (CartRecovery.potentiallyAbandoned _ c) eqn:Equery;
    [destruct (CartModel.validates c) eqn:Hvalid |]; cbn [andb].
  - rewrite detect_eq.
    assert (Hactive : cartStatusOf c = Active).
    { unfold CartRecovery.potentiallyAbandoned in Equery.
      destruct (cartStatusOf c); try discriminate Equery. reflexivity. }
    rewrite (sweep_marks_now _ w c (dbCustomers w !! cartCustomer c)).
    + unfold abandoned. now rewrite Hactive.
    + rewrite map_map. simpl. now apply selected_unique.
    + apply list_elem_of_In, in_map_iff. exists c.
      split; [reflexivity |]. apply filter_In.
      split; [now apply list_elem_of_In | exact Equery].
    + exact Hactive.
    + exact Hvalid.
  - rewrite (sweep_keeps (cartAt (cartId c)) (cartId c) c w),
      (sweep_keeps (timersOf (cartId c)) (cartId c) c w),
      (sweep_keeps (cachedAt (CartRecovery.planKey (cartId c))) (cartId c) c w);
      auto using cartLocal_cartAt, cartLocal_timersOf, cartLocal_cachedAt.
  - rewrite detect_eq.
    assert (Hothers :
      Forall (fun x => cartId (fst x) <> cartId c)
        (map (populate w) (selectedAt (clock w) w))).
    { rewrite Forall_forall. intros x Hx Hid.
      apply list_elem_of_In, in_map_iff in Hx.
      destruct Hx as (c' & <- & Hc'). apply filter_In in Hc'.
      destruct Hc' as [Hc' Hquery]. simpl in Hid.
      rewrite (unique_by_id _ c c' Hunique Hin
                 ltac:(now apply list_elem_of_In) Hid) in Hquery.
      congruence. }
    destruct (forEach _ _ w) as [r w'] eqn:Erun. simpl snd.
    rewrite (sweep_frames (cartAt (cartId c)) (cartId c) _
               (cartLocal_cartAt _) Hothers _ _ _ Erun).
    rewrite (sweep_frames (timersOf (cartId c)) (cartId c) _
               (cartLocal_timersOf _) Hothers _ _ _ Erun).
    rewrite (sweep_frames (cachedAt (CartRecovery.planKey (cartId c)))
               (cartId c) _ (cartLocal_cachedAt _) Hothers _ _ _ Erun).
    split; [| split; reflexivity].
    exact Hfound.
Qed.

Lemma sweep_changes_selected_carts_only_witness :
  cartAt "cart1"
    (snd (CartRecovery.detectAbandonedCarts Segmentation.defaultRules sweepWorld))
  = Some (CartModel.preSave
            (CartModel.setAbandonedAt (Some (clock sweepWorld))
               (CartModel.setStatus Abandoned staleCart))).
Proof.
  apply (sweep_changes_selected_carts_only sweepWorld staleCart).
  - unfold uniqueIds. simpl. apply (bool_decide_unpack _). vm_compute. exact I.
  - vm_compute. left.
Defined.

(** *** Processing a cart that cannot be classified *)

(** X23. A selected cart whose document passes validation and whose
    customer reference resolves to no document
    is still stored abandoned, but that is all: classification faults on
    the null customer, so no plan is stored, no timer set and no statistic
    counted; the fault is logged twice, by the classifier and by the
    processing step, and the step itself returns. *)
Theorem dangling_customer_gets_no_plan
  (rules : Segmentation.registry) (c : cart) (w : world)
  (Hactive : cartStatusOf c = Active)
  (Hvalid : CartModel.validates c = true) :
  exists w',
    CartRecovery.processAbandonedCart rules (c, None) w = (Ok tt, w')
    /\ cartAt (cartId c) w'
       = Some (CartModel.preSave
                 (CartModel.setAbandonedAt (Some (clock w))
                    (CartModel.setStatus Abandoned c)))
    /\ redisStrings w' = redisStrings w
    /\ timers w' = timers w
    /\ errorLog w'
       = errorLog w ++ [CartRecovery.nullCustomer; CartRecovery.nullCustomer].
Proof.
  unfold CartRecovery.processAbandonedCart, tryCatch.
  unfold bind at 1. rewrite abandon_eq, Hactive, Hvalid. cbv beta iota.
  unfold bind at 1, loggerError, modify, throw. cbv beta iota.
  eexists. split; [reflexivity |].
  split; [| split; [reflexivity | split; [reflexivity |]]].
  - unfold abandoned. rewrite Hactive.
    apply cartAt_saved. reflexivity.
  - simpl. now rewrite <- app_assoc.
Qed.

Lemma dangling_customer_gets_no_plan_witness :
  exists w',
    CartRecovery.processAbandonedCart Segmentation.defaultRules
      (activeCart, None) emptyWorld = (Ok tt, w')
    /\ cartAt "cart1" w'
       = Some (CartModel.preSave
                 (CartModel.setAbandonedAt (Some (clock emptyWorld))
                    (CartModel.setStatus Abandoned activeCart)))
    /\ redisStrings w' = redisStrings emptyWorld
    /\ timers w' = timers emptyWorld
    /\ errorLog w'
       = errorLog emptyWorld
         ++ [CartRecovery.nullCustomer; CartRecovery.nullCustomer].
Proof.
  apply (dangling_customer_gets_no_plan Segmentation.defaultRules activeCart
           emptyWorld);
    reflexivity.
Defined.

(** X24. When the Order collection fails while the customer of a selected
    cart, whose document passes validation, is
    classified (nothing being cached for the customer), the cart has already
    been stored abandoned and stays so, the step returns, and nothing of the
    recovery is set up: no Redis key is written, no timer is set, and the
    store's error is logged twice. *)
Theorem classification_fault_gets_no_plan
  (c : cart) (customer : customer) (w : world) (e : jsError)
  (Hactive : cartStatusOf c = Active)
  (Hvalid : CartModel.validates c = true)
  (Hfault : orderFault w = Some e)
  (Hmiss : Redis.lookupLive w
             ("customer:" +:+ customerId customer +:+ ":segments")
           = None) :
  exists w',
    CartRecovery.processAbandonedCart Segmentation.defaultRules
      (c, Some customer) w = (Ok tt, w')
    /\ cartAt (cartId c) w'
       = Some (CartModel.preSave
                 (CartModel.setAbandonedAt (Some (clock w))
                    (CartModel.setStatus Abandoned c)))
    /\ redisStrings w' = redisStrings w
    /\ timers w' = timers w
    /\ errorLog w' = errorLog w ++ [e; e].
Proof.
  unfold CartRecovery.processAbandonedCart, tryCatch.
  unfold bind at 1. rewrite abandon_eq, Hactive, Hvalid. cbv beta iota.
  set (w1 := withCarts (CartModel.store (abandoned (clock w) c)) w).
  assert (Hclassify :
    Segmentation.segmentCustomer Segmentation.defaultRules customer w1
    = (Throw e, withErrorLog (fun l => l ++ [e]) w1)).
  { rewrite segmentCustomer_miss by exact Hmiss.
    assert (Hthrow :
      Segmentation.applyRules Segmentation.defaultRules customer [] w1
      = (Throw e, w1)).
    { apply (applyRules_throws customer [] w1 [] w1 (Spec.RulesNil _ _)
               "purchase_frequency" Segmentation.purchaseFrequencyRule
               (tail Segmentation.defaultRules) e w1 []).
      unfold Segmentation.purchaseFrequencyRule, Segmentation.orderFind, bind.
      change (orderFault w1) with (orderFault w). now rewrite Hfault. }
    now rewrite Hthrow. }
  unfold bind at 1. rewrite Hclassify. cbv beta iota.
  unfold loggerError, modify. cbv beta iota.
  eexists. split; [reflexivity |].
  split; [| split; [reflexivity | split; [reflexivity |]]].
  - subst w1. unfold abandoned. rewrite Hactive.
    apply cartAt_saved. reflexivity.
  - simpl. now rewrite <- app_assoc.
Qed.

Lemma classification_fault_gets_no_plan_witness :
  exists w',
    CartRecovery.processAbandonedCart Segmentation.defaultRules
      (activeCart, Some businessCustomer) unreachableOrdersWorld = (Ok tt, w')
    /\ cartAt "cart1" w'
       = Some (CartModel.preSave
                 (CartModel.setAbandonedAt (Some (clock unreachableOrdersWorld))
                    (CartModel.setStatus Abandoned activeCart)))
    /\ redisStrings w' = redisStrings unreachableOrdersWorld
    /\ timers w' = timers unreachableOrdersWorld
    /\ errorLog w' = errorLog unreachableOrdersWorld ++ [networkError; networkError].
Proof.
  apply (classification_fault_gets_no_plan activeCart businessCustomer
           unreachableOrdersWorld networkError);
    reflexivity.
Defined.

(** *** Tracking the response to an attempt *)

Lemma findById_id (id : string) (carts : list cart) (c : cart) :
  CartModel.findById id carts = Some c -> cartId c = id.
Proof.
  unfold CartModel.findById. intros H. apply find_some in H.
  now apply String.eqb_eq.
Qed.

(** X25. Tracking a response other than a conversion, for a cart whose
    stored document passes validation or for no stored cart at all, never
    throws and touches one document at most: Redis, the timers, the log and
    the random generator stay as they are, every other cart keeps its
    document, and the cart named keeps its status.  When the cart is
    unknown, or knows no attempt under the id, nothing changes at all. *)
Theorem response_tracking_touches_one_cart
  (id attempt : string) (response : attemptResponse) (w : world)
  (Hresponse : response <> RConverted)
  (Hvalid : match cartAt id w with
            | Some c => CartModel.validates c = true
            | None => True
            end) :
  exists w',
    CartRecovery.trackRecoveryAttemptResponse id attempt response w
    = (Ok tt, w')
    /\ redisStrings w' = redisStrings w
    /\ timers w' = timers w
    /\ errorLog w' = errorLog w
    /\ randomIndex w' = randomIndex w
    /\ (forall other, other <> id -> cartAt other w' = cartAt other w)
    /\ cartStatusOf <$> cartAt id w' = cartStatusOf <$> cartAt id w
    /\ (match cartAt id w with
        | None => True
        | Some c =>
            List.find (fun a => String.eqb (attemptId a) attempt)
              (recoveryAttempts c) = None
        end -> w' = w).
Proof.
  unfold CartRecovery.trackRecoveryAttemptResponse, tryCatch.
  unfold bind at 1, CartRecovery.cartFindById, gets. cbv beta.
  fold (cartAt id w).
  destruct (cartAt id w) as [c |] eqn:Efound.
  - pose proof (findById_id _ _ _ Efound) as Hid.
    unfold bind at 1, CartModel.updateRecoveryResponse.
    destruct (List.find _ (recoveryAttempts c)) as [a |].
    + cbv zeta.
      assert (Hsame : (match response with
                       | RConverted =>
                           CartModel.setStatus Converted
                             (CartModel.setRecoveryAttempts
                                (CartModel.respond attempt response
                                   (recoveryAttempts c)) c)
                       | _ =>
                           CartModel.setRecoveryAttempts
                             (CartModel.respond attempt response
                                (recoveryAttempts c)) c
                       end)
                      = CartModel.setRecoveryAttempts
                          (CartModel.respond attempt response
                             (recoveryAttempts c)) c)
        by (destruct response; congruence).
      rewrite Hsame, save_eq, respond_validates, Hvalid.
      destruct response; try congruence;
        (eexists; split; [reflexivity |];
         repeat split; try reflexivity;
         [ intros other Hother; apply cartAt_store_other;
           simpl; congruence
         | rewrite (cartAt_saved _ id) by exact Hid; reflexivity
         | discriminate ]).
    + destruct response; try congruence;
        (exists w; repeat split; try reflexivity; now rewrite Efound).
  - exists w. repeat split; try reflexivity. now rewrite Efound.
Qed.

Lemma response_tracking_touches_one_cart_witness :
  exists w',
    CartRecovery.trackRecoveryAttemptResponse "cart1" "a1" RClicked
      (withCarts (fun _ => [answeredCart]) emptyWorld)
    = (Ok tt, w')
    /\ cartStatusOf <$> cartAt "cart1" w' = Some Abandoned.
Proof.
  destruct (response_tracking_touches_one_cart "cart1" "a1" RClicked
              (withCarts (fun _ => [answeredCart]) emptyWorld))
    as (w' & Hrun & _ & _ & _ & _ & _ & Hstatus & _).
  - discriminate.
  - vm_compute. reflexivity.
  - exists w'. split; [exact Hrun | exact Hstatus].
Defined.

(** *** When a scheduled attempt fires *)

Section Execution.

Variable whatsappSend : cart -> customer -> string -> M unit.
Variable objectId : world -> string.

Lemma sendRecoveryMessage_returns (c : cart) (customer : option customer)
  (channel template : string) (w : world) :
  fst (RecoveryExecution.sendRecoveryMessage whatsappSend c customer channel
         template w) = Ok tt.
Proof.
  unfold RecoveryExecution.sendRecoveryMessage, tryCatch.
  match goal with
  | |- fst (let (r, w') := ?body w in _) = _ =>
      destruct (body w) as [[[] | e] w1]
  end; reflexivity.
Qed.

Lemma attemptLoop_spec (customer : option customer)
  (templates : gmap string string) (channels : list string) :
  Forall (fun channel => channel ∈ CartModel.attemptTypes) channels ->
  forall (c : cart) (w : world),
  CartModel.validates c = true ->
  exists c' w',
    RecoveryExecution.attemptLoop whatsappSend objectId c customer channels
      templates w = (Ok c', w')
    /\ map RecoveryExecution.logged (recoveryAttempts c')
       = map RecoveryExecution.logged (recoveryAttempts c)
         ++ map (fun ct => (fst ct, snd ct, RNone))
              (RecoveryExecution.withTemplate (Attempt 0 channels templates))
    /\ cartId c' = cartId c
    /\ cartStatusOf c' = cartStatusOf c
    /\ match RecoveryExecution.withTemplate (Attempt 0 channels templates) with
       | [] => c' = c /\ w' = w
       | _ => cartAt (cartId c) w' = Some c'
       end.
Proof.
  unfold RecoveryExecution.withTemplate. cbn [attemptChannels attemptTemplates].
  induction channels as [| channel rest IH]; intros Hvalid c w Hcart.
  - exists c, w. simpl. rewrite app_nil_r. repeat split.
  - inversion Hvalid as [| ch chs Hchannel Hrest]; subst.
    cbn [RecoveryExecution.attemptLoop omap list_omap].
    destruct (templates !! channel) as [[| a t] |];
      try apply (IH Hrest _ _ Hcart).
    unfold bind at 1.
    pose proof (sendRecoveryMessage_returns c customer channel (String a t) w)
      as Hsent.
    destruct (RecoveryExecution.sendRecoveryMessage _ _ _ _ _ w) as [r w1].
    simpl in Hsent. subst r. cbv beta iota.
    unfold bind at 1, gets. cbv beta.
    unfold bind at 1, CartModel.logRecoveryAttempt.
    unfold bind at 1, dateNow, gets. cbv beta. rewrite save_eq.
    rewrite (logged_validates _ _ _ _ _ Hcart Hchannel).
    set (c1 := CartModel.preSave _).
    set (w2 := withCarts (CartModel.store c1) w1).
    assert (Hcart1 : CartModel.validates c1 = true).
    { subst c1. rewrite <- (logged_validates (objectId w1) channel
                              (String a t) (clock w1) c Hcart Hchannel).
      now apply validates_ext. }
    destruct (IH Hrest c1 w2 Hcart1)
      as (c' & w' & Hrun & Hlogged & Hid & Hstatus & Hlast).
    exists c', w'. split; [exact Hrun |].
    split.
    { rewrite Hlogged. subst c1. simpl. rewrite map_app, <- app_assoc.
      reflexivity. }
    split; [rewrite Hid; reflexivity |].
    split; [rewrite Hstatus; reflexivity |].
    simpl.
    destruct (omap _ rest) as [| x xs].
    + destruct Hlast as [-> ->]. subst w2. now apply cartAt_saved.
    + exact Hlast.
Qed.

End Execution.

(** X26. A scheduled attempt that fires for a cart that is gone or no longer
    abandoned (recovered, converted, expired) does nothing: no message is
    sent, nothing is logged on the cart, the world is as it was. *)
Theorem fired_attempt_skips_cart_not_abandoned
  (whatsappSend : cart -> customer -> string -> M unit)
  (objectId : world -> string) (id : string) (attempt : attempt) (w : world)
  (Hgone : match cartAt id w with
           | Some c => cartStatusOf c <> Abandoned
           | None => True
           end) :
  RecoveryExecution.executeRecoveryAttempt whatsappSend objectId id attempt w
  = (Ok tt, w).
Proof.
  unfold RecoveryExecution.executeRecoveryAttempt, tryCatch.
  unfold bind at 1, CartRecovery.cartFindById, gets. cbv beta.
  fold (cartAt id w). destruct (cartAt id w) as [c |]; [| reflexivity].
  unfold bind at 1, Segmentation.customerFindById, gets. cbv beta.
  destruct (cartStatusOf c); try reflexivity. congruence.
Qed.

Lemma fired_attempt_skips_cart_not_abandoned_witness :
  RecoveryExecution.executeRecoveryAttempt silentSend constantId "cart1"
    emailAttempt (withCarts (fun _ => [activeCart]) emptyWorld)
  = (Ok tt, withCarts (fun _ => [activeCart]) emptyWorld).
Proof.
  apply (fired_attempt_skips_cart_not_abandoned silentSend constantId "cart1"
           emailAttempt (withCarts (fun _ => [activeCart]) emptyWorld)).
  simpl. discriminate.
Defined.

(** X27. A scheduled attempt that fires for an abandoned cart whose stored
    document passes validation never throws
    and logs, in the order of its channels, one recovery attempt for every
    channel that has a template, with response none, whatever sending did
    and whether or not anything was sent; the cart stays abandoned.  With no
    channel that has a template nothing changes. *)
Theorem fired_attempt_is_logged_per_channel
  (whatsappSend : cart -> customer -> string -> M unit)
  (objectId : world -> string) (id : string) (attempt : attempt)
  (c : cart) (w : world)
  (Hfound : cartAt id w = Some c)
  (Hstatus : cartStatusOf c = Abandoned)
  (Hcart : CartModel.validates c = true)
  (Hvalid : Forall (fun channel => channel ∈ ["email"; "whatsapp"; "sms"])
              (attemptChannels attempt)) :
  exists w',
    RecoveryExecution.executeRecoveryAttempt whatsappSend objectId id attempt w
    = (Ok tt, w')
    /\ match RecoveryExecution.withTemplate attempt with
       | [] => w' = w
       | pairs =>
           exists c',
             cartAt id w' = Some c'
             /\ map RecoveryExecution.logged (recoveryAttempts c')
                = map RecoveryExecution.logged (recoveryAttempts c)
                  ++ map (fun ct => (fst ct, snd ct, RNone)) pairs
             /\ cartStatusOf c' = Abandoned
       end.
Proof.
  pose proof (findById_id _ _ _ Hfound) as Hid.
  destruct (attemptLoop_spec whatsappSend objectId
              (dbCustomers w !! cartCustomer c) (attemptTemplates attempt)
              (attemptChannels attempt) Hvalid c w Hcart)
    as (c' & w' & Hrun & Hlogged & _ & Hkept & Hlast).
  change (RecoveryExecution.withTemplate
            (Attempt 0 (attemptChannels attempt) (attemptTemplates attempt)))
    with (RecoveryExecution.withTemplate attempt) in *.
  exists w'. split.
  - unfold RecoveryExecution.executeRecoveryAttempt, tryCatch.
    unfold bind at 1, CartRecovery.cartFindById, gets. cbv beta.
    fold (cartAt id w). rewrite Hfound.
    unfold bind at 1, Segmentation.customerFindById, gets. cbv beta.
    rewrite Hstatus. unfold bind at 1. rewrite Hrun. reflexivity.
  - destruct (RecoveryExecution.withTemplate attempt) as [| pair pairs].
    + tauto.
    + exists c'. rewrite <- Hid. split; [exact Hlast |].
      split; [exact Hlogged | congruence].
Qed.

Lemma fired_attempt_is_logged_per_channel_witness :
  exists w',
    RecoveryExecution.executeRecoveryAttempt silentSend constantId "cart1"
      emailAttempt (withCarts (fun _ => [answeredCart]) emptyWorld)
    = (Ok tt, w')
    /\ exists c',
         cartAt "cart1" w' = Some c'
         /\ map RecoveryExecution.logged (recoveryAttempts c')
            = [("email", "t1", RNone); ("email", "t1", RNone)]
         /\ cartStatusOf c' = Abandoned.
Proof.
  apply (fired_attempt_is_logged_per_channel silentSend constantId "cart1"
           emailAttempt answeredCart
           (withCarts (fun _ => [answeredCart]) emptyWorld)).
  - reflexivity.
  - reflexivity.
  - vm_compute. reflexivity.
  - repeat constructor.
Defined.

(** *** What saved orders do to their customer *)

Lemma orderPostSave_step (saved : order * CustomerModel.orderStatus)
  (doc : CustomerModel.document) (db : gmap string CustomerModel.document) :
  db !! orderCustomer (fst saved) = Some doc ->
  CustomerModel.docId doc = orderCustomer (fst saved) ->
  exists doc',
    CustomerModel.orderPostSave saved db !! orderCustomer (fst saved)
    = Some doc'
    /\ CustomerModel.docId doc' = CustomerModel.docId doc
    /\ CustomerModel.totalOrders (CustomerModel.docMetrics doc')
       = CustomerModel.totalOrders (CustomerModel.docMetrics doc) + 1
    /\ CustomerModel.metricsTotalSpent (CustomerModel.docMetrics doc')
       = Qplus (CustomerModel.metricsTotalSpent (CustomerModel.docMetrics doc))
           (orderTotal (fst saved))
    /\ CustomerModel.firstPurchaseDate (CustomerModel.docMetrics doc')
       = match CustomerModel.firstPurchaseDate (CustomerModel.docMetrics doc) with
         | Some date => Some date
         | None => Some (orderCreatedAt (fst saved))
         end
    /\ CustomerModel.metricsLastPurchaseDate (CustomerModel.docMetrics doc')
       = Some (orderCreatedAt (fst saved))
    /\ CustomerModel.points (CustomerModel.docLoyalty doc')
       = foldl Qplus (CustomerModel.points (CustomerModel.docLoyalty doc))
           (CustomerModel.earnedBy [saved]).
Proof.
  destruct saved as [o status]. simpl fst. intros Hstored Hid.
  unfold CustomerModel.orderPostSave. rewrite Hstored.
  unfold CustomerModel.updateMetrics, CustomerModel.updateLoyaltyPoints,
    CustomerModel.save, CustomerModel.earnedBy.
  cbv beta iota zeta.
  cbn [CustomerModel.docId CustomerModel.docMetrics CustomerModel.docLoyalty
       snd fst omap list_omap foldl].
  rewrite Hid.
  destruct status; cbv beta iota zeta; cbn [snd fst foldl];
    eexists; (split; [apply lookup_insert_eq |]);
    cbn [CustomerModel.docId CustomerModel.docMetrics CustomerModel.docLoyalty
         CustomerModel.totalOrders CustomerModel.metricsTotalSpent
         CustomerModel.firstPurchaseDate CustomerModel.metricsLastPurchaseDate
         CustomerModel.points];
    destruct (CustomerModel.firstPurchaseDate _); repeat split; congruence.
Qed.

Lemma orderPostSave_other (saved : order * CustomerModel.orderStatus)
  (id : string) (db : gmap string CustomerModel.document) :
  (forall doc, db !! orderCustomer (fst saved) = Some doc ->
               CustomerModel.docId doc = orderCustomer (fst saved)) ->
  orderCustomer (fst saved) <> id ->
  CustomerModel.orderPostSave saved db !! id = db !! id.
Proof.
  destruct saved as [o status]. simpl fst. intros Hkeyed Hother.
  unfold CustomerModel.orderPostSave.
  destruct (db !! orderCustomer o) as [doc |] eqn:Estored; [| reflexivity].
  specialize (Hkeyed doc eq_refl).
  unfold CustomerModel.updateMetrics, CustomerModel.updateLoyaltyPoints,
    CustomerModel.save.
  cbv beta iota zeta. cbn [CustomerModel.docId snd]. rewrite Hkeyed.
  destruct status; cbn [snd]; rewrite !lookup_insert_ne by exact Hother;
    reflexivity.
Qed.

(** X28. Every save of an order is counted.  After any sequence of saves
    of orders of one stored customer, whose [totalOrders] is not negative,
    the customer's [totalOrders] has grown
    by the number of saves and [totalSpent] by the totals saved, an order
    saved twice (saved again when cancelled or refunded, say) counting
    twice; [firstPurchaseDate] is kept once set and otherwise comes from the
    first save, [lastPurchaseDate] comes from the last save, and the points
    have grown by the whole units of each total saved as delivered.  No
    other customer's document changes. *)
Theorem saves_accumulate_metrics
  (id : string) (saves : list (order * CustomerModel.orderStatus))
  (doc : CustomerModel.document) (db : gmap string CustomerModel.document)
  (Hstored : db !! id = Some doc)
  (Hid : CustomerModel.docId doc = id)
  (Hcounted : 0 <= CustomerModel.totalOrders (CustomerModel.docMetrics doc))
  (Hsaves : Forall (fun saved => orderCustomer (fst saved) = id) saves) :
  exists doc',
    CustomerModel.afterSaves saves db !! id = Some doc'
    /\ CustomerModel.totalOrders (CustomerModel.docMetrics doc')
       = CustomerModel.totalOrders (CustomerModel.docMetrics doc)
         + Z.of_nat (length saves)
    /\ CustomerModel.metricsTotalSpent (CustomerModel.docMetrics doc')
       = foldl Qplus
           (CustomerModel.metricsTotalSpent (CustomerModel.docMetrics doc))
           (map (fun saved => orderTotal (fst saved)) saves)
    /\ CustomerModel.firstPurchaseDate (CustomerModel.docMetrics doc')
       = match CustomerModel.firstPurchaseDate (CustomerModel.docMetrics doc),
               saves with
         | Some date, _ => Some date
         | None, first :: _ => Some (orderCreatedAt (fst first))
         | None, [] => None
         end
    /\ CustomerModel.metricsLastPurchaseDate (CustomerModel.docMetrics doc')
       = match last saves with
         | Some latest => Some (orderCreatedAt (fst latest))
         | None =>
             CustomerModel.metricsLastPurchaseDate (CustomerModel.docMetrics doc)
         end
    /\ CustomerModel.points (CustomerModel.docLoyalty doc')
       = foldl Qplus (CustomerModel.points (CustomerModel.docLoyalty doc))
           (CustomerModel.earnedBy saves)
    /\ forall other,
         other <> id -> CustomerModel.afterSaves saves db !! other = db !! other.
Proof.
  revert doc db Hstored Hid Hcounted.
  induction saves as [| saved rest IH]; intros doc db Hstored Hid Hcounted.
  - exists doc. simpl. rewrite Z.add_0_r.
    destruct (CustomerModel.firstPurchaseDate _); now repeat split.
  - inversion Hsaves as [| s ss Hsaved Hrest]; subst.
    destruct (orderPostSave_step saved doc db)
      as (doc1 & Hstored1 & Hid1 & Horders & Hspent & Hfirst & Hlast & Hpoints);
      [now rewrite Hsaved | congruence |].
    rewrite Hsaved in Hstored1.
    destruct (IH Hrest doc1 _ Hstored1 ltac:(congruence) ltac:(lia))
      as (doc' & Hfinal & Horders' & Hspent' & Hfirst' & Hlast' & Hpoints'
          & Hothers).
    exists doc'. split; [exact Hfinal |].
    rewrite Horders', Hspent', Hfirst', Hlast', Hpoints'.
    rewrite Horders, Hspent, Hfirst, Hlast, Hpoints.
    rewrite last_cons. simpl length.
    repeat split.
    + lia.
    + destruct (CustomerModel.firstPurchaseDate (CustomerModel.docMetrics doc));
        now destruct rest.
    + now destruct (last rest).
    + unfold CustomerModel.earnedBy. cbn [omap list_omap].
      destruct (snd saved); reflexivity.
    + intros other Hother.
      change (CustomerModel.afterSaves (saved :: rest) db)
        with (CustomerModel.afterSaves rest
                (CustomerModel.orderPostSave saved db)).
      rewrite (Hothers other Hother).
      apply orderPostSave_other; [| now rewrite Hsaved].
      rewrite Hsaved, Hstored. now intros d [= <-].
Qed.

Lemma saves_accumulate_metrics_witness :
  exists doc',
    CustomerModel.afterSaves
      [(deliveredOrder, CustomerModel.Delivered);
       (deliveredOrder, CustomerModel.Refunded)]
      {["c1" := freshDocument]} !! "c1" = Some doc'
    /\ CustomerModel.totalOrders (CustomerModel.docMetrics doc') = 2
    /\ CustomerModel.points (CustomerModel.docLoyalty doc')
       = inject_Z 1250.
Proof.
  destruct (saves_accumulate_metrics "c1"
              [(deliveredOrder, CustomerModel.Delivered);
               (deliveredOrder, CustomerModel.Refunded)]
              freshDocument {["c1" := freshDocument]})
    as (doc' & Hfinal & Horders & _ & _ & _ & Hpoints & _).
  - reflexivity.
  - reflexivity.
  - simpl. lia.
  - repeat constructor.
  - exists doc'. split; [exact Hfinal |]. split; [exact Horders |].
    exact Hpoints.
Defined.

(** X29. Points and tier after updateLoyaltyPoints.  Subtracting never
    leaves negative points.  From 1000 points on the tier is the bracket of
    the points (silver from 1000, gold from 5000, platinum from 10000), so it
    can go down as well as up; below 1000 points the tier is left as it was:
    no update ever sets bronze.  The document saved is the one returned. *)
Theorem loyalty_tier_follows_points
  (earned : Q) (operation : string) (doc : CustomerModel.document)
  (db : gmap string CustomerModel.document) :
  let doc' := fst (CustomerModel.updateLoyaltyPoints earned operation doc db) in
  let account := CustomerModel.docLoyalty doc' in
  snd (CustomerModel.updateLoyaltyPoints earned operation doc db)
    !! CustomerModel.docId doc = Some doc'
  /\ (operation = "subtract" -> Qle 0 (CustomerModel.points account))
  /\ (Qlt (CustomerModel.points account) 1000 ->
      CustomerModel.tier account
      = CustomerModel.tier (CustomerModel.docLoyalty doc))
  /\ (Qle 1000 (CustomerModel.points account) ->
      CustomerModel.tier account
      = if Qle_bool 10000 (CustomerModel.points account) then Platinum
        else if Qle_bool 5000 (CustomerModel.points account) then Gold
        else Silver)
  /\ (CustomerModel.tier account = Bronze ->
      CustomerModel.tier (CustomerModel.docLoyalty doc) = Bronze
      /\ Qlt (CustomerModel.points account) 1000).
Proof.
  cbv zeta. unfold CustomerModel.updateLoyaltyPoints, CustomerModel.save.
  cbv beta iota zeta.
  cbn [fst snd CustomerModel.docId CustomerModel.docLoyalty
       CustomerModel.points CustomerModel.tier].
  set (p := if String.eqb operation "add" then _ else _).
  split; [apply lookup_insert_eq |].
  split.
  { intros ->. subst p. cbn [String.eqb]. simpl.
    unfold CustomerModel.max0.
    destruct (Qle_bool 0 _) eqn:E; [now apply Qle_bool_iff | apply Qle_refl]. }
  assert (Hbelow : forall bound, Qlt p bound -> Qle_bool bound p = false).
  { intros bound Hlt. destruct (Qle_bool bound p) eqn:E; [| reflexivity].
    apply Qle_bool_iff in E. exfalso. exact (Qlt_not_le _ _ Hlt E). }
  split; [| split].
  - intros Hlow.
    rewrite (Hbelow 10000%Q), (Hbelow 5000%Q), (Hbelow 1000%Q);
      [reflexivity | exact Hlow | |];
      (eapply Qlt_trans; [exact Hlow | reflexivity]).
  - intros Hhigh. apply Qle_bool_iff in Hhigh. rewrite Hhigh.
    reflexivity.
  - destruct (Qle_bool 10000 p); [discriminate |].
    destruct (Qle_bool 5000 p); [discriminate |].
    destruct (Qle_bool 1000 p) eqn:E; [discriminate |].
    intros Hbronze. split; [exact Hbronze |].
    apply Qnot_le_lt. intros Hle. apply Qle_bool_iff in Hle. congruence.
Qed.

(** X30. After updateMetrics on a customer whose [totalOrders] is not
    negative, [averageOrderValue] is a finite number, never Infinity or
    NaN: the quotient of the new [totalSpent] by the new [totalOrders],
    which is positive. *)
Theorem updateMetrics_average
  (order : order) (doc : CustomerModel.document)
  (db : gmap string CustomerModel.document)
  (Hcounted : 0 <= CustomerModel.totalOrders (CustomerModel.docMetrics doc)) :
  let after :=
    CustomerModel.docMetrics (fst (CustomerModel.updateMetrics order doc db)) in
  CustomerModel.averageOrderValue after
  = Fin (Qdiv (CustomerModel.metricsTotalSpent after)
           (inject_Z (CustomerModel.totalOrders after)))
  /\ 0 < CustomerModel.totalOrders after.
Proof.
  cbv zeta. unfold CustomerModel.updateMetrics. cbv beta iota zeta.
  cbn [fst CustomerModel.docMetrics CustomerModel.averageOrderValue
       CustomerModel.totalOrders CustomerModel.metricsTotalSpent].
  set (n := CustomerModel.totalOrders (CustomerModel.docMetrics doc) + 1).
  assert (Hn : ~ Qeq (inject_Z n) 0).
  { unfold Qeq. simpl. subst n. lia. }
  unfold div, ofZ.
  destruct (Qeq_bool (inject_Z n) 0) eqn:E;
    [apply Qeq_bool_iff in E; contradiction |].
  split; [reflexivity | subst n; lia].
Qed.

Lemma updateMetrics_average_witness :
  CustomerModel.averageOrderValue
    (CustomerModel.docMetrics
       (fst (CustomerModel.updateMetrics deliveredOrder freshDocument ∅)))
  = Fin (Qdiv (Qplus 0 (2501 # 2)) (inject_Z 1)).
Proof.
  apply (updateMetrics_average deliveredOrder freshDocument ∅).
  simpl. lia.
Defined.
